(** * Provenance graph and accessioning engine of [accession.py]

    A shallow embedding of the graph builder ([Analysis]), the lineage
    search ([search_up], [search_down]) and the submission engine
    ([Accession]) of [src/accession.py], with the properties the
    specification states about them (C1 to C10) and further properties
    of the code (X1 to X29).

    Conventions of the embedding:
    - Python objects with identity ([Task], [GSFile]) live in an arena:
      a task is named by its index in [Analysis.tasks], a file by its index
      in [Analysis.files]; object identity is index equality, so the
      aliasing between [task.output_files], [task.input_files] and
      [analysis.files] is kept.
    - JSON values are [pyval]; a Python [dict] is an association list in
      insertion order.
    - An exception is an [exn]: its class and the text [str(e)] gives.
    - A generator is run to its end: what it yielded and the exception
      that ended it, if any ([gen]); the recursion limit of the interpreter
      is the [depth] of the lineage search.
    - The storage backend and the catalog connection are external: they are
      fields of [Accession] (parameters of the graph builder), acting on an
      abstract [World]; every call made on them is kept in a log.

    The model comes first, then the vocabulary of the properties and a
    small pipeline to run the model on, then the properties and their
    instances on that pipeline. *)

From Stdlib Require Import List String Ascii ZArith Bool Arith Lia Permutation DecimalString.
Import ListNotations.
Open Scope string_scope.
Open Scope list_scope.

(** ** Python strings *)

(** [sub in s] for two strings. *)
Definition str_contains (sub s : string) : bool :=
  match String.index 0 sub s with
  | Some _ => true
  | None => false
  end.

(** [s.split(sep)] for a non-empty separator: [skip] counts the characters
    of a separator just matched that are still to be dropped, [cur] is the
    piece being read. *)
Fixpoint split_go (sep s : string) (skip : nat) (cur : string) : list string :=
  match s with
  | EmptyString => [cur]
  | String c s' =>
      match skip with
      | S k => split_go sep s' k cur
      | O =>
          if String.prefix sep s
          then cur :: split_go sep s' (String.length sep - 1) EmptyString
          else split_go sep s' O (cur ++ String c EmptyString)%string
      end
  end.

Definition split (sep s : string) : list string := split_go sep s 0 EmptyString.

(** [s.replace(old, new)] for a non-empty [old]. *)
Definition replace (old new s : string) : string :=
  String.concat new (split old s).

(** ** Exceptions and results *)

Inductive exn_class :=
| Exception
| TypeError
| AttributeError
| IndexError
| KeyError
| RecursionError
| HTTPError
| OSError.

Record exn := mkExn { exn_cls : exn_class; exn_str : string }.

Inductive result (A : Type) :=
| Ok (a : A)
| Raise (e : exn).
Arguments Ok {A} a.
Arguments Raise {A} e.

Definition rbind {A B} (m : result A) (k : A -> result B) : result B :=
  match m with
  | Ok a => k a
  | Raise e => Raise e
  end.

Declare Scope result_scope.
Delimit Scope result_scope with result.
Notation "x <- m ;; k" := (rbind m (fun x => k))
  (at level 61, m at next level, right associativity) : result_scope.
Notation "' p <- m ;; k" := (rbind m (fun x => match x with p => k end))
  (at level 61, p pattern, m at next level, right associativity) : result_scope.

Definition index_out_of_range : exn := mkExn IndexError "list index out of range".

(** [l[i]] on a list. *)
Definition py_index {A} (l : list A) (i : nat) : result A :=
  match nth_error l i with
  | Some a => Ok a
  | None => Raise index_out_of_range
  end.

(** ** Locations in the bucket *)

(** [filename.split('gs://')[1].split('/')[0]], the bucket
    [GCBackend.blob_from_filename] and [Analysis.__init__] read off a
    location. *)
Definition bucket_name (name : string) : result string :=
  rbind (py_index (split "gs://" name) 1)
        (fun s => py_index (split "/" s) 0).

(** [GCBackend.file_path]. *)
Definition file_path (file bucket : string) : result string :=
  py_index (split ("gs://" ++ bucket ++ "/") file) 1.

(** The bucket and the path [GCBackend.blob_from_filename] makes the blob
    of: the bucket is fetched by the name read off the location, so
    [file_path] is given a bucket of that name. *)
Definition blob_location (name : string) : result (string * string) :=
  rbind (bucket_name name) (fun b =>
  rbind (file_path name b) (fun p => Ok (b, p))).

(** ** JSON values *)

#[local] Unset Elimination Schemes.
Inductive pyval :=
| PNone
| PBool (b : bool)
| PInt (z : Z)
| PStr (s : string)
| PList (l : list pyval)
| PDict (d : list (string * pyval)).
#[local] Set Elimination Schemes.

Definition dict := list (string * pyval).

(** [d.get(k)], [None] when the key is absent. *)
Fixpoint dict_get (d : dict) (k : string) : pyval :=
  match d with
  | [] => PNone
  | (k', v) :: rest => if String.eqb k k' then v else dict_get rest k
  end.

(** [d[k] = v]: the value of an existing key is replaced where it stands, a
    new key goes last. *)
Fixpoint dict_set (d : dict) (k : string) (v : pyval) : dict :=
  match d with
  | [] => [(k, v)]
  | (k', v') :: rest =>
      if String.eqb k k' then (k', v) :: rest else (k', v') :: dict_set rest k v
  end.

(** [d.update(other)]. *)
Definition dict_update (d other : dict) : dict :=
  fold_left (fun acc kv => dict_set acc (fst kv) (snd kv)) other d.

(** Truth value of a JSON value. *)
Definition truthy (v : pyval) : bool :=
  match v with
  | PNone => false
  | PBool b => b
  | PInt z => negb (Z.eqb z 0)
  | PStr s => negb (String.eqb s EmptyString)
  | PList l => match l with [] => false | _ => true end
  | PDict d => match d with [] => false | _ => true end
  end.

(** ** Run metadata *)

(** One entry of [metadata['calls'][key]]: the fields [Task.__init__]
    reads, each [None] when the entry has no such key. *)
Record Call := mkCall {
  call_inputs : option dict;
  call_outputs : option dict;
  call_dockerImageUsed : option string
}.

(** [task[k]] on a call entry, for [k] one of [inputs] and [outputs]. *)
Definition call_item (k : string) (section : option dict) : result dict :=
  match section with
  | Some d => Ok d
  | None => Raise (mkExn KeyError ("'" ++ k ++ "'"))
  end.

(** The section of a call entry, empty when the entry has none. *)
Definition call_section (section : option dict) : dict :=
  match section with
  | Some d => d
  | None => []
  end.

Record Metadata := mkMetadata {
  calls : list (string * list Call)
}.

(** ** The arena: tasks and files *)

Definition tid := nat.
Definition fid := nat.

Record Task := mkTask {
  task_name : string;
  input_files : list fid;
  output_files : list fid;
  inputs : dict;
  outputs : dict;
  docker_image : option string
}.

Record GSFile := mkGSFile {
  filename : string;
  filekeys : list string;
  task : option tid;
  used_by_tasks : list tid;
  md5sum : string;
  size : Z
}.

Record Analysis := mkAnalysis {
  files : list GSFile;
  tasks : list Task
}.

(** [Analysis.extract_files]: the strings containing [gs://], in the order
    the generator yields them. *)
Fixpoint extract_files (v : pyval) : list string :=
  match v with
  | PStr s => if str_contains "gs://" s then [s] else []
  | PList l => flat_map extract_files l
  | PDict d => flat_map (fun kv : string * pyval => extract_files (snd kv)) d
  | _ => []
  end.

Definition mem_str (s : string) (l : list string) : bool :=
  existsb (String.eqb s) l.

Definition mem_nat (n : nat) (l : list nat) : bool :=
  existsb (Nat.eqb n) l.

(** The hit branch of [get_or_make_file]: the role-key and the consumer are
    added when new; the producer is left as it is. *)
Definition touch_file (key : string) (used_by : option tid) (f : GSFile) : GSFile :=
  let keys := if mem_str key (filekeys f) then filekeys f else filekeys f ++ [key] in
  let users :=
    match used_by with
    | Some u => if mem_nat u (used_by_tasks f) then used_by_tasks f
                else used_by_tasks f ++ [u]
    | None => used_by_tasks f
    end in
  mkGSFile (filename f) keys (task f) users (md5sum f) (size f).

(** [GSFile.__init__]. *)
Definition new_GSFile (key name md5 : string) (sz : Z)
    (t : option tid) (used_by : option tid) : GSFile :=
  mkGSFile name [key] t
           (match used_by with Some u => [u] | None => [] end) md5 sz.

(** Index of the first file at this location, as the scan of
    [get_or_make_file] finds it. *)
Fixpoint find_file (name : string) (fs : list GSFile) : option fid :=
  match fs with
  | [] => None
  | f :: rest =>
      if String.eqb name (filename f) then Some O
      else option_map S (find_file name rest)
  end.

Fixpoint update_at {A} (i : nat) (g : A -> A) (l : list A) : list A :=
  match l, i with
  | [], _ => []
  | x :: rest, O => g x :: rest
  | x :: rest, S j => x :: update_at j g rest
  end.

Section Graph.

(** The storage backend ([GCBackend.md5sum] and [GCBackend.size]). *)
Variable backend_md5sum : string -> result string.
Variable backend_size : string -> result Z.

Local Open Scope result_scope.

(** [Analysis.get_or_make_file] on the file list [fs]. *)
Definition get_or_make_file (fs : list GSFile) (key name : string)
    (t : option tid) (used_by : option tid) : result (fid * list GSFile) :=
  match find_file name fs with
  | Some i => Ok (i, update_at i (touch_file key used_by) fs)
  | None =>
      md5 <- backend_md5sum name ;;
      sz <- backend_size name ;;
      Ok (List.length fs, fs ++ [new_GSFile key name md5 sz t used_by])
  end.

(** The inner loop of [get_or_make_files], over the locations of one key. *)
Fixpoint get_or_make_names (fs : list GSFile) (key : string) (names : list string)
    (t : option tid) (used_by : option tid) : result (list fid * list GSFile) :=
  match names with
  | [] => Ok ([], fs)
  | name :: rest =>
      '(i, fs1) <- get_or_make_file fs key name t used_by ;;
      '(ixs, fs2) <- get_or_make_names fs1 key rest t used_by ;;
      Ok (i :: ixs, fs2)
  end.

(** [Analysis.get_or_make_files]. *)
Fixpoint get_or_make_files (fs : list GSFile) (section : dict)
    (t : option tid) (used_by : option tid) : result (list fid * list GSFile) :=
  match section with
  | [] => Ok ([], fs)
  | (key, value) :: rest =>
      '(ixs1, fs1) <- get_or_make_names fs key (extract_files value) t used_by ;;
      '(ixs2, fs2) <- get_or_make_files fs1 rest t used_by ;;
      Ok (ixs1 ++ ixs2, fs2)
  end.

(** [Analysis.make_task], with [Task.__init__]: the name is read off
    the call key before the call entry is looked into. *)
Definition make_task (key : string) (c : Call) : result Task :=
  name <- py_index (split "." key) 1 ;;
  task_inputs <- call_item "inputs" (call_inputs c) ;;
  task_outputs <- call_item "outputs" (call_outputs c) ;;
  Ok (mkTask name [] [] task_inputs task_outputs (call_dockerImageUsed c)).

Fixpoint make_task_list (key : string) (cs : list Call) : result (list Task) :=
  match cs with
  | [] => Ok []
  | c :: rest =>
      t <- make_task key c ;;
      ts <- make_task_list key rest ;;
      Ok (t :: ts)
  end.

(** First loop of [make_tasks]. *)
Fixpoint make_all_tasks (cl : list (string * list Call)) : result (list Task) :=
  match cl with
  | [] => Ok []
  | (key, cs) :: rest =>
      ts1 <- make_task_list key cs ;;
      ts2 <- make_all_tasks rest ;;
      Ok (ts1 ++ ts2)
  end.

(** Second loop of [make_tasks]: the task at index [i] is the head of
    [ts]. *)
Fixpoint make_output_files (i : tid) (ts : list Task) (fs : list GSFile)
    : result (list Task * list GSFile) :=
  match ts with
  | [] => Ok ([], fs)
  | t :: rest =>
      '(out, fs1) <- get_or_make_files fs (outputs t) (Some i) None ;;
      '(rest', fs2) <- make_output_files (S i) rest fs1 ;;
      Ok (mkTask (task_name t) (input_files t) out (inputs t) (outputs t)
                 (docker_image t) :: rest', fs2)
  end.

(** Third loop of [make_tasks]. *)
Fixpoint make_input_files (i : tid) (ts : list Task) (fs : list GSFile)
    : result (list Task * list GSFile) :=
  match ts with
  | [] => Ok ([], fs)
  | t :: rest =>
      '(inp, fs1) <- get_or_make_files fs (inputs t) None (Some i) ;;
      '(rest', fs2) <- make_input_files (S i) rest fs1 ;;
      Ok (mkTask (task_name t) inp (output_files t) (inputs t) (outputs t)
                 (docker_image t) :: rest', fs2)
  end.

(** [Analysis.make_tasks], from the empty file list [__init__] sets. *)
Definition make_tasks (md : Metadata) : result Analysis :=
  ts0 <- make_all_tasks (calls md) ;;
  '(ts1, fs1) <- make_output_files 0 ts0 [] ;;
  '(ts2, fs2) <- make_input_files 0 ts1 fs1 ;;
  Ok (mkAnalysis fs2 ts2).

End Graph.

(** ** Lineage search *)

(** What a generator did when it was run to its end: the items it yielded,
    in order, and the exception that ended it, if one did. *)
Record gen (A : Type) := mkGen { yielded : list A; raised : option exn }.
Arguments mkGen {A} yielded raised.
Arguments yielded {A} g.
Arguments raised {A} g.

Definition gen_yield {A} (l : list A) : gen A := mkGen l None.
Definition gen_raise {A} (e : exn) : gen A := mkGen [] (Some e).

(** One generator body after another: the second runs only when the first
    ended without raising. *)
Definition gen_seq {A} (g1 g2 : gen A) : gen A :=
  match raised g1 with
  | Some _ => g1
  | None => mkGen (yielded g1 ++ yielded g2) (raised g2)
  end.

(** [for x in l: yield from body(x)]. *)
Fixpoint gen_for {A B} (l : list A) (body : A -> gen B) : gen B :=
  match l with
  | [] => gen_yield []
  | x :: rest => gen_seq (body x) (gen_for rest body)
  end.

(** [list(g)]. *)
Definition gen_list {A} (g : gen A) : result (list A) :=
  match raised g with
  | Some e => Raise e
  | None => Ok (yielded g)
  end.

Definition recursion_error : exn :=
  mkExn RecursionError "maximum recursion depth exceeded".

Definition reduce_empty : exn :=
  mkExn TypeError "reduce() of empty sequence with no initial value".

Definition opt_tid_dec : forall x y : option tid, {x = y} + {x <> y}.
Proof. decide equality; apply Nat.eq_dec. Defined.

(** Attribute access through the arena. An index outside the arena stands
    for an object with empty attributes; a built graph has none. *)
Definition get_file (a : Analysis) (f : fid) : GSFile :=
  nth f (files a) (mkGSFile EmptyString [] None [] EmptyString 0%Z).

Definition get_task (a : Analysis) (t : tid) : Task :=
  nth t (tasks a) (mkTask EmptyString [] [] [] [] None).

Definition has_filekey (a : Analysis) (key : string) (f : fid) : bool :=
  mem_str key (filekeys (get_file a f)).

(** [reduce(operator.concat, ls)] without an initial value. *)
Definition reduce_concat {A} (ls : list (list A)) : result (list A) :=
  match ls with
  | [] => Raise reduce_empty
  | l :: rest => Ok (fold_left (@app A) rest l)
  end.

(** [Analysis.search_up]. [depth] is the number of frames the interpreter
    still allows; [set(...)] is iterated in the order [nodup] leaves. *)
Fixpoint search_up (a : Analysis) (depth : nat) (t : tid) (name key : string)
    (via_inputs : bool) : gen fid :=
  match depth with
  | O => gen_raise recursion_error
  | S d =>
      gen_seq
        (gen_yield
           (if String.eqb name (task_name (get_task a t))
            then filter (has_filekey a key)
                        (if via_inputs then input_files (get_task a t)
                         else output_files (get_task a t))
            else []))
        (gen_for (nodup opt_tid_dec
                        (map (fun x => task (get_file a x)) (input_files (get_task a t))))
                 (fun task_item =>
                    match task_item with
                    | Some t' => search_up a d t' name key via_inputs
                    | None => gen_yield []
                    end))
  end.

(** [Analysis.search_down]. *)
Fixpoint search_down (a : Analysis) (depth : nat) (t : tid) (name key : string)
    : gen fid :=
  match depth with
  | O => gen_raise recursion_error
  | S d =>
      gen_seq
        (gen_yield
           (if String.eqb name (task_name (get_task a t))
            then filter (has_filekey a key) (output_files (get_task a t))
            else []))
        (match reduce_concat (map (fun x => used_by_tasks (get_file a x))
                                  (output_files (get_task a t))) with
         | Raise e => gen_raise e
         | Ok users =>
             gen_for (nodup Nat.eq_dec users)
                     (fun task_item => search_down a d task_item name key)
         end)
  end.

(** [Analysis.get_tasks]. *)
Definition get_tasks (a : Analysis) (name : string) : list tid :=
  filter (fun t => String.eqb name (task_name (get_task a t)))
         (seq 0 (List.length (tasks a))).

(** [Analysis.raw_fastqs]. *)
Definition raw_fastqs (a : Analysis) : list fid :=
  filter (fun f => mem_str "fastqs" (filekeys (get_file a f))
                   && match task (get_file a f) with None => true | Some _ => false end)
         (seq 0 (List.length (files a))).

(** The file is a raw fastq: it has no producer and carries the role-key
    [fastqs]. *)
Definition is_raw_fastq (a : Analysis) (f : fid) : bool :=
  match task (get_file a f) with
  | None => mem_str "fastqs" (filekeys (get_file a f))
  | Some _ => false
  end.

(** [Accession.raw_fastq_inputs] on the graph [a]. *)
Fixpoint raw_fastq_inputs (a : Analysis) (depth : nat) (file : fid) : gen fid :=
  match depth with
  | O => gen_raise recursion_error
  | S d =>
      gen_seq
        (gen_yield (if is_raw_fastq a file then [file] else []))
        (match task (get_file a file) with
         | Some t => gen_for (input_files (get_task a t))
                             (fun input_file => raw_fastq_inputs a d input_file)
         | None => gen_yield []
         end)
  end.

(** ** Step specifications *)

(** The steps document, with the keys the engine reads and the types the
    steps files give them; a key read with [get] and absent is [None] or
    [false]. *)

(** One entry of [derived_from_files]. *)
Record AncestorSpec := mkAncestorSpec {
  derived_from_task : string;
  derived_from_filekey : string;
  derived_from_output_type : option string;
  derived_from_inputs : bool
}.

(** One entry of [wdl_files]. *)
Record FileParams := mkFileParams {
  filekey : string;
  file_format : string;
  output_type : string;
  derived_from_files : list AncestorSpec;
  file_format_type : option string;
  possible_duplicate : bool;
  quality_metrics : list string
}.

(** One step of the steps document. *)
Record StepParams := mkStepParams {
  dcc_step_run : string;
  dcc_step_version : string;
  wdl_task_name : string;
  wdl_files : list FileParams
}.

Definition ASSEMBLIES : list string := ["GRCh38"; "mm10"].

Definition QC_MAP : list (string * string) :=
  [("cross_correlation", "attach_cross_correlation_qc_to");
   ("samtools_flagstat", "attach_flagstat_qc_to");
   ("idr", "attach_idr_qc_to")].

Fixpoint assoc_str {A} (l : list (string * A)) (k : string) : option A :=
  match l with
  | [] => None
  | (k', v) :: rest => if String.eqb k k' then Some v else assoc_str rest k
  end.

(** ** Hashable values *)

(** The values a Python [set] can hold, up to [==]: [True == 1] and
    [False == 0]. *)
Inductive hkey :=
| KNone
| KNum (z : Z)
| KStr (s : string).

Definition hkey_eqb (x y : hkey) : bool :=
  match x, y with
  | KNone, KNone => true
  | KNum a, KNum b => Z.eqb a b
  | KStr a, KStr b => String.eqb a b
  | _, _ => false
  end.

Definition py_hash_key (v : pyval) : option hkey :=
  match v with
  | PNone => Some KNone
  | PBool b => Some (KNum (if b then 1 else 0))
  | PInt z => Some (KNum z)
  | PStr s => Some (KStr s)
  | PList _ => None
  | PDict _ => None
  end.

Definition unhashable (v : pyval) : exn :=
  mkExn TypeError
        (match v with
         | PList _ => "unhashable type: 'list'"
         | _ => "unhashable type: 'dict'"
         end).

(** [set(l)] built left to right: a value equal to one already held is
    dropped; [seen] holds the keys met so far. *)
Fixpoint py_set_go (seen : list hkey) (l : list pyval) : result (list pyval) :=
  match l with
  | [] => Ok []
  | v :: rest =>
      match py_hash_key v with
      | None => Raise (unhashable v)
      | Some k =>
          if existsb (hkey_eqb k) seen then py_set_go seen rest
          else rbind (py_set_go (k :: seen) rest) (fun r => Ok (v :: r))
      end
  end.

Definition py_set (l : list pyval) : result (list pyval) := py_set_go [] l.

(** [str(v)] for a hashable value. *)
Definition py_str (v : pyval) : string :=
  match v with
  | PNone => "None"
  | PBool true => "True"
  | PBool false => "False"
  | PInt z => DecimalString.NilZero.string_of_int (Z.to_int z)
  | PStr s => s
  | PList _ => EmptyString
  | PDict _ => EmptyString
  end.

(** [s == v] for a string [s]. *)
Definition py_eq_str (s : string) (v : pyval) : bool :=
  match v with
  | PStr s' => String.eqb s s'
  | _ => false
  end.

(** [s in v] for a string [s]. *)
Definition py_in_str (s : string) (v : pyval) : result bool :=
  match v with
  | PStr s' => Ok (str_contains s s')
  | PList l => Ok (existsb (py_eq_str s) l)
  | PDict d => Ok (existsb (fun kv : string * pyval => String.eqb s (fst kv)) d)
  | PNone => Raise (mkExn TypeError "argument of type 'NoneType' is not iterable")
  | PBool _ => Raise (mkExn TypeError "argument of type 'bool' is not iterable")
  | PInt _ => Raise (mkExn TypeError "argument of type 'int' is not iterable")
  end.

(** [v.get(k, default)]. *)
Definition py_get (v : pyval) (k : string) (default : pyval) : result pyval :=
  match v with
  | PDict d =>
      Ok (match assoc_str d k with Some x => x | None => default end)
  | PNone => Raise (mkExn AttributeError "'NoneType' object has no attribute 'get'")
  | PBool _ => Raise (mkExn AttributeError "'bool' object has no attribute 'get'")
  | PInt _ => Raise (mkExn AttributeError "'int' object has no attribute 'get'")
  | PStr _ => Raise (mkExn AttributeError "'str' object has no attribute 'get'")
  | PList _ => Raise (mkExn AttributeError "'list' object has no attribute 'get'")
  end.

Definition missing_all : exn :=
  mkExn Exception "Missing all of the derived_from files on the portal".

Definition missing_some : exn :=
  mkExn Exception "Missing some of the derived_from files on the portal".

(** [Accession.flatten]: the strings of a nested list, in order. *)
Fixpoint flatten (v : pyval) : list string :=
  match v with
  | PStr s => [s]
  | PList l => flat_map flatten l
  | _ => []
  end.

(** ** The accessioning engine *)

(** The calls the engine makes on its collaborators, as the run log keeps
    them. *)
Inductive call :=
| CMd5sum (name : string)
| CSearch (query : list (string * string))
| CGet (rec_id : pyval)
| CDownload (name : string)
| CRemove (path : string)
| CPost (payload : dict)
| CPatch (payload : dict)
| CQc (method : string) (record : dict) (file : fid).

(** A call that creates or updates a catalog record. *)
Definition is_mutation (c : call) : bool :=
  match c with
  | CPost _ => true
  | CPatch _ => true
  | _ => false
  end.

(** A call that only reads. *)
Definition is_read (c : call) : bool :=
  match c with
  | CMd5sum _ => true
  | CSearch _ => true
  | CGet _ => true
  | _ => false
  end.

(** What [Accession.__init__] stores in [self], over the state [World] of
    everything outside the program (the catalog, the bucket, the local
    disk), with the module-level constants the methods read. *)
Record Accession (World : Type) := mkAccession {
  (** Storage backend: [GCBackend.md5sum] and the path [GCBackend.download]
      returns first. *)
  backend_md5sum : string -> result string;
  backend_download : World -> string -> result string * World;
  os_remove : World -> string -> result unit * World;
  (** Catalog connection ([encode_utils.connection.Connection]): [search]
      and [get] read, [post] and [patch] write. *)
  conn_search : World -> list (string * string) -> result (list dict);
  conn_get : World -> pyval -> result dict;
  conn_post : World -> dict -> result dict * World;
  conn_patch : World -> dict -> result dict * World;
  ENCID_KEY : string;
  PROFILE_KEY : string;
  (** The quality-metric handlers ([attach_*_qc_to]), by method name. *)
  qc_method : string -> World -> dict -> fid -> result unit * World;
  (** [COMMON_METADATA] after [set_lab_award], and [self.current_user]. *)
  lab : string;
  award : string;
  current_user : pyval;
  (** The recursion depth left to the lineage search. *)
  recursion_limit : nat;
  (** [self.analysis], built once and not changed by the engine. *)
  analysis : Analysis
}.
Arguments backend_md5sum {World} a.
Arguments backend_download {World} a.
Arguments os_remove {World} a.
Arguments conn_search {World} a.
Arguments conn_get {World} a.
Arguments conn_post {World} a.
Arguments conn_patch {World} a.
Arguments ENCID_KEY {World} a.
Arguments PROFILE_KEY {World} a.
Arguments qc_method {World} a.
Arguments lab {World} a.
Arguments award {World} a.
Arguments current_user {World} a.
Arguments recursion_limit {World} a.
Arguments analysis {World} a.

Section Engine.

Context {World : Type}.

Variable self : Accession World.

(** The state of a run: the world, [self.new_files] and the log of the
    calls made so far. *)
Record State := mkState {
  world : World;
  new_files : list dict;
  log : list call
}.

(** A method of [Accession]: from a state to a value or an exception, and
    the state it leaves. *)
Definition M (A : Type) : Type := State -> result A * State.

Definition ret {A} (a : A) : M A := fun st => (Ok a, st).

Definition raise {A} (e : exn) : M A := fun st => (Raise e, st).

Definition bind {A B} (m : M A) (k : A -> M B) : M B :=
  fun st =>
    match m st with
    | (Ok a, st') => k a st'
    | (Raise e, st') => (Raise e, st')
    end.

Definition lift {A} (r : result A) : M A := fun st => (r, st).

Definition record_call (c : call) (st : State) : State :=
  mkState (world st) (new_files st) (log st ++ [c]).

(** A call that reads the world. *)
Definition do_read {A} (c : call) (f : World -> result A) : M A :=
  fun st => (f (world st), record_call c st).

(** A call that may change the world. *)
Definition do_write {A} (c : call) (f : World -> result A * World) : M A :=
  fun st =>
    let (r, w) := f (world st) in
    (r, mkState w (new_files st) (log st ++ [c])).

Definition get_new_files : M (list dict) := fun st => (Ok (new_files st), st).

(** [self.new_files.append(r)]. *)
Definition append_new_file (r : dict) : M unit :=
  fun st => (Ok tt, mkState (world st) (new_files st ++ [r]) (log st)).

Declare Scope engine_scope.
Delimit Scope engine_scope with engine.
Notation "x <- m ;; k" := (bind m (fun x => k))
  (at level 61, m at next level, right associativity) : engine_scope.
Local Open Scope engine_scope.

Fixpoint mapM {A B} (f : A -> M B) (l : list A) : M (list B) :=
  match l with
  | [] => ret []
  | x :: rest =>
      y <- f x ;;
      ys <- mapM f rest ;;
      ret (y :: ys)
  end.

(** [for x in l: body(x)]. *)
Fixpoint forM {A} (l : list A) (body : A -> M unit) : M unit :=
  match l with
  | [] => ret tt
  | x :: rest => _ <- body x ;; forM rest body
  end.

(** [Accession.file_at_portal]: [None] when the search has no hit. *)
Definition file_at_portal (name : string) : M (option dict) :=
  md5 <- do_read (CMd5sum name) (fun _ => backend_md5sum self name) ;;
  let search_param := [("md5sum", md5); ("type", "File")] in
  encode_file <- do_read (CSearch search_param)
                         (fun w => conn_search self w search_param) ;;
  match encode_file with
  | hit :: _ =>
      let rec_id := dict_get hit "accession" in
      r <- do_read (CGet rec_id) (fun w => conn_get self w rec_id) ;;
      ret (Some r)
  | [] => ret None
  end.

(** Truth value of what [file_at_portal] returns: [None] and the empty
    mapping are false. *)
Definition record_truthy (r : option dict) : bool :=
  match r with
  | Some (_ :: _) => true
  | _ => false
  end.

(** [r.get(k)] on what [file_at_portal] returned, once known not to be
    [None]. *)
Definition record_of (r : option dict) : dict :=
  match r with
  | Some d => d
  | None => []
  end.

(** [Accession.patch_file]. *)
Definition patch_file (encode_file : dict) (new_properties : dict) : M dict :=
  let payload := dict_set new_properties (ENCID_KEY self) (dict_get encode_file "accession") in
  do_write (CPatch payload) (fun w => conn_patch self w payload).

Definition soft_deleted (r : dict) : bool :=
  let s := dict_get r "status" in
  py_eq_str "deleted" s || py_eq_str "revoked" s.

(** [Accession.accession_file]. *)
Definition accession_file (encode_file : dict) (gs_file : GSFile) : M dict :=
  file_exists <- file_at_portal (filename gs_file) ;;
  let submitted_file_path := [("submitted_file_name", PStr (filename gs_file))] in
  if negb (record_truthy file_exists) then
    local_file <- do_write (CDownload (filename gs_file))
                           (fun w => backend_download self w (filename gs_file)) ;;
    let encode_file1 := dict_set encode_file "submitted_file_name" (PStr local_file) in
    encode_posted_file <- do_write (CPost encode_file1)
                                   (fun w => conn_post self w encode_file1) ;;
    _ <- do_write (CRemove local_file) (fun w => os_remove self w local_file) ;;
    encode_posted_file' <- patch_file encode_posted_file submitted_file_path ;;
    _ <- append_new_file encode_posted_file' ;;
    ret encode_posted_file'
  else if soft_deleted (record_of file_exists) then
    let encode_file1 := dict_update encode_file submitted_file_path in
    let encode_file2 := dict_update encode_file1 [("submitted_by", current_user self)] in
    encode_patched_file <- patch_file (record_of file_exists) encode_file2 ;;
    _ <- append_new_file encode_patched_file ;;
    ret encode_patched_file
  else ret (record_of file_exists).

(** The records of [accessioned_files] that match one ancestor file: same
    md5sum, and the output type asked for when one is. *)
Definition matches (otype : option string) (md5 : string) (r : dict) : bool :=
  py_eq_str md5 (dict_get r "md5sum")
  && negb (match otype with
           | Some o => negb (String.eqb o EmptyString)
                       && negb (py_eq_str o (dict_get r "output_type"))
           | None => false
           end).

(** The double loop of [get_derived_from] that collects accession ids. *)
Definition matched_ids (otype : option string) (ancestors : list fid)
    (accessioned : list dict) : list pyval :=
  flat_map
    (fun gs_file =>
       map (fun r => dict_get r "accession")
           (filter (matches otype (md5sum (get_file (analysis self) gs_file))) accessioned))
    ancestors.

Fixpoint somes {A} (l : list (option A)) : list A :=
  match l with
  | [] => []
  | Some x :: rest => x :: somes rest
  | None :: rest => somes rest
  end.

Definition files_ref (accession_id : pyval) : string :=
  ("/files/" ++ py_str accession_id ++ "/")%string.

(** [Accession.get_derived_from]. The two [set(...)] are iterated in an
    order the interpreter chooses; the model takes the order [nodup] and
    [py_set] leave. *)
Definition get_derived_from (file : GSFile) (name key : string)
    (otype : option string) (via_inputs : bool) : M (list string) :=
  t <- lift (match task file with
             | Some t => Ok t
             | None => Raise (mkExn AttributeError
                                "'NoneType' object has no attribute 'task_name'")
             end) ;;
  found <- lift (gen_list (search_up (analysis self) (recursion_limit self) t name key via_inputs)) ;;
  let derived_from_files := nodup Nat.eq_dec found in
  encode_files <- mapM (fun gs_file => file_at_portal (filename (get_file (analysis self) gs_file)))
                       derived_from_files ;;
  cache <- get_new_files ;;
  let accessioned_files := somes encode_files ++ cache in
  ids <- lift (py_set (matched_ids otype derived_from_files accessioned_files)) ;;
  match ids with
  | [] => raise missing_all
  | _ =>
      if negb (Nat.eqb (List.length ids) (List.length derived_from_files))
      then raise missing_some
      else ret (map files_ref ids)
  end.

(** [Accession.get_derived_from_all], with the flattening of the lists
    of references. *)
Definition get_derived_from_all (file : GSFile) (specs : list AncestorSpec)
    : M (list string) :=
  ancestors <- mapM (fun s => get_derived_from file
                                (derived_from_task s)
                                (derived_from_filekey s)
                                (derived_from_output_type s)
                                (derived_from_inputs s))
                    specs ;;
  ret (List.concat ancestors).

(** [Accession.lab_pi]. *)
Definition lab_pi : result string :=
  rbind (py_index (split "/labs/" (lab self)) 1)
        (fun s => py_index (split "/" s) 0).

(** [Accession.assembly]. *)
Definition ref_fa : result pyval :=
  rbind (py_index (get_tasks (analysis self) "read_genome_tsv") 0)
        (fun t =>
           rbind (py_get (PDict (outputs (get_task (analysis self) t))) "genome" (PDict []))
                 (fun g => py_get g "ref_fa" (PStr EmptyString))).

Fixpoint assembly_go (refs : list string) : result (list string) :=
  match refs with
  | [] => Ok []
  | reference :: rest =>
      rbind ref_fa (fun v =>
      rbind (py_in_str reference v) (fun b =>
      rbind (assembly_go rest) (fun r =>
      Ok (if b then reference :: r else r))))
  end.

Definition assembly : result string :=
  rbind (assembly_go ASSEMBLIES)
        (fun l => Ok (match l with x :: _ => x | [] => EmptyString end)).

(** [Accession.dataset]. *)
Definition dataset : M pyval :=
  f <- lift (py_index (raw_fastqs (analysis self)) 0) ;;
  r <- file_at_portal (filename (get_file (analysis self) f)) ;;
  match r with
  | Some d => ret (dict_get d "dataset")
  | None => raise (mkExn AttributeError "'NoneType' object has no attribute 'get'")
  end.

(** [file.filename.split('gs://')[-1]]. *)
Definition after_scheme (name : string) : string :=
  last (split "gs://" name) EmptyString.

(** [Accession.file_from_template]. *)
Definition file_from_template (file : GSFile) (fmt otype : string)
    (step_run : dict) (derived_from : list string) (ds : pyval)
    (fmt_type : option string) : result dict :=
  let file_name := replace "/" "-" (after_scheme (filename file)) in
  rbind lab_pi (fun pi =>
  rbind assembly (fun asm =>
  let obj :=
    [("status", PStr "uploading");
     ("aliases", PList [PStr (pi ++ ":" ++ file_name)%string]);
     ("file_format", PStr fmt);
     ("output_type", PStr otype);
     ("assembly", PStr asm);
     ("dataset", ds);
     ("step_run", dict_get step_run "@id");
     ("derived_from", PList (map PStr derived_from));
     ("file_size", PInt (size file));
     ("md5sum", PStr (md5sum file))] in
  let obj1 :=
    match fmt_type with
    | Some s => if String.eqb s EmptyString then obj
                else dict_set obj "file_format_type" (PStr s)
    | None => obj
    end in
  let obj2 := dict_set obj1 (PROFILE_KEY self) (PStr "file") in
  Ok (dict_update obj2 [("lab", PStr (lab self)); ("award", PStr (award self))]))).

(** [Accession.make_file_obj]. *)
Definition make_file_obj (file : GSFile) (fmt otype : string) (step_run : dict)
    (specs : list AncestorSpec) (fmt_type : option string) : M dict :=
  derived_from <- get_derived_from_all file specs ;;
  ds <- dataset ;;
  lift (file_from_template file fmt otype step_run derived_from ds fmt_type).

(** [Accession.get_or_make_step_run]. *)
Definition get_or_make_step_run (lab_prefix run_name step_version name : string)
    : M dict :=
  t <- lift (py_index (get_tasks (analysis self) name) 0) ;;
  image <- lift (match docker_image (get_task (analysis self) t) with
                 | Some s => Ok s
                 | None => Raise (mkExn AttributeError
                                    "'NoneType' object has no attribute 'split'")
                 end) ;;
  docker_tag <- lift (py_index (split ":" image) 1) ;;
  let payload :=
    [("aliases", PList [PStr (lab_prefix ++ ":" ++ run_name ++ "-" ++ docker_tag)%string]);
     ("status", PStr "released");
     ("analysis_step_version", PStr step_version)] in
  let payload1 := dict_set payload (PROFILE_KEY self) (PStr "analysis_step_runs") in
  do_write (CPost payload1) (fun w => conn_post self w payload1).

(** What the [except] clause of [accession_step] does with an exception
    raised for one file. *)
Inductive recovery :=
| Skip
| Propagate.

Definition on_failure (e : exn) (file_params : FileParams) : recovery :=
  if str_contains "Conflict" (exn_str e) && possible_duplicate file_params then Skip
  else if str_contains "Missing all of the derived_from" (exn_str e) then Skip
  else Propagate.

(** The body of the [try] block of [accession_step]. *)
Definition accession_attempt (wdl_file : fid) (file_params : FileParams)
    (step_run : dict) : M dict :=
  obj <- make_file_obj (get_file (analysis self) wdl_file)
                       (file_format file_params)
                       (output_type file_params)
                       step_run
                       (derived_from_files file_params)
                       (file_format_type file_params) ;;
  accession_file obj (get_file (analysis self) wdl_file).

(** The [try] block with its handler: [None] is a file skipped by
    [continue]. *)
Definition try_accession (wdl_file : fid) (file_params : FileParams)
    (step_run : dict) : M (option dict) :=
  fun st =>
    match accession_attempt wdl_file file_params step_run st with
    | (Ok encode_file, st') => (Ok (Some encode_file), st')
    | (Raise e, st') =>
        match on_failure e file_params with
        | Skip => (Ok None, st')
        | Propagate => (Raise e, st')
        end
    end.

(** The quality-metric loop for one accessioned file. *)
Definition attach_quality_metrics (encode_file : dict) (wdl_file : fid)
    (file_params : FileParams) : M unit :=
  forM (quality_metrics file_params)
       (fun qc =>
          method <- lift (match assoc_str QC_MAP qc with
                          | Some m => Ok m
                          | None => Raise (mkExn KeyError ("'" ++ qc ++ "'")%string)
                          end) ;;
          let rec_id := dict_get encode_file "accession" in
          r <- do_read (CGet rec_id) (fun w => conn_get self w rec_id) ;;
          do_write (CQc method r wdl_file) (fun w => qc_method self method w r wdl_file)).

(** The body of the innermost loop of [accession_step]: the records
    accessioned so far are threaded through. *)
Definition accession_one (step_run : dict) (file_params : FileParams)
    (acc : list dict) (wdl_file : fid) : M (list dict) :=
  r <- try_accession wdl_file file_params step_run ;;
  match r with
  | None => ret acc
  | Some encode_file =>
      _ <- attach_quality_metrics encode_file wdl_file file_params ;;
      ret (acc ++ [encode_file])
  end.

(** [for x in l: acc = body(acc, x)]. *)
Fixpoint foldM {A B} (body : B -> A -> M B) (l : list A) (acc : B) : M B :=
  match l with
  | [] => ret acc
  | x :: rest => acc' <- body acc x ;; foldM body rest acc'
  end.

(** The files one entry of [wdl_files] selects among a task's outputs. *)
Definition files_with_key (t : tid) (file_params : FileParams) : list fid :=
  filter (has_filekey (analysis self) (filekey file_params))
         (output_files (get_task (analysis self) t)).

(** [Accession.accession_step]. *)
Definition accession_step (single_step_params : StepParams) : M (list dict) :=
  pi <- lift lab_pi ;;
  step_run <- get_or_make_step_run pi
                (dcc_step_run single_step_params)
                (dcc_step_version single_step_params)
                (wdl_task_name single_step_params) ;;
  foldM (fun acc t =>
           foldM (fun acc file_params =>
                    foldM (accession_one step_run file_params)
                          (files_with_key t file_params) acc)
                 (wdl_files single_step_params) acc)
        (get_tasks (analysis self) (wdl_task_name single_step_params)) [].

(** [Accession.accession_steps]. *)
Definition accession_steps (steps : list StepParams) : M unit :=
  forM steps (fun step => _ <- accession_step step ;; ret tt).

End Engine.

Section EngineReads.

Context {World : Type}.

Variable self : Accession World.

(** [Accession.raw_files_accessioned]: the loop stops at the first raw
    fastq the catalog has no record of. *)
Fixpoint raw_files_accessioned_go (fs : list fid) : M bool :=
  match fs with
  | [] => ret true
  | f :: rest =>
      bind (file_at_portal self (filename (get_file (analysis self) f))) (fun r =>
      if negb (record_truthy r) then ret false else raw_files_accessioned_go rest)
  end.

Definition raw_files_accessioned : M bool :=
  raw_files_accessioned_go (raw_fastqs (analysis self)).

End EngineReads.

(** * Vocabulary of the properties *)

(** ** The built graph *)

(** The locations of one input or output section, in the order
    [get_or_make_files] visits them, each with its role-key. *)
Definition section_pairs (section : dict) : list (string * string) :=
  flat_map (fun kv : string * pyval => map (pair (fst kv)) (extract_files (snd kv)))
           section.

Definition section_locations (section : dict) : list string :=
  map snd (section_pairs section).

(** Every location in the input or output tree of any call. *)
Definition referenced_locations (md : Metadata) : list string :=
  flat_map (fun kc : string * list Call =>
              flat_map (fun c => section_locations (call_section (call_outputs c))
                                 ++ section_locations (call_section (call_inputs c)))
                       (snd kc))
           (calls md).

Definition names (fs : list GSFile) : list string := map filename fs.

(** [j] is the first task of [ts] whose output tree holds [loc]. *)
Definition first_producer (ts : list Task) (loc : string) (j : tid) : Prop :=
  (exists tj, nth_error ts j = Some tj /\ In loc (section_locations (outputs tj))) /\
  (forall k tk, k < j -> nth_error ts k = Some tk ->
                ~ In loc (section_locations (outputs tk))).

(** The file list only grows, and a file keeps its place, location and
    producer while its role-keys and consumers accumulate. *)
Definition files_ext (fs fs' : list GSFile) : Prop :=
  forall i f, nth_error fs i = Some f ->
    exists f', nth_error fs' i = Some f' /\
               filename f' = filename f /\
               task f' = task f /\
               incl (used_by_tasks f) (used_by_tasks f') /\
               incl (filekeys f) (filekeys f').

Section GraphLoop.

Variable backend_md5sum : string -> result string.
Variable backend_size : string -> result Z.

(** The two loops of [get_or_make_files] as one loop over the
    (role-key, location) pairs. *)
Fixpoint gom_pairs (fs : list GSFile) (pairs : list (string * string))
    (t u : option tid) : result (list fid * list GSFile) :=
  match pairs with
  | [] => Ok ([], fs)
  | (key, name) :: rest =>
      rbind (get_or_make_file backend_md5sum backend_size fs key name t u) (fun r1 =>
      rbind (gom_pairs (snd r1) rest t u) (fun r2 =>
      Ok (fst r1 :: fst r2, snd r2)))
  end.

End GraphLoop.

(** What one call of [get_or_make_file] does to the file list. *)
Definition step_ok (fs : list GSFile) (key name : string) (t u : option tid)
    (i : fid) (fs' : list GSFile) : Prop :=
  files_ext fs fs' /\
  (exists f', nth_error fs' i = Some f' /\ filename f' = name /\
              In key (filekeys f') /\
              (forall x, u = Some x -> In x (used_by_tasks f'))) /\
  ((In name (names fs) /\ names fs' = names fs) \/
   (~ In name (names fs) /\ names fs' = names fs ++ [name])) /\
  (forall f', In f' fs' ->
     (exists f, In f fs /\ filename f' = filename f /\ task f' = task f) \/
     (~ In name (names fs) /\ filename f' = name /\ task f' = t)).

(** What a whole section does to the file list. *)
Definition loop_ok (fs : list GSFile) (pairs : list (string * string))
    (t u : option tid) (ixs : list fid) (fs' : list GSFile) : Prop :=
  files_ext fs fs' /\
  (NoDup (names fs) -> NoDup (names fs')) /\
  (forall loc, In loc (names fs') <-> In loc (names fs) \/ In loc (map snd pairs)) /\
  (forall key loc, In (key, loc) pairs ->
     exists i f', In i ixs /\ nth_error fs' i = Some f' /\ filename f' = loc /\
                  In key (filekeys f') /\
                  (forall x, u = Some x -> In x (used_by_tasks f'))) /\
  (forall f', In f' fs' ->
     (exists f, In f fs /\ filename f' = filename f /\ task f' = task f) \/
     (~ In (filename f') (names fs) /\ In (filename f') (map snd pairs) /\
      task f' = t)).

(** A pass of [make_tasks] keeps what [Task.__init__] read. *)
Definition same_desc (t t' : Task) : Prop :=
  task_name t' = task_name t /\ inputs t' = inputs t /\
  outputs t' = outputs t /\ docker_image t' = docker_image t.

(** [ts'] has a task for each task of [ts], at the same index and related
    by [P]. *)
Definition tasks_corr (P : nat -> Task -> Task -> Prop) (ts ts' : list Task) : Prop :=
  List.length ts' = List.length ts /\
  forall k t, nth_error ts k = Some t ->
              exists t', nth_error ts' k = Some t' /\ P k t t'.

(** The state of the file list while the output pass runs: the tasks
    [pre] are done, among all the tasks [all]. *)
Definition outputs_inv (all pre : list Task) (fs : list GSFile) : Prop :=
  NoDup (names fs) /\
  (forall f, In f fs ->
     exists j, task f = Some j /\ j < List.length pre /\
               first_producer all (filename f) j) /\
  (forall k tk loc, nth_error pre k = Some tk ->
     In loc (section_locations (outputs tk)) -> In loc (names fs)).

(** ** Lineage search *)

(** The tasks [search_up] recurses into from [t]: the distinct producers of
    [t]'s input files. *)
Definition producers (a : Analysis) (t : tid) : list tid :=
  flat_map (fun o : option tid => match o with Some p => [p] | None => [] end)
           (nodup opt_tid_dec
                  (map (fun x => task (get_file a x)) (input_files (get_task a t)))).

(** [t'] is [t] or an ancestor of [t] along producer edges. *)
Inductive up_reach (a : Analysis) : tid -> tid -> Prop :=
| up_here t : up_reach a t t
| up_step t f p t' :
    In f (input_files (get_task a t)) ->
    task (get_file a f) = Some p ->
    up_reach a p t' ->
    up_reach a t t'.

(** [t'] is [t] or a descendant of [t] along consumer edges. *)
Inductive down_reach (a : Analysis) : tid -> tid -> Prop :=
| down_here t : down_reach a t t
| down_step t f c t' :
    In f (output_files (get_task a t)) ->
    In c (used_by_tasks (get_file a f)) ->
    down_reach a c t' ->
    down_reach a t t'.

(** ** The accessioning engine *)

Section EngineVocabulary.

Context {World : Type}.

Variable self : Accession World.

(** The calls a computation added to the log. *)
Definition new_calls (st st' : State (World:=World)) : list call :=
  skipn (List.length (log st)) (log st').

(** A computation that leaves the world and the cache as they are and
    only adds reads to the log. *)
Definition reads_only (st st' : State (World:=World)) : Prop :=
  world st' = world st /\ new_files st' = new_files st /\
  exists evs, log st' = log st ++ evs /\ forallb is_read evs = true.

(** A computation that moves the state along the relation [R]. *)
Definition respects (R : State (World:=World) -> State (World:=World) -> Prop)
    {A} (m : M A) : Prop :=
  forall st, R st (snd (m st)).

(** The number of create or update calls in a log. *)
Definition mutations (l : list call) : nat := List.length (filter is_mutation l).

(** Two invocations of [accession_file] with the same candidate and file,
    one after the other. *)
Definition accession_file_twice (encode_file : dict) (gs_file : GSFile)
    : M (dict * dict) :=
  bind (accession_file self encode_file gs_file) (fun r1 =>
  bind (accession_file self encode_file gs_file) (fun r2 =>
  ret (r1, r2))).

(** The key under which the set of accession ids holds a record. *)
Definition accession_key (r : dict) : option hkey :=
  py_hash_key (dict_get r "accession").

(** The cache at [st] is a prefix of the cache at [st']. *)
Definition cache_grows (st st' : State (World:=World)) : Prop :=
  exists added, new_files st' = new_files st ++ added.

(** The files [accession_step] goes through, each with the entry of
    [wdl_files] that selected it, in the order of the three nested loops. *)
Definition step_work (step : StepParams) : list (FileParams * fid) :=
  flat_map (fun t =>
              flat_map (fun file_params =>
                          map (pair file_params) (files_with_key self t file_params))
                       (wdl_files step))
           (get_tasks (analysis self) (wdl_task_name step)).

(** The body of the loops on one item of [step_work]. *)
Definition accession_item (step_run : dict) (acc : list dict)
    (item : FileParams * fid) : M (list dict) :=
  accession_one self step_run (fst item) acc (snd item).

End EngineVocabulary.

(** ** Strings and trees *)

(** The character [c] occurs in [s]. *)
Fixpoint has_char (c : ascii) (s : string) : bool :=
  match s with
  | EmptyString => false
  | String d s' => Ascii.eqb c d || has_char c s'
  end.

(** The string [s] is a leaf of the tree [v]: [v] itself, or a leaf of an
    item of a list or of a value of a mapping. *)
Inductive leaf (s : string) : pyval -> Prop :=
| leaf_str : leaf s (PStr s)
| leaf_list l x : In x l -> leaf s x -> leaf s (PList l)
| leaf_dict d k x : In (k, x) d -> leaf s x -> leaf s (PDict d).

(** Induction on a JSON value, with the items of a list and the values of
    a mapping as smaller values. *)
Fixpoint pyval_nested_ind (P : pyval -> Prop)
    (HNone : P PNone) (HBool : forall b, P (PBool b)) (HInt : forall z, P (PInt z))
    (HStr : forall s, P (PStr s))
    (HList : forall l, Forall P l -> P (PList l))
    (HDict : forall d, Forall (fun kv : string * pyval => P (snd kv)) d -> P (PDict d))
    (v : pyval) {struct v} : P v :=
  match v with
  | PNone => HNone
  | PBool b => HBool b
  | PInt z => HInt z
  | PStr s => HStr s
  | PList l =>
      HList l ((fix go (l : list pyval) : Forall P l :=
                  match l with
                  | [] => Forall_nil P
                  | x :: r =>
                      Forall_cons x
                        (pyval_nested_ind P HNone HBool HInt HStr HList HDict x) (go r)
                  end) l)
  | PDict d =>
      HDict d ((fix go (d : list (string * pyval))
                  : Forall (fun kv : string * pyval => P (snd kv)) d :=
                  match d with
                  | [] => Forall_nil _
                  | kv :: r =>
                      Forall_cons kv
                        (pyval_nested_ind P HNone HBool HInt HStr HList HDict (snd kv))
                        (go r)
                  end) d)
  end.

(** ** The calls behind the built graph *)

(** One call of [get_or_make_file]: its arguments. *)
Record gom_call := mkGomCall {
  gom_key : string;
  gom_name : string;
  gom_task : option tid;
  gom_used_by : option tid
}.

(** The calls one section makes. *)
Definition section_calls (section : dict) (t u : option tid) : list gom_call :=
  map (fun p : string * string => mkGomCall (fst p) (snd p) t u) (section_pairs section).

(** The calls of the output pass of [make_tasks] over tasks with the
    output sections [secs], the first of them at index [i]. *)
Fixpoint output_calls (i : tid) (secs : list dict) : list gom_call :=
  match secs with
  | [] => []
  | s :: rest => section_calls s (Some i) None ++ output_calls (S i) rest
  end.

(** The calls of the input pass. *)
Fixpoint input_calls (i : tid) (secs : list dict) : list gom_call :=
  match secs with
  | [] => []
  | s :: rest => section_calls s None (Some i) ++ input_calls (S i) rest
  end.

(** All the calls [make_tasks] makes for tasks with these sections, in
    order. *)
Definition build_calls (ts : list Task) : list gom_call :=
  output_calls 0 (map outputs ts) ++ input_calls 0 (map inputs ts).

Section GraphHistory.

Variable backend_md5sum : string -> result string.
Variable backend_size : string -> result Z.

(** What the file [f] holds after the calls [h]: the content identity the
    backend gave for its location, each role-key and each consumer some
    call named it with, once, and the producer of the first call that
    named its location. *)
Definition file_of_calls (h : list gom_call) (f : GSFile) : Prop :=
  backend_md5sum (filename f) = Ok (md5sum f) /\
  backend_size (filename f) = Ok (size f) /\
  NoDup (filekeys f) /\
  NoDup (used_by_tasks f) /\
  (forall key, In key (filekeys f) <->
     exists o, In o h /\ gom_name o = filename f /\ gom_key o = key) /\
  (forall u, In u (used_by_tasks f) <->
     exists o, In o h /\ gom_name o = filename f /\ gom_used_by o = Some u) /\
  (exists h1 o h2, h = h1 ++ o :: h2 /\ gom_name o = filename f /\
                   gom_task o = task f /\
                   forall o', In o' h1 -> gom_name o' <> filename f).

(** The file list after the calls [h]. *)
Definition files_of_calls (h : list gom_call) (fs : list GSFile) : Prop :=
  NoDup (names fs) /\
  (forall f, In f fs -> file_of_calls h f) /\
  (forall o, In o h -> In (gom_name o) (names fs)).

End GraphHistory.

(** The index [i] holds a file at the location of the pair [p] that
    carries its role-key. *)
Definition file_at (fs : list GSFile) (i : fid) (p : string * string) : Prop :=
  exists f, nth_error fs i = Some f /\ filename f = snd p /\ In (fst p) (filekeys f).

(** The graph has an object for every index a task or a file holds. *)
Definition well_formed (a : Analysis) : Prop :=
  (forall t i, In t (tasks a) -> In i (input_files t) \/ In i (output_files t) ->
               i < List.length (files a)) /\
  (forall f k, In f (files a) -> task f = Some k \/ In k (used_by_tasks f) ->
               k < List.length (tasks a)).

(** The calls of the run metadata in the order [make_tasks] goes through
    them, each with its call key. *)
Definition call_entries (md : Metadata) : list (string * Call) :=
  flat_map (fun kc : string * list Call => map (pair (fst kc)) (snd kc)) (calls md).

(** The call entry has both keys [Task.__init__] indexes, [inputs] and
    [outputs]. *)
Definition has_sections (c : Call) : bool :=
  match call_inputs c, call_outputs c with
  | Some _, Some _ => true
  | _, _ => false
  end.

(** The task [t] is the one [Task.__init__] makes of the entry [e]. *)
Definition task_of_entry (t : Task) (e : string * Call) : Prop :=
  nth_error (split "." (fst e)) 1 = Some (task_name t) /\
  call_inputs (snd e) = Some (inputs t) /\
  call_outputs (snd e) = Some (outputs t) /\
  docker_image t = call_dockerImageUsed (snd e).

Section BackendAnswers.

Variable backend_md5sum : string -> result string.
Variable backend_size : string -> result Z.

(** The backend returns an md5sum and a size for the location. *)
Definition backend_answers (loc : string) : Prop :=
  (exists md5, backend_md5sum loc = Ok md5) /\ (exists sz, backend_size loc = Ok sz).

End BackendAnswers.

(** ** Ranked graphs *)

(** [rank] falls along every producer edge (from a task to the producer of
    one of its inputs), checked over the tasks of the graph. *)
Definition up_ranked (a : Analysis) (rank : tid -> nat) : bool :=
  forallb (fun t =>
             forallb (fun f => match task (get_file a f) with
                               | Some p => Nat.ltb (rank p) (rank t)
                               | None => true
                               end)
                     (input_files (get_task a t)))
          (seq 0 (List.length (tasks a))).

(** [rank] falls along every consumer edge (from a task to a consumer of
    one of its outputs), every consumer is a task of the graph and every
    task has an output file. *)
Definition down_ranked (a : Analysis) (rank : tid -> nat) : bool :=
  forallb (fun t =>
             match output_files (get_task a t) with
             | [] => false
             | outs =>
                 forallb (fun f => forallb (fun c => Nat.ltb (rank c) (rank t) && Nat.ltb c (List.length (tasks a)))
                                           (used_by_tasks (get_file a f)))
                         outs
             end)
          (seq 0 (List.length (tasks a))).

(** [g] is [f] or an input of the producer of [f], and so on upwards. *)
Inductive input_reach (a : Analysis) : fid -> fid -> Prop :=
| input_here f : input_reach a f f
| input_step f t g h :
    task (get_file a f) = Some t ->
    In g (input_files (get_task a t)) ->
    input_reach a g h ->
    input_reach a f h.

(** ** Views of the engine *)

Section EngineViews.

Context {World : Type}.

Variable self : Accession World.

(** A computation that leaves the cache as it is. *)
Definition cache_kept (st st' : State (World:=World)) : Prop :=
  new_files st' = new_files st.

(** What [file_at_portal] returns in the world [w]. *)
Definition portal_record (w : World) (name : string) : result (option dict) :=
  rbind (backend_md5sum self name) (fun md5 =>
  rbind (conn_search self w [("md5sum", md5); ("type", "File")]) (fun hits =>
  match hits with
  | hit :: _ => rbind (conn_get self w (dict_get hit "accession")) (fun r => Ok (Some r))
  | [] => Ok None
  end)).

End EngineViews.

(** * A run on a small pipeline

    A metadata document with five calls, a storage backend given by a
    table of md5sums and a catalog kept as a list of records, on which the
    model is run and the properties are instantiated. *)

Definition fx_md5_table : list (string * string) :=
  [("gs://b/in/r1.fq", "f00");
   ("gs://b/align/x.bam", "aaa");
   ("gs://b/align/dup1.bam", "ddd");
   ("gs://b/align/dup2.bam", "ddd");
   ("gs://b/merge/m.bam", "bbb");
   ("gs://b/dedup/y.bam", "ccc");
   ("gs://ref/GRCh38.fa", "eee")].

Definition fx_md5sum (name : string) : result string :=
  match assoc_str fx_md5_table name with
  | Some h => Ok h
  | None => Raise (mkExn HTTPError "404 Not Found")
  end.

Definition fx_size (name : string) : result Z := Ok (Z.of_nat (String.length name)).

(** [align] writes a bam and two duplicate-report files of equal content;
    [merge] lists the bam of [align] among its own outputs; [dedup] reads
    the three files of [align]; [report] writes no file. *)
Definition fx_metadata : Metadata := mkMetadata
  [("atac.align",
    [mkCall (Some [("fastqs", PList [PStr "gs://b/in/r1.fq"])])
            (Some [("bam", PStr "gs://b/align/x.bam");
                   ("dups", PList [PStr "gs://b/align/dup1.bam";
                                   PStr "gs://b/align/dup2.bam"])])
            (Some "encodedcc/atac:v1")]);
   ("atac.merge",
    [mkCall (Some [("bams", PList [PStr "gs://b/align/x.bam"])])
            (Some [("bam", PStr "gs://b/align/x.bam");
                   ("merged", PStr "gs://b/merge/m.bam")])
            (Some "encodedcc/atac:v1")]);
   ("atac.dedup",
    [mkCall (Some [("bam", PStr "gs://b/align/x.bam");
                   ("dups", PList [PStr "gs://b/align/dup1.bam";
                                   PStr "gs://b/align/dup2.bam"])])
            (Some [("nodup_bam", PStr "gs://b/dedup/y.bam")])
            (Some "encodedcc/atac:v1")]);
   ("atac.report",
    [mkCall (Some [("bam", PStr "gs://b/dedup/y.bam")])
            (Some [("report", PStr "done")])
            (Some "encodedcc/atac:v1")]);
   ("atac.read_genome_tsv",
    [mkCall (Some [])
            (Some [("genome", PDict [("ref_fa", PStr "gs://ref/GRCh38.fa")])])
            (Some "encodedcc/atac:v1")])].

(** The graph [make_tasks] builds from [fx_metadata]: files 0 to 6 are
    x.bam, dup1.bam, dup2.bam, m.bam, y.bam, GRCh38.fa and r1.fq; tasks 0 to
    4 are align, merge, dedup, report and read_genome_tsv. *)
Definition fx_analysis : Analysis :=
  Eval vm_compute in
    match make_tasks fx_md5sum fx_size fx_metadata with
    | Ok a => a
    | Raise _ => mkAnalysis [] []
    end.

(** The catalog: the records it holds, oldest first. *)
Definition catalog : Type := list dict.

Definition fx_search (w : catalog) (q : list (string * string)) : result (list dict) :=
  Ok (filter (fun r => forallb (fun kv : string * string =>
                                  String.eqb (fst kv) "type"
                                  || py_eq_str (snd kv) (dict_get r (fst kv))) q) w).

Definition fx_get (w : catalog) (rec_id : pyval) : result dict :=
  Ok (match rec_id with
      | PStr s => match find (fun r => py_eq_str s (dict_get r "accession")) w with
                  | Some r => r
                  | None => []
                  end
      | _ => []
      end).

Definition fx_accession (n : nat) : string :=
  ("ENCFF" ++ NilZero.string_of_int (Z.to_int (Z.of_nat n)))%string.

Definition fx_post (w : catalog) (payload : dict) : result dict * catalog :=
  let r := dict_set payload "accession" (PStr (fx_accession (List.length w))) in
  (Ok r, w ++ [r]).

Fixpoint fx_patch_go (w : catalog) (s : string) (payload : dict)
    : option (dict * catalog) :=
  match w with
  | [] => None
  | r :: rest =>
      if py_eq_str s (dict_get r "accession")
      then let r' := dict_update r payload in Some (r', r' :: rest)
      else match fx_patch_go rest s payload with
           | Some (r', rest') => Some (r', r :: rest')
           | None => None
           end
  end.

Definition fx_patch (w : catalog) (payload : dict) : result dict * catalog :=
  match dict_get payload "_enc_id" with
  | PStr s =>
      match fx_patch_go w s payload with
      | Some (r, w') => (Ok r, w')
      | None => (Raise (mkExn HTTPError "404 Not Found"), w)
      end
  | _ => (Raise (mkExn HTTPError "404 Not Found"), w)
  end.

Definition fx_self : Accession catalog :=
  mkAccession catalog fx_md5sum
    (fun w name => (Ok ("/tmp/" ++ last (split "/" name) EmptyString)%string, w))
    (fun w _ => (Ok tt, w))
    fx_search fx_get fx_post fx_patch
    "_enc_id" "_profile"
    (fun _ w _ _ => (Ok tt, w))
    "/labs/encode-processing-pipeline/" "U41HG007000" (PStr "/users/1/")
    50 fx_analysis.

(** A file record of the catalog. *)
Definition fx_record (acc md5 status : string) : dict :=
  [("accession", PStr acc); ("md5sum", PStr md5); ("status", PStr status);
   ("output_type", PStr "alignments"); ("dataset", PStr "/experiments/ENCSR000AAA/")].

Definition fx_state (w : catalog) (cache : list dict) : State :=
  mkState w cache [].

(** y.bam, the output of [dedup]. *)
Definition fx_ybam : GSFile := get_file fx_analysis 4.

Definition fx_xbam_location : string := "gs://b/align/x.bam".

(** The catalog holds x.bam as ENCFF001. *)
Definition fx_catalog_bam : catalog := [fx_record "ENCFF001" "aaa" "released"].

(** The catalog holds one record with the md5sum of dup1.bam and
    dup2.bam. *)
Definition fx_catalog_dups : catalog := [fx_record "ENCFF003" "ddd" "released"].

(** The catalog holds y.bam as ENCFF009. *)
Definition fx_catalog_ybam (status : string) : catalog :=
  [fx_record "ENCFF009" "ccc" status].

Definition fx_candidate : dict :=
  [("status", PStr "uploading"); ("md5sum", PStr "ccc")].

(** The record of the raw fastq r1.fq, on the catalog before the run. *)
Definition fx_fastq_record : dict :=
  [("accession", PStr "ENCFF000"); ("md5sum", PStr "f00"); ("status", PStr "released");
   ("dataset", PStr "/experiments/ENCSR000AAA/")].

(** The step that accessions the bam of [align], derived from the fastqs
    [align] read. *)
Definition fx_step_align : StepParams :=
  mkStepParams "align-step" "/analysis-step-versions/align-v1/" "align"
    [mkFileParams "bam" "bam" "unfiltered alignments"
       [mkAncestorSpec "align" "fastqs" None true] None false []].

(** The step that accessions the bam of [dedup], derived from the bam of
    [align]. *)
Definition fx_step_dedup : StepParams :=
  mkStepParams "dedup-step" "/analysis-step-versions/dedup-v1/" "dedup"
    [mkFileParams "nodup_bam" "bam" "alignments"
       [mkAncestorSpec "align" "bam" None false] None false ["samtools_flagstat"]].

(** The same step with the two duplicate reports of [align] as ancestors. *)
Definition fx_step_dups : StepParams :=
  mkStepParams "dedup-step" "/analysis-step-versions/dedup-v1/" "dedup"
    [mkFileParams "nodup_bam" "bam" "alignments"
       [mkAncestorSpec "align" "dups" None false] None false []].

(** A chain of two calls: [second] reads what [first] writes. *)
Definition fx_chain_metadata : Metadata := mkMetadata
  [("wf.first",
    [mkCall (Some [("fastqs", PList [PStr "gs://b/in/r1.fq"])])
            (Some [("out", PStr "gs://b/first/a.txt")]) None]);
   ("wf.second",
    [mkCall (Some [("in", PStr "gs://b/first/a.txt")])
            (Some [("out", PStr "gs://b/second/b.txt")]) None])].

Definition fx_chain : Analysis :=
  Eval vm_compute in
    match make_tasks (fun _ => Ok "0") (fun _ => Ok 0%Z) fx_chain_metadata with
    | Ok a => a
    | Raise _ => mkAnalysis [] []
    end.

(** A step for a task name the run has no task of. *)
Definition fx_step_unknown : StepParams :=
  mkStepParams "xcor-step" "/analysis-step-versions/xcor-v1/" "xcor" [].

(** An entry of [wdl_files] with a quality metric [QC_MAP] does not
    know. *)
Definition fx_params_unknown_metric : FileParams :=
  mkFileParams "nodup_bam" "bam" "alignments"
    [mkAncestorSpec "align" "bam" None false] None false ["ataqc"].

Definition fx_step_run : dict := [("@id", PStr "/analysis-step-runs/1/")].

(** * Properties *)

(** ** Locations referenced by the run metadata *)

(** Case analysis on the first step of a computation that returned. *)
Tactic Notation "rbind_case" hyp(H) "as" simple_intropattern(p) "eqn" ":" ident(E) :=
  match type of H with
  | rbind ?m _ = Ok _ => destruct m as [p|] eqn:E; simpl in H; [|discriminate H]
  end.

Lemma files_ext_refl fs : files_ext fs fs.
Proof.
  intros i f H. exists f. repeat split; auto using incl_refl.
Qed.

Lemma files_ext_trans fs1 fs2 fs3 :
  files_ext fs1 fs2 -> files_ext fs2 fs3 -> files_ext fs1 fs3.
Proof.
  intros H12 H23 i f H.
  destruct (H12 i f H) as (f2 & E2 & N2 & T2 & U2 & K2).
  destruct (H23 i f2 E2) as (f3 & E3 & N3 & T3 & U3 & K3).
  exists f3. repeat split; try congruence; eauto using incl_tran.
Qed.

Lemma mem_str_In s l : mem_str s l = true <-> In s l.
Proof.
  unfold mem_str. rewrite existsb_exists. split.
  - intros (x & Hx & E). apply String.eqb_eq in E. now subst.
  - intros H. exists s. split; auto. apply String.eqb_refl.
Qed.

Lemma mem_nat_In n l : mem_nat n l = true <-> In n l.
Proof.
  unfold mem_nat. rewrite existsb_exists. split.
  - intros (x & Hx & E). apply Nat.eqb_eq in E. now subst.
  - intros H. exists n. split; auto. apply Nat.eqb_refl.
Qed.

Lemma find_file_Some name fs i :
  find_file name fs = Some i ->
  exists f, nth_error fs i = Some f /\ filename f = name.
Proof.
  revert i. induction fs as [|f fs IH]; simpl; intros i H; [discriminate|].
  destruct (String.eqb name (filename f)) eqn:E.
  - inversion H; subst. exists f. split; auto.
    apply String.eqb_eq in E. now symmetry.
  - destruct (find_file name fs) as [j|]; simpl in H; [|discriminate].
    inversion H; subst. simpl. now apply IH.
Qed.

Lemma find_file_None name fs :
  find_file name fs = None -> ~ In name (names fs).
Proof.
  induction fs as [|f fs IH]; simpl; intros H; auto.
  destruct (String.eqb name (filename f)) eqn:E; [discriminate|].
  destruct (find_file name fs); simpl in H; [discriminate|].
  intros [H1|H1].
  - subst. rewrite String.eqb_refl in E. discriminate.
  - now apply IH.
Qed.

Lemma nth_error_update_at {A} (g : A -> A) l i j :
  nth_error (update_at i g l) j =
  if Nat.eqb i j then option_map g (nth_error l j) else nth_error l j.
Proof.
  revert i j. induction l as [|x l IH]; intros [|i] [|j]; simpl; auto.
  now destruct (Nat.eqb i j).
Qed.

Lemma names_update_at g i fs :
  (forall f, filename (g f) = filename f) ->
  names (update_at i g fs) = names fs.
Proof.
  intros Hg. revert i. induction fs as [|f fs IH]; intros [|i]; simpl; auto.
  - now rewrite Hg.
  - now rewrite IH.
Qed.

Lemma NoDup_names_index fs i j f g :
  NoDup (names fs) ->
  nth_error fs i = Some f -> nth_error fs j = Some g ->
  filename f = filename g -> i = j.
Proof.
  intros ND Hi Hj E.
  assert (Hi' : nth_error (names fs) i = Some (filename f))
    by (unfold names; now rewrite nth_error_map, Hi).
  assert (Hj' : nth_error (names fs) j = Some (filename f))
    by (unfold names; rewrite nth_error_map, Hj; simpl; congruence).
  eapply NoDup_nth_error; eauto.
  - apply nth_error_Some. congruence.
  - congruence.
Qed.

Lemma touch_file_ext key u f :
  filename (touch_file key u f) = filename f /\
  task (touch_file key u f) = task f /\
  incl (used_by_tasks f) (used_by_tasks (touch_file key u f)) /\
  incl (filekeys f) (filekeys (touch_file key u f)) /\
  In key (filekeys (touch_file key u f)) /\
  (forall x, u = Some x -> In x (used_by_tasks (touch_file key u f))).
Proof.
  unfold touch_file; simpl. repeat split.
  - destruct u as [x|]; [|apply incl_refl].
    destruct (mem_nat x (used_by_tasks f)); [apply incl_refl|apply incl_appl, incl_refl].
  - destruct (mem_str key (filekeys f)); [apply incl_refl|apply incl_appl, incl_refl].
  - destruct (mem_str key (filekeys f)) eqn:E.
    + now apply mem_str_In.
    + apply in_or_app. right. now left.
  - intros x ->. destruct (mem_nat x (used_by_tasks f)) eqn:E.
    + now apply mem_nat_In.
    + apply in_or_app. right. now left.
Qed.

Section GraphFacts.

Variable backend_md5sum : string -> result string.
Variable backend_size : string -> result Z.

Local Abbreviation gomf := (get_or_make_file backend_md5sum backend_size).
Local Abbreviation gomfs := (get_or_make_files backend_md5sum backend_size).
Local Abbreviation gomns := (get_or_make_names backend_md5sum backend_size).
Local Abbreviation gomp := (gom_pairs backend_md5sum backend_size).

Lemma get_or_make_file_spec fs key name t u i fs' :
  gomf fs key name t u = Ok (i, fs') -> step_ok fs key name t u i fs'.
Proof.
  unfold get_or_make_file, step_ok.
  destruct (find_file name fs) as [j|] eqn:F.
  - intros H. inversion H; subst i fs'; clear H.
    destruct (find_file_Some _ _ _ F) as (f0 & Hf0 & Nf0).
    destruct (touch_file_ext key u f0) as (T1 & T2 & T3 & T4 & T5 & T6).
    split; [|split; [|split]].
    + intros k f Hk. rewrite nth_error_update_at.
      destruct (Nat.eqb j k) eqn:E.
      * rewrite Hk. simpl.
        destruct (touch_file_ext key u f) as (U1 & U2 & U3 & U4 & _).
        exists (touch_file key u f). auto.
      * exists f. repeat split; auto using incl_refl.
    + exists (touch_file key u f0). rewrite nth_error_update_at, Nat.eqb_refl, Hf0.
      simpl. repeat split; auto; congruence.
    + left. split.
      * rewrite <- Nf0. apply in_map. eapply nth_error_In; eauto.
      * apply names_update_at. intros f. apply touch_file_ext.
    + intros f' Hf'. left.
      apply In_nth_error in Hf'. destruct Hf' as (k & Hk).
      rewrite nth_error_update_at in Hk.
      destruct (Nat.eqb j k).
      * destruct (nth_error fs k) as [f|] eqn:Ek; simpl in Hk; [|discriminate].
        inversion Hk; subst f'. exists f.
        destruct (touch_file_ext key u f) as (U1 & U2 & _).
        split; [eapply nth_error_In; eauto|]. auto.
      * exists f'. split; [eapply nth_error_In; eauto|]. auto.
  - destruct (backend_md5sum name) as [md5|]; simpl; [|discriminate].
    destruct (backend_size name) as [sz|]; simpl; [|discriminate].
    intros H. inversion H; subst i fs'; clear H.
    apply find_file_None in F.
    split; [|split; [|split]].
    + intros k f Hk. exists f. split.
      * rewrite nth_error_app1; auto. apply nth_error_Some. congruence.
      * repeat split; auto using incl_refl.
    + exists (new_GSFile key name md5 sz t u).
      rewrite nth_error_app2, Nat.sub_diag by lia. simpl.
      repeat split; auto.
      intros x ->. now left.
    + right. split; auto. unfold names. now rewrite map_app.
    + intros f' Hf'. apply in_app_or in Hf'. destruct Hf' as [Hf'|[Hf'|[]]].
      * left. exists f'. auto.
      * right. subst f'. simpl. auto.
Qed.

Lemma gom_pairs_app fs p1 p2 t u :
  gomp fs (p1 ++ p2) t u =
  rbind (gomp fs p1 t u) (fun r1 =>
  rbind (gomp (snd r1) p2 t u) (fun r2 =>
  Ok (fst r1 ++ fst r2, snd r2))).
Proof.
  revert fs. induction p1 as [|[key name] p1 IH]; intros fs; simpl.
  - destruct (gomp fs p2 t u) as [[ixs fs']|]; reflexivity.
  - destruct (gomf fs key name t u) as [[i fs1]|]; simpl; auto.
    rewrite IH. destruct (gomp fs1 p1 t u) as [[ixs1 fs2]|]; simpl; auto.
    destruct (gomp fs2 p2 t u) as [[ixs2 fs3]|]; reflexivity.
Qed.

Lemma get_or_make_names_pairs fs key ns t u :
  gomns fs key ns t u = gomp fs (map (pair key) ns) t u.
Proof.
  revert fs. induction ns as [|n ns IH]; intros fs; simpl; auto.
  destruct (gomf fs key n t u) as [[i fs1]|]; simpl; auto.
  rewrite IH. destruct (gomp fs1 _ t u) as [[ixs fs2]|]; reflexivity.
Qed.

Lemma get_or_make_files_pairs fs section t u :
  gomfs fs section t u = gomp fs (section_pairs section) t u.
Proof.
  revert fs. induction section as [|[key value] section IH]; intros fs; simpl; auto.
  rewrite gom_pairs_app, get_or_make_names_pairs. simpl.
  destruct (gomp fs _ t u) as [[ixs1 fs1]|]; simpl; auto.
  rewrite IH. destruct (gomp fs1 _ t u) as [[ixs2 fs2]|]; reflexivity.
Qed.

Lemma gom_pairs_spec pairs : forall fs t u ixs fs',
  gomp fs pairs t u = Ok (ixs, fs') -> loop_ok fs pairs t u ixs fs'.
Proof.
  induction pairs as [|[key name] pairs IH]; intros fs t u ixs fs' H; simpl in H.
  - inversion H; subst. unfold loop_ok. split; [|split; [|split; [|split]]].
    + apply files_ext_refl.
    + auto.
    + intros loc. simpl. tauto.
    + intros key loc [].
    + intros f' Hf'. left. exists f'. auto.
  - destruct (gomf fs key name t u) as [[i fs1]|] eqn:E1; simpl in H; [|discriminate].
    destruct (gomp fs1 pairs t u) as [[ixs2 fs2]|] eqn:E2; simpl in H; [|discriminate].
    inversion H; subst ixs fs'; clear H.
    apply get_or_make_file_spec in E1.
    destruct E1 as (X1 & (g & Xg & Xn & Xk & Xu) & X3 & X4).
    apply IH in E2. destruct E2 as (Y1 & Y2 & Y3 & Y4 & Y5).
    assert (Hsub : forall loc, In loc (names fs1) <-> In loc (names fs) \/ loc = name).
    { intros loc. destruct X3 as [[X31 X32]|[X31 X32]]; rewrite X32.
      - split; auto. intros [?|?]; subst; auto.
      - rewrite in_app_iff. simpl. intuition congruence. }
    unfold loop_ok. split; [|split; [|split; [|split]]].
    + eapply files_ext_trans; eauto.
    + intros ND. apply Y2. destruct X3 as [[X31 X32]|[X31 X32]]; rewrite X32; auto.
      apply NoDup_app; auto.
      * constructor; [intros []|constructor].
      * intros x Hx [Hx'|[]]. subst. contradiction.
    + intros loc. rewrite Y3, Hsub. simpl. split.
      * intros [[?|?]|?]; auto.
      * intros [?|[?|?]]; auto.
    + intros key' loc [Hp|Hp].
      * inversion Hp; subst key' loc.
        destruct (Y1 i g Xg) as (g' & G1 & G2 & G3 & G4 & G5).
        exists i, g'. split; [now left|].
        split; [auto|]. split; [congruence|]. split; [now apply G5|].
        intros x Hx. apply G4. auto.
      * destruct (Y4 key' loc Hp) as (i' & f' & Z1 & Z2 & Z3 & Z4 & Z5).
        exists i', f'. repeat split; auto. now right.
    + intros f' Hf'. destruct (Y5 f' Hf') as [(f1 & F1 & F2 & F3)|(F1 & F2 & F3)].
      * destruct (X4 f1 F1) as [(f0 & G1 & G2 & G3)|(G1 & G2 & G3)].
        -- left. exists f0. split; [auto|split; congruence].
        -- right. split; [congruence|]. split; [|congruence].
           simpl. left. congruence.
      * right. split; [|split; [simpl; auto|auto]].
        intros Hin. apply F1. apply Hsub. auto.
Qed.

Lemma tasks_corr_rev P ts ts' :
  tasks_corr P ts ts' ->
  forall k t', nth_error ts' k = Some t' ->
               exists t, nth_error ts k = Some t /\ P k t t'.
Proof.
  intros [L C] k t' H.
  assert (Hk : k < List.length ts)
    by (rewrite <- L; apply nth_error_Some; congruence).
  destruct (nth_error ts k) as [t|] eqn:E.
  - exists t. split; auto. destruct (C k t E) as (t'' & E' & HP). congruence.
  - apply nth_error_None in E. lia.
Qed.

Lemma in_section_locations section loc :
  In loc (section_locations section) <->
  exists key, In (key, loc) (section_pairs section).
Proof.
  unfold section_locations. rewrite in_map_iff. split.
  - intros ([k l] & E & H). simpl in E. subst. eauto.
  - intros (k & H). exists (k, loc). auto.
Qed.

Lemma make_output_files_spec ts : forall pre fs ts' fs',
  make_output_files backend_md5sum backend_size (List.length pre) ts fs = Ok (ts', fs') ->
  outputs_inv (pre ++ ts) pre fs ->
  files_ext fs fs' /\
  outputs_inv (pre ++ ts) (pre ++ ts) fs' /\
  (forall loc, In loc (names fs') ->
     In loc (names fs) \/ exists t, In t ts /\ In loc (section_locations (outputs t))) /\
  tasks_corr (fun _ t t' =>
                same_desc t t' /\ input_files t' = input_files t /\
                forall loc, In loc (section_locations (outputs t)) ->
                  exists i f, In i (output_files t') /\ nth_error fs' i = Some f /\
                              filename f = loc)
             ts ts'.
Proof.
  induction ts as [|t rest IH]; intros pre fs ts' fs' H Inv; simpl in H.
  - inversion H; subst. rewrite app_nil_r in *.
    split; [apply files_ext_refl|]. split; [auto|]. split; [auto|].
    split; auto. intros k t Hk. destruct k; discriminate.
  - rewrite get_or_make_files_pairs in H.
    rbind_case H as [out fs1] eqn:E1.
    rbind_case H as [rest' fs2] eqn:E2.
    inversion H; subst ts' fs'; clear H.
    apply gom_pairs_spec in E1. destruct E1 as (X1 & X2 & X3 & X4 & X5).
    destruct Inv as (I1 & I2 & I3).
    assert (Eall : (pre ++ [t]) ++ rest = pre ++ t :: rest)
      by (rewrite <- app_assoc; reflexivity).
    assert (Elen : List.length (pre ++ [t]) = S (List.length pre))
      by (rewrite length_app; simpl; lia).
    assert (Inv1 : outputs_inv ((pre ++ [t]) ++ rest) (pre ++ [t]) fs1).
    { unfold outputs_inv. rewrite Eall, Elen. split; [auto|]. split.
      - intros f Hf. destruct (X5 f Hf) as [(f0 & F1 & F2 & F3)|(F1 & F2 & F3)].
        + destruct (I2 f0 F1) as (j & J1 & J2 & J3).
          exists j. rewrite F2, F3. auto.
        + exists (List.length pre). split; [auto|]. split; [lia|]. split.
          * exists t. split.
            -- rewrite nth_error_app2, Nat.sub_diag by lia. reflexivity.
            -- exact F2.
          * intros k tk Hk Hn Hin. apply F1.
            rewrite nth_error_app1 in Hn by lia. eauto.
      - intros k tk loc Hn Hin. apply X3.
        destruct (Nat.lt_ge_cases k (List.length pre)) as [Hlt|Hge].
        + rewrite nth_error_app1 in Hn by lia. left. eauto.
        + rewrite nth_error_app2 in Hn by lia.
          destruct (k - List.length pre) as [|m] eqn:Em; simpl in Hn.
          * inversion Hn; subst tk. right. exact Hin.
          * destruct m; discriminate. }
    rewrite <- Elen in E2.
    destruct (IH (pre ++ [t]) fs1 rest' fs2 E2 Inv1) as (Y1 & Y2 & Y3 & Y4 & Y5).
    rewrite Eall in Y2.
    split; [eapply files_ext_trans; eauto|]. split; [auto|]. split.
    + intros loc Hloc. destruct (Y3 loc Hloc) as [Hl|(t0 & T1 & T2)].
      * apply X3 in Hl. destruct Hl as [Hl|Hl]; auto.
        right. exists t. split; [now left|exact Hl].
      * right. exists t0. split; [now right|exact T2].
    + split; [simpl; now rewrite Y4|].
      intros [|k] t0 Hk; simpl in Hk.
      * inversion Hk; subst t0. eexists. split; [reflexivity|]. simpl.
        split; [repeat split|]. split; [reflexivity|].
        intros loc Hloc. apply in_section_locations in Hloc. destruct Hloc as (key & Hp).
        destruct (X4 key loc Hp) as (i & f1 & Z1 & Z2 & Z3 & _).
        destruct (Y1 i f1 Z2) as (f2 & W1 & W2 & _).
        exists i, f2. split; [auto|]. split; [auto|]. congruence.
      * destruct (Y5 k t0 Hk) as (t' & T1 & T2). exists t'. split; auto.
Qed.

Lemma make_input_files_spec ts : forall i0 fs ts' fs',
  make_input_files backend_md5sum backend_size i0 ts fs = Ok (ts', fs') ->
  files_ext fs fs' /\
  (NoDup (names fs) -> NoDup (names fs')) /\
  (forall loc, In loc (names fs') <->
     In loc (names fs) \/ exists t, In t ts /\ In loc (section_locations (inputs t))) /\
  tasks_corr (fun k t t' =>
                same_desc t t' /\ output_files t' = output_files t /\
                forall loc, In loc (section_locations (inputs t)) ->
                  exists i f, In i (input_files t') /\ nth_error fs' i = Some f /\
                              filename f = loc /\ In (i0 + k) (used_by_tasks f))
             ts ts'.
Proof.
  induction ts as [|t rest IH]; intros i0 fs ts' fs' H; simpl in H.
  - inversion H; subst.
    split; [apply files_ext_refl|]. split; [auto|]. split.
    + intros loc. split; auto. intros [?|(t & [] & _)]; auto.
    + split; auto. intros k t Hk. destruct k; discriminate.
  - rewrite get_or_make_files_pairs in H.
    rbind_case H as [inp fs1] eqn:E1.
    rbind_case H as [rest' fs2] eqn:E2.
    inversion H; subst ts' fs'; clear H.
    apply gom_pairs_spec in E1. destruct E1 as (X1 & X2 & X3 & X4 & X5).
    destruct (IH (S i0) fs1 rest' fs2 E2) as (Y1 & Y2 & Y3 & Y4 & Y5).
    split; [eapply files_ext_trans; eauto|]. split; [auto|]. split.
    + intros loc. rewrite Y3, X3. fold (section_locations (inputs t)). split.
      * intros [[Hl|Hl]|(t0 & T1 & T2)]; auto.
        -- right. exists t. split; [now left|exact Hl].
        -- right. exists t0. split; [now right|exact T2].
      * intros [Hl|(t0 & [T1|T1] & T2)]; auto.
        -- subst t0. auto.
        -- right. exists t0. auto.
    + split; [simpl; now rewrite Y4|].
      intros [|k] t0 Hk; simpl in Hk.
      * inversion Hk; subst t0. eexists. split; [reflexivity|]. simpl.
        split; [repeat split|]. split; [reflexivity|].
        intros loc Hloc. apply in_section_locations in Hloc. destruct Hloc as (key & Hp).
        destruct (X4 key loc Hp) as (i & f1 & Z1 & Z2 & Z3 & _ & Z5).
        destruct (Y1 i f1 Z2) as (f2 & W1 & W2 & _ & W4 & _).
        exists i, f2. split; [auto|]. split; [auto|]. split; [congruence|].
        apply W4. rewrite Nat.add_0_r. apply Z5. reflexivity.
      * destruct (Y5 k t0 Hk) as (t' & T1 & T2 & T3 & T4). exists t'. split; auto.
        split; [auto|]. split; [auto|].
        intros loc Hloc. destruct (T4 loc Hloc) as (i & f & A1 & A2 & A3 & A4).
        exists i, f. repeat split; auto.
        now replace (i0 + S k) with (S i0 + k) by lia.
Qed.

Lemma make_task_list_descs key cs ts :
  make_task_list key cs = Ok ts ->
  map (fun t => (outputs t, inputs t)) ts =
  map (fun c => (call_section (call_outputs c), call_section (call_inputs c))) cs.
Proof.
  revert ts. induction cs as [|c cs IH]; intros ts H; simpl in H.
  - inversion H. reflexivity.
  - rbind_case H as t eqn:E1. rbind_case H as ts1 eqn:E2.
    inversion H; subst ts. simpl. rewrite (IH ts1 eq_refl).
    unfold make_task in E1. rbind_case E1 as name eqn:E3.
    destruct (call_inputs c) as [i|]; [|discriminate E1].
    destruct (call_outputs c) as [o|]; [|discriminate E1].
    inversion E1. reflexivity.
Qed.

Lemma make_all_tasks_descs cl ts :
  make_all_tasks cl = Ok ts ->
  map (fun t => (outputs t, inputs t)) ts =
  flat_map (fun kc : string * list Call =>
              map (fun c => (call_section (call_outputs c),
                             call_section (call_inputs c))) (snd kc)) cl.
Proof.
  revert ts. induction cl as [|[key cs] cl IH]; intros ts H; simpl in H.
  - inversion H. reflexivity.
  - rbind_case H as ts1 eqn:E1. rbind_case H as ts2 eqn:E2.
    inversion H; subst ts. simpl.
    rewrite map_app, (IH ts2 eq_refl), (make_task_list_descs _ _ _ E1). reflexivity.
Qed.

Lemma make_all_tasks_locations md ts loc :
  make_all_tasks (calls md) = Ok ts ->
  In loc (referenced_locations md) <->
  exists t, In t ts /\
            (In loc (section_locations (outputs t)) \/
             In loc (section_locations (inputs t))).
Proof.
  intros H. apply make_all_tasks_descs in H.
  unfold referenced_locations. rewrite in_flat_map. split.
  - intros ([key cs] & Hkc & Hloc). simpl in Hloc.
    apply in_flat_map in Hloc. destruct Hloc as (c & Hc & Hloc).
    assert (Hd : In (call_section (call_outputs c), call_section (call_inputs c))
                    (map (fun t => (outputs t, inputs t)) ts)).
    { rewrite H. apply in_flat_map. exists (key, cs). split; auto.
      simpl. apply in_map_iff. eauto. }
    apply in_map_iff in Hd. destruct Hd as (t & Et & Ht).
    inversion Et as [[Eo Ei]]. exists t. split; auto.
    rewrite Eo, Ei. apply in_app_or in Hloc. tauto.
  - intros (t & Ht & Hloc).
    assert (Hd : In (outputs t, inputs t)
                    (map (fun t => (outputs t, inputs t)) ts))
      by (apply in_map_iff; eauto).
    rewrite H in Hd. apply in_flat_map in Hd. destruct Hd as ([key cs] & Hkc & Hd).
    simpl in Hd. apply in_map_iff in Hd. destruct Hd as (c & Ec & Hc).
    inversion Ec as [[Eo Ei]]. exists (key, cs). split; auto.
    simpl. apply in_flat_map. exists c. split; auto.
    rewrite Eo, Ei. apply in_or_app. tauto.
Qed.

(** The three loops of [make_tasks], with what each leaves behind. *)
Lemma make_tasks_passes md a :
  make_tasks backend_md5sum backend_size md = Ok a ->
  exists ts0 ts1 fs1,
    make_all_tasks (calls md) = Ok ts0 /\
    make_output_files backend_md5sum backend_size 0 ts0 [] = Ok (ts1, fs1) /\
    make_input_files backend_md5sum backend_size 0 ts1 fs1 = Ok (tasks a, files a).
Proof.
  unfold make_tasks. intros H.
  rbind_case H as ts0 eqn:E0. rbind_case H as [ts1 fs1] eqn:E1.
  rbind_case H as [ts2 fs2] eqn:E2. inversion H; subst a. simpl.
  exists ts0, ts1, fs1. auto.
Qed.

Lemma outputs_inv_nil ts : outputs_inv ([] ++ ts) [] [].
Proof.
  split; [constructor|]. split.
  - intros f [].
  - intros [|k] tk loc Hk; discriminate.
Qed.

End GraphFacts.

(** ** The built graph *)

Section GraphClaims.

Variable backend_md5sum : string -> result string.
Variable backend_size : string -> result Z.

(** C1. Once [make_tasks] has built the graph, the file list holds
    exactly one [GSFile] per distinct location: no two entries share a
    location, a location has an entry exactly when some call's input or
    output tree refers to it, and so there are as many entries as
    distinct referenced locations. *)
Theorem make_tasks_one_file_per_location md a :
  make_tasks backend_md5sum backend_size md = Ok a ->
  NoDup (map filename (files a)) /\
  (forall loc, In loc (map filename (files a)) <-> In loc (referenced_locations md)) /\
  List.length (files a) = List.length (nodup string_dec (referenced_locations md)).
Proof.
  intros H. apply make_tasks_passes in H.
  destruct H as (ts0 & ts1 & fs1 & E0 & E1 & E2).
  pose proof (make_output_files_spec backend_md5sum backend_size ts0 [] [] ts1 fs1 E1
                (outputs_inv_nil ts0)) as (_ & (N1 & _ & C1) & S1 & T1).
  pose proof (make_input_files_spec backend_md5sum backend_size ts1 0 fs1 _ _ E2)
    as (_ & N2 & S2 & _).
  fold (names (files a)).
  assert (ND : NoDup (names (files a))) by auto.
  assert (EQ : forall loc, In loc (names (files a)) <-> In loc (referenced_locations md)).
  { intros loc. rewrite S2, (make_all_tasks_locations backend_md5sum backend_size md ts0 loc E0). split.
    - intros [Hl|(t1 & Ht1 & Hl)].
      + destruct (S1 loc Hl) as [[]|(t & Ht & Ho)]. eauto.
      + apply In_nth_error in Ht1. destruct Ht1 as (k & Hk).
        destruct (tasks_corr_rev _ _ _ T1 k t1 Hk) as (t0 & Hk0 & (_ & Ei & _) & _).
        exists t0. split; [eapply nth_error_In; eauto|]. right. congruence.
    - intros (t0 & Ht0 & [Ho|Hi]).
      + left. apply In_nth_error in Ht0. destruct Ht0 as (k & Hk).
        simpl in C1. eauto.
      + right. apply In_nth_error in Ht0. destruct Ht0 as (k & Hk).
        destruct T1 as (_ & T1). destruct (T1 k t0 Hk) as (t1 & Hk1 & (_ & Ei & _) & _).
        exists t1. split; [eapply nth_error_In; eauto|]. congruence. }
  split; [auto|]. split; [auto|].
  unfold names in *. rewrite <- (length_map filename (files a)).
  apply Permutation_length, NoDup_Permutation; auto using NoDup_nodup.
  intros loc. rewrite nodup_In. apply EQ.
Qed.

(** C2. A location in the output tree of task [A] and in the input tree
    of task [B] has a single file in the built graph; that file is in
    [A]'s output list and in [B]'s input list, [B] is among its
    consumers, and its producer is the first task, in build order, whose
    output tree holds the location: [A] itself when no earlier task does. *)
Theorem make_tasks_shared_file md a iA tA iB tB loc :
  make_tasks backend_md5sum backend_size md = Ok a ->
  nth_error (tasks a) iA = Some tA -> In loc (section_locations (outputs tA)) ->
  nth_error (tasks a) iB = Some tB -> In loc (section_locations (inputs tB)) ->
  exists i f j,
    nth_error (files a) i = Some f /\ filename f = loc /\
    (forall i' f', nth_error (files a) i' = Some f' -> filename f' = loc -> i' = i) /\
    In i (output_files tA) /\ In i (input_files tB) /\
    In iB (used_by_tasks f) /\
    task f = Some j /\ first_producer (tasks a) loc j /\ j <= iA /\
    ((forall k tk, k < iA -> nth_error (tasks a) k = Some tk ->
                   ~ In loc (section_locations (outputs tk))) -> j = iA).
Proof.
  intros H HA LA HB LB. apply make_tasks_passes in H.
  destruct H as (ts0 & ts1 & fs1 & E0 & E1 & E2).
  pose proof (make_output_files_spec backend_md5sum backend_size ts0 [] [] ts1 fs1 E1
                (outputs_inv_nil ts0)) as (_ & (N1 & P1 & _) & _ & T1).
  pose proof (make_input_files_spec backend_md5sum backend_size ts1 0 fs1 _ _ E2)
    as (X2 & N2 & _ & T2).
  simpl in P1.
  (* the descriptor trees of a task are those of the task it was made from *)
  assert (Hout : forall k t2, nth_error (tasks a) k = Some t2 ->
            exists t0, nth_error ts0 k = Some t0 /\ outputs t0 = outputs t2).
  { intros k t2 Hk.
    destruct (tasks_corr_rev _ _ _ T2 k t2 Hk) as (t1 & Hk1 & (_ & _ & Eo & _) & _).
    destruct (tasks_corr_rev _ _ _ T1 k t1 Hk1) as (t0 & Hk0 & (_ & _ & Eo0 & _) & _).
    exists t0. split; auto. congruence. }
  assert (Hout' : forall k t0, nth_error ts0 k = Some t0 ->
            exists t2, nth_error (tasks a) k = Some t2 /\ outputs t0 = outputs t2).
  { intros k t0 Hk. destruct T1 as (_ & T1). destruct T2 as (_ & T2).
    destruct (T1 k t0 Hk) as (t1 & Hk1 & (_ & _ & Eo & _) & _).
    destruct (T2 k t1 Hk1) as (t2 & Hk2 & (_ & _ & Eo2 & _) & _).
    exists t2. split; auto. congruence. }
  (* the file made for [A]'s output *)
  destruct (tasks_corr_rev _ _ _ T2 iA tA HA) as (tA1 & HA1 & (_ & _ & EoA & _) & EofA & _).
  destruct (tasks_corr_rev _ _ _ T1 iA tA1 HA1) as (tA0 & HA0 & (_ & _ & EoA0 & _) & _ & OA).
  destruct (OA loc) as (i & f1 & Ii & Fi & Ni); [congruence|].
  destruct (P1 f1 (nth_error_In _ _ Fi)) as (j & Tj & _ & (tj & Hj & Lj) & Fj).
  destruct (X2 i f1 Fi) as (f & Hf & Nf & Tf & _).
  (* the file linked to [B]'s input *)
  destruct (tasks_corr_rev _ _ _ T2 iB tB HB) as (tB1 & HB1 & (_ & EiB & _) & _ & IB).
  destruct (IB loc) as (i' & f' & Ii' & Fi' & Ni' & Ui'); [congruence|].
  assert (Ei : i' = i).
  { apply (NoDup_names_index (files a) i' i f' f); auto. congruence. }
  subst i'. assert (f' = f) by congruence. subst f'.
  assert (FP : first_producer (tasks a) loc j).
  { split.
    - destruct (Hout' j tj Hj) as (t2 & Hk2 & Eo). exists t2. split; auto.
      rewrite <- Eo. congruence.
    - intros k tk Hlt Hk. destruct (Hout k tk Hk) as (t0 & Hk0 & Eo).
      rewrite <- Eo. rewrite Ni in Fj. eauto. }
  assert (Hle : j <= iA).
  { destruct (Nat.le_gt_cases j iA) as [?|Hgt]; auto.
    exfalso. destruct FP as (_ & FP). exact (FP iA tA Hgt HA LA). }
  exists i, f, j.
  split; [exact Hf|]. split; [congruence|]. split.
  { intros i2 f2 H2 E2'.
    apply (NoDup_names_index (files a) i2 i f2 f); auto. congruence. }
  split; [rewrite EofA; exact Ii|]. split; [exact Ii'|]. split; [exact Ui'|].
  split; [congruence|]. split; [exact FP|]. split; [exact Hle|].
  intros Hfirst. destruct (Nat.eq_dec j iA) as [?|Hne]; auto.
  exfalso. destruct FP as ((t2 & Hk2 & L2) & _).
  apply (Hfirst j t2); auto. lia.
Qed.

End GraphClaims.

(** ** Lineage search *)

Lemma yielded_gen_seq {A} (g1 g2 : gen A) y :
  In y (yielded (gen_seq g1 g2)) -> In y (yielded g1) \/ In y (yielded g2).
Proof.
  unfold gen_seq. destruct (raised g1); simpl; auto.
  intros H. apply in_app_or in H. exact H.
Qed.

Lemma yielded_gen_for {A B} (l : list A) (body : A -> gen B) y :
  In y (yielded (gen_for l body)) -> exists x, In x l /\ In y (yielded (body x)).
Proof.
  induction l as [|x l IH]; simpl; intros H; [contradiction|].
  apply yielded_gen_seq in H. destruct H as [H|H].
  - exists x. auto.
  - destruct (IH H) as (x' & H1 & H2). exists x'. auto.
Qed.

Lemma raised_gen_for {A B} (l : list A) (body : A -> gen B) x :
  In x l -> raised (body x) <> None -> raised (gen_for l body) <> None.
Proof.
  induction l as [|x' l IH]; simpl; intros H R; [contradiction|].
  unfold gen_seq. destruct (raised (body x')) eqn:E.
  - rewrite E. discriminate.
  - simpl. destruct H as [H|H].
    + subst x'. contradiction.
    + now apply IH.
Qed.

Lemma gen_seq_yield_nil {A} (g : gen A) : gen_seq (gen_yield []) g = g.
Proof. destruct g. reflexivity. Qed.

Lemma gen_for_options {A B} (l : list (option A)) (body : A -> gen B) :
  gen_for l (fun o => match o with Some x => body x | None => gen_yield [] end) =
  gen_for (flat_map (fun o : option A => match o with Some p => [p] | None => [] end) l)
          body.
Proof.
  induction l as [|[x|] l IH]; simpl; auto.
  - now rewrite IH.
  - now rewrite gen_seq_yield_nil.
Qed.

Lemma in_producers a t p :
  In p (producers a t) <->
  exists f, In f (input_files (get_task a t)) /\ task (get_file a f) = Some p.
Proof.
  unfold producers. rewrite in_flat_map. split.
  - intros ([q|] & Hq & Hp); simpl in Hp; [|contradiction].
    destruct Hp as [->|[]]. apply nodup_In, in_map_iff in Hq.
    destruct Hq as (f & E & Hf). eauto.
  - intros (f & Hf & E). exists (Some p). split; [|now left].
    apply nodup_In, in_map_iff. eauto.
Qed.

Lemma NoDup_flat_somes {A} (l : list (option A)) :
  NoDup l ->
  NoDup (flat_map (fun o : option A => match o with Some p => [p] | None => [] end) l).
Proof.
  induction 1 as [|[x|] l Hn ND IH]; simpl; auto; [constructor|].
  constructor; auto. intros Hin. apply Hn.
  apply in_flat_map in Hin. destruct Hin as ([y|] & Hy & Hx); simpl in Hx.
  - destruct Hx as [->|[]]. exact Hy.
  - contradiction.
Qed.

Lemma in_fold_left_app {A} (ls : list (list A)) (l : list A) x :
  In x (fold_left (@app A) ls l) <-> In x l \/ exists l', In l' ls /\ In x l'.
Proof.
  revert l. induction ls as [|l1 ls IH]; intros l; simpl.
  - split; auto. intros [H|(l' & [] & _)]. exact H.
  - rewrite IH, in_app_iff. split.
    + intros [[H|H]|(l' & H1 & H2)]; eauto.
    + intros [H|(l' & [H1|H1] & H2)]; subst; eauto.
Qed.

Lemma search_up_sound a depth : forall t name key via f,
  In f (yielded (search_up a depth t name key via)) ->
  In key (filekeys (get_file a f)) /\
  exists t', up_reach a t t' /\ task_name (get_task a t') = name /\
             In f (if via then input_files (get_task a t')
                   else output_files (get_task a t')).
Proof.
  induction depth as [|d IH]; intros t name key via f H; simpl in H; [contradiction|].
  apply in_app_or in H. destruct H as [H|H].
  - destruct (String.eqb name (task_name (get_task a t))) eqn:E;
      [|contradiction].
    apply filter_In in H. destruct H as (Hin & Hk).
    split; [now apply mem_str_In|].
    exists t. split; [constructor|]. split; auto.
    apply String.eqb_eq in E. now symmetry.
  - apply yielded_gen_for in H. destruct H as ([p|] & Hp & Hy); [|contradiction].
    apply nodup_In, in_map_iff in Hp. destruct Hp as (g & Eg & Hg).
    destruct (IH p name key via f Hy) as (K & t' & R & N & I).
    split; auto. exists t'. split; auto. econstructor; eauto.
Qed.

Lemma search_down_sound a depth : forall t name key f,
  In f (yielded (search_down a depth t name key)) ->
  In key (filekeys (get_file a f)) /\
  exists t', down_reach a t t' /\ task_name (get_task a t') = name /\
             In f (output_files (get_task a t')).
Proof.
  induction depth as [|d IH]; intros t name key f H; simpl in H; [contradiction|].
  apply in_app_or in H. destruct H as [H|H].
  - destruct (String.eqb name (task_name (get_task a t))) eqn:E;
      [|contradiction].
    apply filter_In in H. destruct H as (Hin & Hk).
    split; [now apply mem_str_In|].
    exists t. split; [constructor|]. split; auto.
    apply String.eqb_eq in E. now symmetry.
  - destruct (output_files (get_task a t)) as [|g gs] eqn:Eo; simpl in H; [contradiction|].
    apply yielded_gen_for in H. destruct H as (c & Hc & Hy).
    apply nodup_In, in_fold_left_app in Hc.
    destruct (IH c name key f Hy) as (K & t' & R & N & I).
    split; auto. exists t'. split; auto.
    destruct Hc as [Hc|(l' & Hl' & Hc)].
    + apply (down_step a t g c t'); auto. rewrite Eo. now left.
    + apply in_map_iff in Hl'. destruct Hl' as (g' & <- & Hg').
      apply (down_step a t g' c t'); auto. rewrite Eo. now right.
Qed.

(** C8. Every file [search_up] or [search_down] yields carries the
    role-key asked for and is an output (an input, with [via_inputs]) of a
    task of the target name reached along producer (consumer) edges.
    [search_up] first yields the files of the current task when its name
    matches, then searches from each distinct producer of the task's input
    files once; an input with no producer starts no search. *)
Theorem search_yields_role_key a depth t name key :
  (forall via f,
     In f (yielded (search_up a depth t name key via)) ->
     In key (filekeys (get_file a f)) /\
     exists t', up_reach a t t' /\ task_name (get_task a t') = name /\
                In f (if via then input_files (get_task a t')
                      else output_files (get_task a t'))) /\
  (forall f,
     In f (yielded (search_down a depth t name key)) ->
     In key (filekeys (get_file a f)) /\
     exists t', down_reach a t t' /\ task_name (get_task a t') = name /\
                In f (output_files (get_task a t'))) /\
  (forall via,
     search_up a (S depth) t name key via =
     gen_seq
       (gen_yield
          (if String.eqb name (task_name (get_task a t))
           then filter (fun f => mem_str key (filekeys (get_file a f)))
                       (if via then input_files (get_task a t)
                        else output_files (get_task a t))
           else []))
       (gen_for (producers a t) (fun p => search_up a depth p name key via))) /\
  NoDup (producers a t) /\
  (forall p, In p (producers a t) <->
             exists f, In f (input_files (get_task a t)) /\
                       task (get_file a f) = Some p).
Proof.
  split; [intros via f; apply search_up_sound|].
  split; [intros f; apply search_down_sound|].
  split; [|split].
  - intros via. simpl. unfold producers. now rewrite <- gen_for_options.
  - apply NoDup_flat_somes, NoDup_nodup.
  - apply in_producers.
Qed.

(** C9. [search_down] on a task with no output files raises the
    [TypeError] of [reduce] on an empty sequence and yields nothing; and a
    search that can reach such a task along consumer edges never ends
    normally, however deep the interpreter lets it recurse. *)
Theorem search_down_empty_outputs_raises a t u name key :
  output_files (get_task a u) = [] ->
  (forall d, search_down a (S d) u name key = gen_raise reduce_empty) /\
  (down_reach a t u -> forall depth, raised (search_down a depth t name key) <> None).
Proof.
  intros Hu. split.
  - intros d. simpl. rewrite Hu. simpl.
    now destruct (String.eqb name (task_name (get_task a u))).
  - induction 1 as [t|t f c t' Hf Hc R IH]; intros [|d]; simpl; try discriminate.
    + rewrite Hu. simpl. discriminate.
    + destruct (output_files (get_task a t)) as [|g gs] eqn:Eo; [contradiction|].
      simpl. apply (raised_gen_for _ _ c).
      * apply nodup_In, in_fold_left_app. destruct Hf as [->|Hf]; auto.
        right. exists (used_by_tasks (get_file a f)). split; auto.
        apply in_map_iff. eauto.
      * apply IH. exact Hu.
Qed.

(** ** Sets of accession ids *)

Lemma hkey_eqb_eq x y : hkey_eqb x y = true <-> x = y.
Proof.
  destruct x, y; simpl; split; intros H; try discriminate; try reflexivity.
  - apply Z.eqb_eq in H. now subst.
  - inversion H. apply Z.eqb_refl.
  - apply String.eqb_eq in H. now subst.
  - inversion H. apply String.eqb_refl.
Qed.

Lemma existsb_hkey k seen : existsb (hkey_eqb k) seen = true <-> In k seen.
Proof.
  rewrite existsb_exists. split.
  - intros (x & Hx & E). apply hkey_eqb_eq in E. now subst.
  - intros H. exists k. split; auto. now apply hkey_eqb_eq.
Qed.

Lemma py_set_go_spec l : forall seen ids,
  py_set_go seen l = Ok ids ->
  (forall v, In v ids ->
     In v l /\ exists k, py_hash_key v = Some k /\ ~ In k seen) /\
  NoDup (map py_hash_key ids) /\
  (forall v, In v l ->
     exists k, py_hash_key v = Some k /\
               (In k seen \/ exists v', In v' ids /\ py_hash_key v' = Some k)).
Proof.
  induction l as [|v l IH]; intros seen ids H; simpl in H.
  - inversion H; subst. split; [intros v []|]. split; [constructor|intros v []].
  - destruct (py_hash_key v) as [k|] eqn:Ek; [|discriminate H].
    destruct (existsb (hkey_eqb k) seen) eqn:Es.
    + apply existsb_hkey in Es. destruct (IH seen ids H) as (I1 & I2 & I3).
      split; [|split; [exact I2|]].
      * intros x Hx. destruct (I1 x Hx) as (Hin & Hk). split; [now right|exact Hk].
      * intros x [->|Hx]; [eauto|]. apply I3, Hx.
    + rbind_case H as r eqn:Er. inversion H; subst ids; clear H.
      assert (Hns : ~ In k seen).
      { intros Hin. apply existsb_hkey in Hin. congruence. }
      destruct (IH (k :: seen) r Er) as (I1 & I2 & I3).
      split; [|split].
      * intros x [->|Hx]; [split; [now left|eauto]|].
        destruct (I1 x Hx) as (Hin & k' & Hk' & Hn). split; [now right|].
        exists k'. split; auto. intros Hs. apply Hn. now right.
      * simpl. constructor; auto. rewrite Ek. intros Hin.
        apply in_map_iff in Hin. destruct Hin as (x & Ex & Hx).
        destruct (I1 x Hx) as (_ & k' & Hk' & Hn). apply Hn. left. congruence.
      * intros x [->|Hx].
        -- exists k. split; auto. right. exists x. split; [now left|auto].
        -- destruct (I3 x Hx) as (k' & Hk' & [[->|Hs]|(x' & Hx' & Ex')]).
           ++ exists k'. split; auto. right. exists v. split; [now left|auto].
           ++ exists k'. auto.
           ++ exists k'. split; auto. right. exists x'. split; [now right|auto].
Qed.

(** [set(l)] raises only the [TypeError] of an unhashable member. *)
Lemma py_set_go_raises l : forall seen e,
  py_set_go seen l = Raise e -> exists v, e = unhashable v.
Proof.
  induction l as [|v l IH]; intros seen e H; simpl in H; [discriminate H|].
  destruct (py_hash_key v) as [k|].
  - destruct (existsb (hkey_eqb k) seen); [eauto|].
    destruct (py_set_go (k :: seen) l) as [r|e'] eqn:E; simpl in H; [discriminate H|].
    inversion H; subst e'. eauto.
  - inversion H. eauto.
Qed.

Lemma py_set_spec l ids :
  py_set l = Ok ids ->
  incl ids l /\
  NoDup (map py_hash_key ids) /\
  (forall v, In v l -> exists v', In v' ids /\ py_hash_key v' = py_hash_key v).
Proof.
  intros H. destruct (py_set_go_spec l [] ids H) as (I1 & I2 & I3).
  split; [|split; [exact I2|]].
  - intros v Hv. apply I1, Hv.
  - intros v Hv. destruct (I3 v Hv) as (k & Hk & [[]|(v' & Hv' & Ek)]).
    exists v'. split; auto. congruence.
Qed.

(** A list without repetition is no longer than a list that holds, for
    each of its items, a partner that determines the item. *)
Lemma NoDup_partner_length {A B} (P : B -> A -> Prop) (k : list A) : forall l : list B,
  NoDup k ->
  (forall x, In x k -> exists y, In y l /\ P y x) ->
  (forall y x x', P y x -> P y x' -> x = x') ->
  List.length k <= List.length l.
Proof.
  induction k as [|x k IH]; intros l ND Hex Hfun; simpl; [lia|].
  inversion ND as [|? ? Hx ND']; subst.
  destruct (Hex x (or_introl eq_refl)) as (y & Hy & Pyx).
  apply in_split in Hy. destruct Hy as (l1 & l2 & ->).
  rewrite length_app. simpl.
  assert (Hle : List.length k <= List.length (l1 ++ l2)).
  { apply IH; auto. intros x' Hx'.
    destruct (Hex x' (or_intror Hx')) as (y' & Hy' & Py').
    exists y'. split; auto.
    apply in_elt_inv in Hy'. destruct Hy' as [E|Hy']; auto.
    exfalso. apply Hx. subst y'. now rewrite (Hfun y x x' Pyx Py'). }
  rewrite length_app in Hle. lia.
Qed.

Lemma length_append (s t : string) :
  String.length (s ++ t)%string = String.length s + String.length t.
Proof. induction s as [|c s IH]; simpl; auto. Qed.

Lemma append_inj_r (s1 s2 t : string) :
  (s1 ++ t)%string = (s2 ++ t)%string -> s1 = s2.
Proof.
  revert s2. induction s1 as [|c s1 IH]; intros [|d s2] H; simpl in H; auto.
  - exfalso. assert (L := f_equal String.length H).
    simpl in L. rewrite length_append in L. lia.
  - exfalso. assert (L := f_equal String.length H).
    simpl in L. rewrite length_append in L. lia.
  - inversion H; subst. f_equal. now apply IH.
Qed.

Lemma files_ref_PStr_inj s1 s2 : files_ref (PStr s1) = files_ref (PStr s2) -> s1 = s2.
Proof.
  unfold files_ref. simpl. intros H. inversion H as [H'].
  now apply append_inj_r in H'.
Qed.

(** ** The accessioning engine *)

Section EngineFacts.

Context {World : Type}.

Variable self : Accession World.

Implicit Types st : State (World:=World).

Lemma bind_ok {A B} (m : M A) (k : A -> M B) (st st1 : State (World:=World)) a :
  m st = (Ok a, st1) -> bind m k st = k a st1.
Proof. unfold bind. now intros ->. Qed.

Lemma new_calls_app (st st' : State (World:=World)) evs :
  log st' = log st ++ evs -> new_calls st st' = evs.
Proof.
  unfold new_calls. intros ->. rewrite skipn_app, Nat.sub_diag, skipn_all. reflexivity.
Qed.

Lemma reads_only_refl st : reads_only st st.
Proof.
  split; [reflexivity|]. split; [reflexivity|]. exists []. now rewrite app_nil_r.
Qed.

Lemma reads_only_trans st1 st2 st3 :
  reads_only st1 st2 -> reads_only st2 st3 -> reads_only st1 st3.
Proof.
  intros (W1 & N1 & e1 & L1 & R1) (W2 & N2 & e2 & L2 & R2).
  split; [congruence|]. split; [congruence|].
  exists (e1 ++ e2). split.
  - rewrite L2, L1, app_assoc. reflexivity.
  - rewrite forallb_app, R1, R2. reflexivity.
Qed.

(** Computations that move the state along a preorder [R]. *)
Section Respects.

Variable R : State (World:=World) -> State (World:=World) -> Prop.
Hypothesis R_refl : forall st, R st st.
Hypothesis R_trans : forall st1 st2 st3, R st1 st2 -> R st2 st3 -> R st1 st3.

Lemma respects_ret {A} (a : A) : respects R (ret a).
Proof. intros st. apply R_refl. Qed.

Lemma respects_raise {A} e : respects R (raise (A:=A) e).
Proof. intros st. apply R_refl. Qed.

Lemma respects_lift {A} (r : result A) : respects R (lift r).
Proof. intros st. apply R_refl. Qed.

Lemma respects_bind {A B} (m : M A) (k : A -> M B) :
  respects R m -> (forall a, respects R (k a)) -> respects R (bind m k).
Proof.
  intros Hm Hk st. unfold bind. specialize (Hm st).
  destruct (m st) as [[a|e] st1]; simpl in *; auto.
  eapply R_trans; [exact Hm|apply Hk].
Qed.

Lemma respects_mapM {A B} (f : A -> M B) l :
  (forall x, respects R (f x)) -> respects R (mapM f l).
Proof.
  intros Hf. induction l as [|x l IH]; simpl.
  - apply respects_ret.
  - apply respects_bind; [apply Hf|]. intros y.
    apply respects_bind; [apply IH|]. intros ys. apply respects_ret.
Qed.

Lemma respects_forM {A} (l : list A) (body : A -> M unit) :
  (forall x, respects R (body x)) -> respects R (forM l body).
Proof.
  intros Hb. induction l as [|x l IH]; simpl.
  - apply respects_ret.
  - apply respects_bind; [apply Hb|]. intros _. apply IH.
Qed.

Lemma respects_foldM {A B} (body : B -> A -> M B) l :
  (forall acc x, respects R (body acc x)) -> forall acc, respects R (foldM body l acc).
Proof.
  intros Hb. induction l as [|x l IH]; intros acc; simpl.
  - apply respects_ret.
  - apply respects_bind; [apply Hb|]. intros acc'. apply IH.
Qed.

End Respects.

Lemma do_read_reads_only {A} c (f : World -> result A) :
  is_read c = true -> respects reads_only (do_read c f).
Proof.
  intros Hc st. unfold do_read, record_call. simpl.
  split; [reflexivity|]. split; [reflexivity|].
  exists [c]. split; [reflexivity|]. simpl. now rewrite Hc.
Qed.

Lemma file_at_portal_reads_only name : respects reads_only (file_at_portal self name).
Proof.
  unfold file_at_portal.
  apply respects_bind; [apply reads_only_trans|now apply do_read_reads_only|].
  intros md5.
  apply respects_bind; [apply reads_only_trans|now apply do_read_reads_only|].
  intros [|hit rest].
  - apply respects_ret, reads_only_refl.
  - apply respects_bind; [apply reads_only_trans|now apply do_read_reads_only|].
    intros r. apply respects_ret, reads_only_refl.
Qed.

(** The search has no hit. *)
Lemma file_at_portal_none name st md5 :
  backend_md5sum self name = Ok md5 ->
  conn_search self (world st) [("md5sum", md5); ("type", "File")] = Ok [] ->
  file_at_portal self name st =
  (Ok None,
   mkState (world st) (new_files st)
           (log st ++ [CMd5sum name; CSearch [("md5sum", md5); ("type", "File")]])).
Proof.
  intros H1 H2. unfold file_at_portal, bind, do_read, record_call, ret. simpl.
  rewrite H1. simpl. rewrite H2. simpl. now rewrite <- app_assoc.
Qed.

(** The search has a hit and the record is fetched. *)
Lemma file_at_portal_some name st md5 hit rest r :
  backend_md5sum self name = Ok md5 ->
  conn_search self (world st) [("md5sum", md5); ("type", "File")] = Ok (hit :: rest) ->
  conn_get self (world st) (dict_get hit "accession") = Ok r ->
  file_at_portal self name st =
  (Ok (Some r),
   mkState (world st) (new_files st)
           (log st ++ [CMd5sum name; CSearch [("md5sum", md5); ("type", "File")];
                       CGet (dict_get hit "accession")])).
Proof.
  intros H1 H2 H3. unfold file_at_portal, bind, do_read, record_call, ret. simpl.
  rewrite H1. simpl. rewrite H2. simpl. rewrite H3. simpl.
  now rewrite <- !app_assoc.
Qed.

(** [accession_file] on a record that is neither deleted nor revoked. *)
Lemma accession_file_live encode_file gs_file st md5 hit rest r :
  backend_md5sum self (filename gs_file) = Ok md5 ->
  conn_search self (world st) [("md5sum", md5); ("type", "File")] = Ok (hit :: rest) ->
  conn_get self (world st) (dict_get hit "accession") = Ok r ->
  soft_deleted r = false -> r <> [] ->
  accession_file self encode_file gs_file st =
  (Ok r,
   mkState (world st) (new_files st)
           (log st ++ [CMd5sum (filename gs_file);
                       CSearch [("md5sum", md5); ("type", "File")];
                       CGet (dict_get hit "accession")])).
Proof.
  intros Hmd5 Hs Hg Hlive Hne.
  unfold accession_file.
  rewrite (bind_ok _ _ _ _ _ (file_at_portal_some _ st md5 hit rest r Hmd5 Hs Hg)).
  assert (Ht : record_truthy (Some r) = true)
    by (destruct r; [exfalso; now apply Hne|reflexivity]).
  rewrite Ht. unfold negb, record_of. cbv beta iota zeta. rewrite Hlive. reflexivity.
Qed.

(** C4. [accession_file] splits three ways on what the catalog holds for
    the file's md5sum. No record: the content is downloaded, the record
    posted with the local path, the local copy removed, the record patched
    with the submitted location, cached and returned. A record whose status
    is deleted or revoked: it is patched with the candidate's fields, the
    submitted location and the current user, cached and returned. Any other
    record: it is returned as it is, after reads only. *)
Theorem accession_file_three_way encode_file gs_file st md5 :
  let name := filename gs_file in
  let q := [("md5sum", md5); ("type", "File")] in
  backend_md5sum self name = Ok md5 ->
  (conn_search self (world st) q = Ok [] ->
   forall local_file w1 posted w2 w3 patched w4,
     let payload := dict_set encode_file "submitted_file_name" (PStr local_file) in
     let update := dict_set [("submitted_file_name", PStr name)] (ENCID_KEY self)
                            (dict_get posted "accession") in
     backend_download self (world st) name = (Ok local_file, w1) ->
     conn_post self w1 payload = (Ok posted, w2) ->
     os_remove self w2 local_file = (Ok tt, w3) ->
     conn_patch self w3 update = (Ok patched, w4) ->
     accession_file self encode_file gs_file st =
     (Ok patched,
      mkState w4 (new_files st ++ [patched])
              (log st ++ [CMd5sum name; CSearch q; CDownload name; CPost payload;
                          CRemove local_file; CPatch update]))) /\
  (forall hit rest r,
     conn_search self (world st) q = Ok (hit :: rest) ->
     conn_get self (world st) (dict_get hit "accession") = Ok r ->
     (soft_deleted r = true ->
      forall patched w1,
        let update :=
          dict_set (dict_update
                      (dict_update encode_file [("submitted_file_name", PStr name)])
                      [("submitted_by", current_user self)])
                   (ENCID_KEY self) (dict_get r "accession") in
        conn_patch self (world st) update = (Ok patched, w1) ->
        accession_file self encode_file gs_file st =
        (Ok patched,
         mkState w1 (new_files st ++ [patched])
                 (log st ++ [CMd5sum name; CSearch q; CGet (dict_get hit "accession");
                             CPatch update]))) /\
     (soft_deleted r = false -> r <> [] ->
      accession_file self encode_file gs_file st =
      (Ok r,
       mkState (world st) (new_files st)
               (log st ++ [CMd5sum name; CSearch q; CGet (dict_get hit "accession")])))).
Proof.
  intros name q Hmd5. subst name q. split.
  - intros Hs local_file w1 posted w2 w3 patched w4 payload update Hd Hp Hr Hu.
    subst payload update. unfold accession_file.
    rewrite (bind_ok _ _ _ _ _ (file_at_portal_none _ st md5 Hmd5 Hs)).
    unfold record_truthy, negb, patch_file, bind, do_write, append_new_file, ret.
    cbv beta iota zeta. cbn [world new_files log].
    rewrite Hd. cbv beta iota. cbn [world new_files log].
    rewrite Hp. cbv beta iota. cbn [world new_files log].
    rewrite Hr. cbv beta iota. cbn [world new_files log].
    rewrite Hu. rewrite <- !app_assoc. reflexivity.
  - intros hit rest r Hs Hg.
    assert (Hlook := file_at_portal_some _ st md5 hit rest r Hmd5 Hs Hg).
    split.
    + intros Hdel patched w1 update Hu. subst update.
      assert (Hne : record_truthy (Some r) = true).
      { destruct r; [discriminate Hdel|reflexivity]. }
      unfold accession_file. rewrite (bind_ok _ _ _ _ _ Hlook).
      rewrite Hne. unfold negb, record_of. cbv beta iota zeta. rewrite Hdel.
      unfold patch_file, bind, do_write, append_new_file, ret.
      cbv beta iota zeta. cbn [world new_files log].
      rewrite Hu. rewrite <- !app_assoc. reflexivity.
    + intros Hlive Hne. now apply (accession_file_live _ _ _ md5 hit rest).
Qed.

(** C5. Against a catalog that holds a live record with the file's
    md5sum, two invocations of [accession_file] with the same candidate and
    file make no create or update call: each only reads and returns the
    record the catalog holds, and world and cache stay as they were. *)
Theorem accession_file_twice_live encode_file gs_file st md5 hit rest r :
  let name := filename gs_file in
  let q := [("md5sum", md5); ("type", "File")] in
  backend_md5sum self name = Ok md5 ->
  conn_search self (world st) q = Ok (hit :: rest) ->
  conn_get self (world st) (dict_get hit "accession") = Ok r ->
  soft_deleted r = false -> r <> [] ->
  let lookup := [CMd5sum name; CSearch q; CGet (dict_get hit "accession")] in
  accession_file_twice self encode_file gs_file st =
  (Ok (r, r), mkState (world st) (new_files st) (log st ++ lookup ++ lookup)) /\
  mutations (lookup ++ lookup) = 0 /\
  forallb is_read (lookup ++ lookup) = true.
Proof.
  intros name q Hmd5 Hs Hg Hlive Hne lookup.
  pose proof (accession_file_live encode_file gs_file st md5 hit rest r
                Hmd5 Hs Hg Hlive Hne) as H1'.
  set (st1 := mkState (world st) (new_files st) (log st ++ lookup)) in *.
  pose proof (accession_file_live encode_file gs_file st1 md5 hit rest r
                Hmd5 Hs Hg Hlive Hne) as H2'.
  split; [|split; reflexivity].
  unfold accession_file_twice.
  rewrite (bind_ok _ _ _ _ _ H1'). rewrite (bind_ok _ _ _ _ _ H2').
  unfold ret, st1. cbn [world new_files log]. now rewrite <- app_assoc.
Qed.

Lemma in_matched_ids otype anc accd v :
  In v (matched_ids self otype anc accd) <->
  exists g r, In g anc /\ In r accd /\
              matches otype (md5sum (get_file (analysis self) g)) r = true /\
              dict_get r "accession" = v.
Proof.
  unfold matched_ids. rewrite in_flat_map. split.
  - intros (g & Hg & Hv). apply in_map_iff in Hv. destruct Hv as (r & E & Hr).
    apply filter_In in Hr. destruct Hr as (Hr & Hm). exists g, r. auto.
  - intros (g & r & Hg & Hr & Hm & E). exists g. split; auto.
    apply in_map_iff. exists r. split; auto. apply filter_In. auto.
Qed.

(** The set of ids [get_derived_from] builds: no key twice, each id that
    of a record matching an ancestor, each such record represented. *)
Lemma matched_ids_set otype anc accd ids :
  py_set (matched_ids self otype anc accd) = Ok ids ->
  NoDup (map py_hash_key ids) /\
  (forall v, In v ids ->
     exists g r, In g anc /\ In r accd /\
                 matches otype (md5sum (get_file (analysis self) g)) r = true /\
                 dict_get r "accession" = v) /\
  (forall g r, In g anc -> In r accd ->
     matches otype (md5sum (get_file (analysis self) g)) r = true ->
     exists v, In v ids /\ py_hash_key v = py_hash_key (dict_get r "accession")).
Proof.
  intros Hp. destruct (py_set_spec _ _ Hp) as (S1 & S2 & S3).
  split; [exact S2|]. split.
  - intros v Hv. apply in_matched_ids, S1, Hv.
  - intros g r Hg Hr Hmt. apply S3, in_matched_ids. exists g, r. auto.
Qed.

(** [get_derived_from] once the search and the lookups have returned. *)
Lemma get_derived_from_run file t name key otype via st found encode_files st1 ids :
  task file = Some t ->
  gen_list (search_up (analysis self) (recursion_limit self) t name key via) = Ok found ->
  mapM (fun g => file_at_portal self (filename (get_file (analysis self) g)))
       (nodup Nat.eq_dec found) st = (Ok encode_files, st1) ->
  py_set (matched_ids self otype (nodup Nat.eq_dec found)
                      (somes encode_files ++ new_files st)) = Ok ids ->
  get_derived_from self file name key otype via st =
  (match ids with
   | [] => Raise missing_all
   | _ => if negb (Nat.eqb (List.length ids) (List.length (nodup Nat.eq_dec found)))
          then Raise missing_some
          else Ok (map files_ref ids)
   end, st1).
Proof.
  intros Ht Hs Hm Hp.
  assert (Hn : new_files st1 = new_files st).
  { pose proof (respects_mapM reads_only reads_only_refl reads_only_trans
                  (fun g => file_at_portal self (filename (get_file (analysis self) g)))
                  (nodup Nat.eq_dec found)
                  (fun g => file_at_portal_reads_only _) st) as H.
    rewrite Hm in H. apply H. }
  unfold get_derived_from. rewrite Ht.
  unfold bind at 1. unfold lift at 1. unfold bind at 1. unfold lift at 1. rewrite Hs.
  rewrite (bind_ok _ _ _ _ _ Hm).
  unfold bind at 1. unfold get_new_files at 1. rewrite Hn.
  unfold bind at 1. unfold lift at 1. rewrite Hp.
  destruct ids as [|v ids']; [reflexivity|].
  destruct (negb _); reflexivity.
Qed.

(** [get_derived_from] once the search and the lookups have returned,
    whatever [set(derived_from_accession_ids)] does. *)
Lemma get_derived_from_result file t name key otype via st found encode_files st1 :
  task file = Some t ->
  gen_list (search_up (analysis self) (recursion_limit self) t name key via) = Ok found ->
  mapM (fun g => file_at_portal self (filename (get_file (analysis self) g)))
       (nodup Nat.eq_dec found) st = (Ok encode_files, st1) ->
  get_derived_from self file name key otype via st =
  (match py_set (matched_ids self otype (nodup Nat.eq_dec found)
                             (somes encode_files ++ new_files st)) with
   | Raise e => Raise e
   | Ok [] => Raise missing_all
   | Ok ids => if negb (Nat.eqb (List.length ids) (List.length (nodup Nat.eq_dec found)))
               then Raise missing_some
               else Ok (map files_ref ids)
   end, st1).
Proof.
  intros Ht Hs Hm.
  destruct (py_set (matched_ids self otype (nodup Nat.eq_dec found)
                                (somes encode_files ++ new_files st))) as [ids|e] eqn:Hp.
  - rewrite (get_derived_from_run file t name key otype via st found encode_files st1 ids
               Ht Hs Hm Hp).
    destruct ids; reflexivity.
  - assert (Hn : new_files st1 = new_files st).
    { pose proof (respects_mapM reads_only reads_only_refl reads_only_trans
                    (fun g => file_at_portal self (filename (get_file (analysis self) g)))
                    (nodup Nat.eq_dec found)
                    (fun g => file_at_portal_reads_only _) st) as H.
      rewrite Hm in H. apply H. }
    unfold get_derived_from. rewrite Ht.
    unfold bind at 1. unfold lift at 1. unfold bind at 1. unfold lift at 1. rewrite Hs.
    rewrite (bind_ok _ _ _ _ _ Hm).
    unfold bind at 1. unfold get_new_files at 1. rewrite Hn.
    unfold bind at 1. unfold lift at 1. rewrite Hp. reflexivity.
Qed.

(** A value that hashes as the string [s] is the string [s]. *)
Lemma py_hash_key_PStr v s : py_hash_key v = Some (KStr s) -> v = PStr s.
Proof. destruct v as [|b|z|s'|l|d]; simpl; intros H; inversion H; reflexivity. Qed.


(** C10. [get_derived_from] compares the number of distinct matched ids
    with the number of ancestors by [!=]: it raises "Missing some" whenever
    the first is not zero and differs from the second, in either direction.
    So it raises when two distinct ancestors share an md5sum and match a
    record while no ancestor matches records of different ids, and when one
    ancestor matches records of two different ids while every ancestor
    matches a record and no id is matched by two ancestors. *)
Theorem get_derived_from_count_mismatch file t name key otype via st found
    encode_files st1 ids :
  let a := analysis self in
  let ancestors := nodup Nat.eq_dec found in
  let accessioned := somes encode_files ++ new_files st in
  let run := get_derived_from self file name key otype via st in
  let hit g r := In g ancestors /\ In r accessioned /\
                 matches otype (md5sum (get_file a g)) r = true in
  task file = Some t ->
  gen_list (search_up a (recursion_limit self) t name key via) = Ok found ->
  mapM (fun g => file_at_portal self (filename (get_file a g))) ancestors st
  = (Ok encode_files, st1) ->
  py_set (matched_ids self otype ancestors accessioned) = Ok ids ->
  (ids <> [] -> List.length ids <> List.length ancestors ->
   run = (Raise missing_some, st1)) /\
  (forall g1 g2 r,
     g1 <> g2 -> In g2 ancestors ->
     md5sum (get_file a g1) = md5sum (get_file a g2) ->
     hit g1 r ->
     (forall g r1 r2, hit g r1 -> hit g r2 -> accession_key r1 = accession_key r2) ->
     run = (Raise missing_some, st1)) /\
  (forall g0 r1 r2,
     hit g0 r1 -> hit g0 r2 -> accession_key r1 <> accession_key r2 ->
     (forall g, In g ancestors -> exists r, hit g r) ->
     (forall g g' r r', hit g r -> hit g' r' ->
                        accession_key r = accession_key r' -> g = g') ->
     run = (Raise missing_some, st1)).
Proof.
  intros a ancestors accessioned run hit Ht Hs Hm Hp.
  destruct (matched_ids_set otype ancestors accessioned ids Hp) as (ND & Hsound & Hcompl).
  fold a in Hsound, Hcompl.
  assert (Hsome : ids <> [] -> List.length ids <> List.length ancestors ->
                  run = (Raise missing_some, st1)).
  { intros Hne Hlen. unfold run.
    rewrite (get_derived_from_run file t name key otype via st found encode_files st1 ids
               Ht Hs Hm Hp).
    destruct ids; [congruence|]. fold ancestors.
    apply Nat.eqb_neq in Hlen. now rewrite Hlen. }
  assert (Hlen : List.length (map py_hash_key ids) = List.length ids)
    by apply length_map.
  assert (Hkeys : forall g r, hit g r -> In (accession_key r) (map py_hash_key ids)).
  { intros g r (Hg & Hr & Hmt). destruct (Hcompl g r Hg Hr Hmt) as (v & Hv & Ek).
    unfold accession_key. rewrite <- Ek. now apply in_map. }
  assert (Hnonempty : forall g r, hit g r -> ids <> []).
  { intros g r H Hnil. apply Hkeys in H. rewrite Hnil in H. exact H. }
  split; [exact Hsome|]. split.
  - intros g1 g2 r Hne Hg2 Emd5 Hit1 Hone.
    apply Hsome; [eapply Hnonempty; eauto|].
    assert (Hle : List.length (map py_hash_key ids)
                  <= List.length (remove Nat.eq_dec g2 ancestors)).
    { apply (NoDup_partner_length (fun g k => exists r, hit g r /\ accession_key r = k));
        auto.
      - intros k Hk. apply in_map_iff in Hk. destruct Hk as (v & Ek & Hv).
        destruct (Hsound v Hv) as (g & r' & Hg & Hr' & Hmt & Ev).
        assert (Ekey : accession_key r' = k)
          by (unfold accession_key; congruence).
        destruct (Nat.eq_dec g g2) as [->|Hgne].
        + exists g1. split.
          * apply in_in_remove; auto. apply Hit1.
          * exists r'. split; auto. split; [apply Hit1|]. split; auto.
            fold a. rewrite Emd5. exact Hmt.
        + exists g. split; [apply in_in_remove; auto|].
          exists r'. split; auto. repeat split; auto.
      - intros g k k' (ra & Ha & Eka) (rb & Hb & Ekb).
        rewrite <- Eka, <- Ekb. eapply Hone; eauto. }
    pose proof (remove_length_lt Nat.eq_dec ancestors g2 Hg2). lia.
  - intros g0 r1 r2 Hit1 Hit2 Hdiff Hall Hinj.
    apply Hsome; [eapply Hnonempty; eauto|].
    assert (Hle : List.length (map Some ancestors ++ [None])
                  <= List.length (map py_hash_key ids)).
    { apply (NoDup_partner_length
               (fun k (y : option fid) =>
                  match y with
                  | Some g => (exists r, hit g r /\ accession_key r = k)
                              /\ k <> accession_key r2
                  | None => k = accession_key r2
                  end)).
      - apply NoDup_app.
        + apply NoDup_map_NoDup_ForallPairs; [|apply NoDup_nodup].
          intros x y _ _ E. now inversion E.
        + constructor; [intros []|constructor].
        + intros y Hy [<-|[]]. apply in_map_iff in Hy.
          destruct Hy as (g & E & _). discriminate.
      - intros y Hy. apply in_app_or in Hy. destruct Hy as [Hy|[<-|[]]].
        + apply in_map_iff in Hy. destruct Hy as (g & <- & Hg).
          destruct (Nat.eq_dec g g0) as [->|Hgne].
          * exists (accession_key r1). split; [eapply Hkeys; eauto|].
            split; [eauto|exact Hdiff].
          * destruct (Hall g Hg) as (r & Hr).
            exists (accession_key r). split; [eapply Hkeys; eauto|].
            split; [eauto|]. intros E. apply Hgne. eapply Hinj; eauto.
        + exists (accession_key r2). split; [eapply Hkeys; eauto|reflexivity].
      - intros k [g|] [g'|]; auto.
        + intros ((r & Hr & Er) & _) ((r' & Hr' & Er') & _).
          f_equal. eapply Hinj; eauto. congruence.
        + intros (_ & Hk) Hk'. contradiction.
        + intros Hk (_ & Hk'). contradiction. }
    rewrite length_app, length_map in Hle. simpl in Hle. lia.
Qed.

Lemma cache_grows_refl st : cache_grows st st.
Proof. exists []. now rewrite app_nil_r. Qed.

Lemma cache_grows_trans st1 st2 st3 :
  cache_grows st1 st2 -> cache_grows st2 st3 -> cache_grows st1 st3.
Proof.
  intros (l1 & E1) (l2 & E2). exists (l1 ++ l2). now rewrite E2, E1, app_assoc.
Qed.

Lemma do_read_grows {A} c (f : World -> result A) : respects cache_grows (do_read c f).
Proof. intros st. exists []. simpl. now rewrite app_nil_r. Qed.

Lemma do_write_grows {A} c (f : World -> result A * World) :
  respects cache_grows (do_write c f).
Proof.
  intros st. unfold do_write. destruct (f (world st)).
  exists []. simpl. now rewrite app_nil_r.
Qed.

Lemma append_new_file_grows r :
  respects cache_grows (append_new_file (World:=World) r).
Proof. intros st. exists [r]. reflexivity. Qed.

Lemma get_new_files_grows : respects cache_grows (get_new_files (World:=World)).
Proof. intros st. exists []. simpl. now rewrite app_nil_r. Qed.

(** Solves [respects cache_grows m] for a computation built from the
    operations of the monad and from computations already known to let the
    cache grow. *)
Ltac grows :=
  repeat first
    [ solve [auto with grows]
    | progress cbv beta zeta
    | apply respects_ret; exact cache_grows_refl
    | apply respects_raise; exact cache_grows_refl
    | apply respects_lift; exact cache_grows_refl
    | apply do_read_grows
    | apply do_write_grows
    | apply append_new_file_grows
    | apply get_new_files_grows
    | apply respects_bind; [exact cache_grows_trans| |intro]
    | apply respects_mapM; [exact cache_grows_refl|exact cache_grows_trans|intro]
    | apply respects_forM; [exact cache_grows_refl|exact cache_grows_trans|intro]
    | apply respects_foldM; [exact cache_grows_refl|exact cache_grows_trans|intros ? ?]
    | match goal with
      | |- respects _ (match ?x with _ => _ end) => destruct x
      | |- respects _ (if ?b then _ else _) => destruct b
      end ].

Create HintDb grows.

Lemma file_at_portal_grows name : respects cache_grows (file_at_portal self name).
Proof. unfold file_at_portal. grows. Qed.
#[local] Hint Resolve file_at_portal_grows : grows.

Lemma patch_file_grows r p : respects cache_grows (patch_file self r p).
Proof. unfold patch_file. grows. Qed.
#[local] Hint Resolve patch_file_grows : grows.

Lemma accession_file_grows encode_file gs_file :
  respects cache_grows (accession_file self encode_file gs_file).
Proof. unfold accession_file. grows. Qed.
#[local] Hint Resolve accession_file_grows : grows.

Lemma get_derived_from_grows file name key otype via :
  respects cache_grows (get_derived_from self file name key otype via).
Proof. unfold get_derived_from. grows. Qed.
#[local] Hint Resolve get_derived_from_grows : grows.

Lemma make_file_obj_grows file fmt otype step_run specs fmt_type :
  respects cache_grows (make_file_obj self file fmt otype step_run specs fmt_type).
Proof. unfold make_file_obj, get_derived_from_all, dataset. grows. Qed.
#[local] Hint Resolve make_file_obj_grows : grows.

Lemma accession_attempt_grows f fp step_run :
  respects cache_grows (accession_attempt self f fp step_run).
Proof. unfold accession_attempt. grows. Qed.

Lemma try_accession_grows f fp step_run :
  respects cache_grows (try_accession self f fp step_run).
Proof.
  intros st. unfold try_accession.
  pose proof (accession_attempt_grows f fp step_run st) as H.
  destruct (accession_attempt self f fp step_run st) as [[r|e] st']; simpl in *; auto.
  destruct (on_failure e fp); exact H.
Qed.
#[local] Hint Resolve try_accession_grows : grows.

Lemma accession_step_grows step : respects cache_grows (accession_step self step).
Proof.
  unfold accession_step, get_or_make_step_run, accession_one, attach_quality_metrics.
  grows.
Qed.
#[local] Hint Resolve accession_step_grows : grows.

Lemma accession_steps_grows steps : respects cache_grows (accession_steps self steps).
Proof. unfold accession_steps. grows. Qed.

Lemma bind_inv_ok {A B} (m : M A) (k : A -> M B) (st st' : State (World:=World)) b :
  bind m k st = (Ok b, st') ->
  exists a st1, m st = (Ok a, st1) /\ k a st1 = (Ok b, st').
Proof.
  unfold bind. destruct (m st) as [[a|e] st1]; [eauto|discriminate].
Qed.

Lemma do_write_inv_ok {A} c (f : World -> result A * World) st a st' :
  do_write c f st = (Ok a, st') ->
  exists w, f (world st) = (Ok a, w) /\
            st' = mkState w (new_files st) (log st ++ [c]).
Proof.
  unfold do_write. destruct (f (world st)) as [r w]. intros H. inversion H; subst.
  eauto.
Qed.

Lemma mutations_app l1 l2 : mutations (l1 ++ l2) = mutations l1 + mutations l2.
Proof. unfold mutations. now rewrite filter_app, length_app. Qed.

Lemma mutations_reads evs : forallb is_read evs = true -> mutations evs = 0.
Proof.
  unfold mutations. induction evs as [|c evs IH]; simpl; auto.
  intros H. apply andb_prop in H. destruct H as (Hc & H).
  destruct c; simpl in *; try discriminate; auto.
Qed.

(** What [accession_file] leaves in the cache when it returns. *)
Lemma accession_file_caches encode_file gs_file st r st' :
  accession_file self encode_file gs_file st = (Ok r, st') ->
  (mutations (new_calls st st') = 0 /\ new_files st' = new_files st) \/
  (0 < mutations (new_calls st st') /\ new_files st' = new_files st ++ [r] /\
   exists payload w w', conn_patch self w payload = (Ok r, w')).
Proof.
  unfold accession_file. intros H.
  apply bind_inv_ok in H. destruct H as (fe & st0 & Hl & H).
  pose proof (file_at_portal_reads_only (filename gs_file) st) as R.
  rewrite Hl in R. destruct R as (_ & Rn & evs & Rl & Rr). simpl in Rn, Rl.
  apply mutations_reads in Rr.
  cbv zeta in H. destruct (negb (record_truthy fe)).
  - apply bind_inv_ok in H. destruct H as (local_file & s1 & H1 & H).
    apply do_write_inv_ok in H1. destruct H1 as (w1 & _ & ->).
    apply bind_inv_ok in H. destruct H as (posted & s2 & H2 & H).
    apply do_write_inv_ok in H2. destruct H2 as (w2 & _ & ->).
    apply bind_inv_ok in H. destruct H as (u & s3 & H3 & H).
    apply do_write_inv_ok in H3. destruct H3 as (w3 & _ & ->).
    apply bind_inv_ok in H. destruct H as (patched & s4 & H4 & H).
    unfold patch_file in H4.
    apply do_write_inv_ok in H4. destruct H4 as (w4 & Hpatch & ->).
    unfold bind, append_new_file, ret in H. inversion H; subst r st'; clear H.
    right. cbn [world new_files log]. rewrite Rn.
    split; [|split; [reflexivity|eauto]].
    erewrite new_calls_app.
    2:{ cbn [log]. rewrite Rl, <- !app_assoc. reflexivity. }
    rewrite mutations_app. simpl. unfold mutations at 2. simpl. lia.
  - destruct (soft_deleted (record_of fe)).
    + apply bind_inv_ok in H. destruct H as (patched & s4 & H4 & H).
      unfold patch_file in H4.
      apply do_write_inv_ok in H4. destruct H4 as (w4 & Hpatch & ->).
      unfold bind, append_new_file, ret in H. inversion H; subst r st'; clear H.
      right. cbn [world new_files log]. rewrite Rn.
      split; [|split; [reflexivity|eauto]].
      erewrite new_calls_app.
      2:{ cbn [log]. rewrite Rl, <- !app_assoc. reflexivity. }
      rewrite mutations_app. simpl. unfold mutations at 2. simpl. lia.
    + unfold ret in H. inversion H; subst r st'; clear H.
      left. split; [|exact Rn]. now rewrite (new_calls_app _ _ _ Rl).
Qed.

(** C7. [accession_file] returns only after the record it created or
    patched is at the end of [new_files]; [get_derived_from] matches the
    ancestors against the catalog records and against every record of
    [new_files]: a call of [get_derived_from] one of whose ancestors
    matches a record of the catalog or of the cache does not raise
    "Missing all", and the references it returns hold the reference of
    that record; the cache is never shortened by a step, so a record
    [accession_file] created or patched is in the cache of every later
    state; and [accession_steps] runs the steps one after the other, in
    the order of the list, each on the state the one before left. *)
Theorem submission_cache_visible :
  (forall encode_file gs_file st r st',
     accession_file self encode_file gs_file st = (Ok r, st') ->
     (mutations (new_calls st st') = 0 /\ new_files st' = new_files st) \/
     (0 < mutations (new_calls st st') /\ new_files st' = new_files st ++ [r] /\
      exists payload w w', conn_patch self w payload = (Ok r, w'))) /\
  (forall file t name key otype via st found encode_files st1 ids,
     let a := analysis self in
     let ancestors := nodup Nat.eq_dec found in
     task file = Some t ->
     gen_list (search_up a (recursion_limit self) t name key via) = Ok found ->
     mapM (fun g => file_at_portal self (filename (get_file a g))) ancestors st
     = (Ok encode_files, st1) ->
     py_set (matched_ids self otype ancestors (somes encode_files ++ new_files st))
     = Ok ids ->
     forall g r,
       In g ancestors -> In r (somes encode_files) \/ In r (new_files st) ->
       matches otype (md5sum (get_file a g)) r = true ->
       exists v, In v ids /\ py_hash_key v = accession_key r) /\
  (forall file t name key otype via st found encode_files st1 g r,
     let a := analysis self in
     let ancestors := nodup Nat.eq_dec found in
     let run := get_derived_from self file name key otype via st in
     task file = Some t ->
     gen_list (search_up a (recursion_limit self) t name key via) = Ok found ->
     mapM (fun g => file_at_portal self (filename (get_file a g))) ancestors st
     = (Ok encode_files, st1) ->
     In g ancestors -> In r (somes encode_files) \/ In r (new_files st) ->
     matches otype (md5sum (get_file a g)) r = true ->
     snd run = st1 /\
     fst run <> Raise missing_all /\
     forall refs, fst run = Ok refs ->
       (exists v, py_hash_key v = accession_key r /\ In (files_ref v) refs) /\
       (forall s, dict_get r "accession" = PStr s ->
                  In ("/files/" ++ s ++ "/")%string refs)) /\
  (forall step st, cache_grows st (snd (accession_step self step st))) /\
  (forall st st' r, cache_grows st st' -> In r (new_files st) -> In r (new_files st')) /\
  (forall encode_file gs_file st0 r st' st,
     accession_file self encode_file gs_file st0 = (Ok r, st') ->
     0 < mutations (new_calls st0 st') -> cache_grows st' st ->
     In r (new_files st)) /\
  (forall step rest st,
     accession_steps self (step :: rest) st =
     match accession_step self step st with
     | (Ok _, st1) => accession_steps self rest st1
     | (Raise e, st1) => (Raise e, st1)
     end).
Proof.
  split; [exact accession_file_caches|]. split; [|split; [|split; [|split; [|split]]]].
  - intros file t name key otype via st found encode_files st1 ids a ancestors
           Ht Hs Hm Hp g r Hg Hr Hmt.
    destruct (matched_ids_set otype ancestors _ ids Hp) as (_ & _ & Hc).
    apply (Hc g r); auto. apply in_or_app. exact Hr.
  - intros file t name key otype via st found encode_files st1 g r a ancestors run
           Ht Hs Hm Hg Hr Hmt.
    pose proof (get_derived_from_result file t name key otype via st found encode_files
                  st1 Ht Hs Hm) as Hrun.
    fold run in Hrun. fold ancestors in Hrun. rewrite Hrun. cbn [fst snd].
    split; [reflexivity|].
    destruct (py_set (matched_ids self otype ancestors (somes encode_files ++ new_files st)))
      as [ids|e] eqn:Hp.
    + destruct (matched_ids_set otype ancestors _ ids Hp) as (_ & _ & Hc).
      destruct (Hc g r Hg (proj2 (in_app_iff _ _ _) Hr) Hmt) as (v & Hv & Hk).
      destruct ids as [|v0 ids']; [destruct Hv|].
      destruct (negb _); (split; [unfold missing_all, missing_some; discriminate|]).
      * intros refs E. discriminate E.
      * intros refs E. injection E as <-. split.
        -- exists v. split; [exact Hk|]. exact (in_map files_ref _ _ Hv).
        -- intros s Es. rewrite Es in Hk. simpl in Hk.
           apply py_hash_key_PStr in Hk. subst v.
           exact (in_map files_ref _ _ Hv).
    + split.
      * intros E. inversion E as [E']. subst e.
        apply py_set_go_raises in Hp. destruct Hp as (v & Hp).
        unfold missing_all, unhashable in Hp. discriminate Hp.
      * intros refs E. discriminate E.
  - intros step st. apply accession_step_grows.
  - intros st st' r (added & E) Hr. rewrite E. apply in_or_app. now left.
  - intros encode_file gs_file st0 r st' st H Hmut (added & E).
    destruct (accession_file_caches _ _ _ _ _ H) as [(Hz & _)|(_ & Hn & _)]; [lia|].
    rewrite E, Hn. apply in_or_app. left. apply in_or_app. right. now left.
  - intros step rest st. unfold accession_steps. simpl. unfold bind.
    destruct (accession_step self step st) as [[l|e] st1]; reflexivity.
Qed.

Lemma foldM_ext {A B} (b1 b2 : B -> A -> M B) l :
  (forall acc x st, b1 acc x st = b2 acc x st) ->
  forall acc (st : State (World:=World)), foldM b1 l acc st = foldM b2 l acc st.
Proof.
  intros Hb. induction l as [|x l IH]; intros acc st; simpl; auto.
  unfold bind. rewrite Hb. destruct (b2 acc x st) as [[acc'|e] st1]; auto.
Qed.

Lemma foldM_app {A B} (body : B -> A -> M B) l1 l2 :
  forall acc (st : State (World:=World)),
    foldM body (l1 ++ l2) acc st = bind (foldM body l1 acc) (foldM body l2) st.
Proof.
  induction l1 as [|x l1 IH]; intros acc st; simpl.
  - reflexivity.
  - unfold bind. destruct (body acc x st) as [[acc'|e] st1]; auto.
Qed.

Lemma foldM_map {A B C} (body : B -> A -> M B) (f : C -> A) l :
  forall acc (st : State (World:=World)),
    foldM body (map f l) acc st = foldM (fun acc x => body acc (f x)) l acc st.
Proof.
  induction l as [|x l IH]; intros acc st; simpl; auto.
  unfold bind. destruct (body acc (f x) st) as [[acc'|e] st1]; auto.
Qed.

Lemma foldM_flat_map {A B C} (body : B -> A -> M B) (f : C -> list A) l :
  forall acc (st : State (World:=World)),
    foldM (fun acc x => foldM body (f x) acc) l acc st =
    foldM body (flat_map f l) acc st.
Proof.
  induction l as [|x l IH]; intros acc st; simpl; auto.
  rewrite foldM_app. unfold bind.
  destruct (foldM body (f x) acc st) as [[acc'|e] st1]; auto.
Qed.

(** The three loops of [accession_step] are one loop over [step_work]. *)
Lemma accession_step_flat step st :
  accession_step self step st =
  bind (lift (lab_pi self)) (fun pi =>
  bind (get_or_make_step_run self pi (dcc_step_run step) (dcc_step_version step)
                             (wdl_task_name step)) (fun step_run =>
  foldM (accession_item self step_run) (step_work self step) [])) st.
Proof.
  unfold accession_step, bind.
  destruct (lift (lab_pi self) st) as [[pi|e] st1]; auto.
  destruct (get_or_make_step_run self pi _ _ _ st1) as [[step_run|e] st2]; auto.
  unfold step_work. rewrite <- foldM_flat_map. apply foldM_ext. intros acc t st3.
  rewrite <- foldM_flat_map. apply foldM_ext. intros acc' fp st4.
  rewrite foldM_map. reflexivity.
Qed.

Lemma on_failure_skip e fp :
  on_failure e fp = Skip <->
  (str_contains "Conflict" (exn_str e) = true /\ possible_duplicate fp = true) \/
  str_contains "Missing all of the derived_from" (exn_str e) = true.
Proof.
  unfold on_failure.
  destruct (str_contains "Conflict" (exn_str e)), (possible_duplicate fp),
    (str_contains "Missing all of the derived_from" (exn_str e)); simpl;
    split; intros H; auto; try discriminate;
    destruct H as [[H1 H2]|H]; discriminate.
Qed.

(** C6. The handler of [accession_step] skips a file in two cases only: the
    text of the exception contains "Conflict" and the file's entry sets
    [possible_duplicate], or the text contains "Missing all of the
    derived_from". "Missing all" is skipped, "Missing some" is not. When
    the attempt on a file raises, a skipped file leaves the loop running on
    the files that follow, with nothing added to the step's result; any
    other exception ends [accession_step] and, with it, [accession_steps]. *)
Theorem accession_step_failure_handling :
  (forall e fp,
     on_failure e fp = Skip <->
     (str_contains "Conflict" (exn_str e) = true /\ possible_duplicate fp = true) \/
     str_contains "Missing all of the derived_from" (exn_str e) = true) /\
  (forall e fp, on_failure e fp = Propagate <-> on_failure e fp <> Skip) /\
  (forall fp, on_failure missing_all fp = Skip) /\
  (forall fp, on_failure missing_some fp = Propagate) /\
  (forall step pi step_run done fp f rest st0 st1 acc st e st',
     lab_pi self = Ok pi ->
     get_or_make_step_run self pi (dcc_step_run step) (dcc_step_version step)
                          (wdl_task_name step) st0 = (Ok step_run, st1) ->
     step_work self step = done ++ (fp, f) :: rest ->
     foldM (accession_item self step_run) done [] st1 = (Ok acc, st) ->
     accession_attempt self f fp step_run st = (Raise e, st') ->
     (on_failure e fp = Skip ->
      accession_step self step st0 = foldM (accession_item self step_run) rest acc st') /\
     (on_failure e fp = Propagate ->
      accession_step self step st0 = (Raise e, st') /\
      forall later, accession_steps self (step :: later) st0 = (Raise e, st'))).
Proof.
  split; [exact on_failure_skip|]. split; [|split; [|split]].
  - intros e fp. destruct (on_failure e fp); split; congruence.
  - intros fp. unfold on_failure. simpl. now destruct (possible_duplicate fp).
  - intros fp. reflexivity.
  - intros step pi step_run done fp f rest st0 st1 acc st e st' Hpi Hsr Hw Hd Ha.
    assert (Hstep : forall out,
              accession_item self step_run acc (fp, f) st = out ->
              accession_step self step st0 =
              match out with
              | (Ok acc', st2) => foldM (accession_item self step_run) rest acc' st2
              | (Raise e', st2) => (Raise e', st2)
              end).
    { intros out <-. rewrite accession_step_flat. unfold bind at 1. unfold lift at 1.
      rewrite Hpi. rewrite (bind_ok _ _ _ _ _ Hsr). rewrite Hw, foldM_app.
      rewrite (bind_ok _ _ _ _ _ Hd). simpl. unfold bind at 1.
      destruct (accession_item self step_run acc (fp, f) st) as [[acc'|e'] st2]; reflexivity. }
    split.
    + intros Hskip. rewrite (Hstep _ eq_refl).
      unfold accession_item, accession_one, try_accession, bind. simpl.
      rewrite Ha, Hskip. reflexivity.
    + intros Hprop.
      assert (Hr : accession_step self step st0 = (Raise e, st')).
      { rewrite (Hstep _ eq_refl).
        unfold accession_item, accession_one, try_accession, bind. simpl.
        rewrite Ha, Hprop. reflexivity. }
      split; [exact Hr|]. intros later. unfold accession_steps. simpl.
      unfold bind. rewrite Hr. reflexivity.
Qed.

End EngineFacts.

(** ** Splitting strings *)

Lemma append_assoc (s1 s2 s3 : string) :
  ((s1 ++ s2) ++ s3 = s1 ++ (s2 ++ s3))%string.
Proof. induction s1 as [|c s1 IH]; simpl; congruence. Qed.

Lemma append_nil_r (s : string) : (s ++ EmptyString)%string = s.
Proof. induction s as [|c s IH]; simpl; congruence. Qed.

Lemma prefix_append (p s : string) : String.prefix p (p ++ s) = true.
Proof.
  induction p as [|c p IH]; simpl.
  - now destruct s.
  - destruct (ascii_dec c c); [exact IH|congruence].
Qed.

(** The characters of a matched separator are dropped. *)
Lemma split_go_skip sep (pre s cur : string) :
  split_go sep (pre ++ s) (String.length pre) cur = split_go sep s 0 cur.
Proof.
  induction pre as [|c pre IH]; simpl; auto.
Qed.

(** A separator at the head of the text closes the current piece. *)
Lemma split_go_sep c (sep' s cur : string) :
  split_go (String c sep') (String c sep' ++ s) 0 cur =
  cur :: split_go (String c sep') s 0 EmptyString.
Proof.
  pose proof (prefix_append (String c sep') s) as Hp.
  pose proof (split_go_skip (String c sep') sep' s EmptyString) as Hs.
  change (String c sep' ++ s)%string with (String c (sep' ++ s)) in *.
  cbn [split_go]. rewrite Hp.
  replace (String.length (String c sep') - 1) with (String.length sep')
    by (simpl; lia).
  now rewrite Hs.
Qed.

(** Characters other than the first of the separator join the current
    piece. *)
Lemma split_go_run c (sep' b s cur : string) :
  has_char c b = false ->
  split_go (String c sep') (b ++ s) 0 cur = split_go (String c sep') s 0 (cur ++ b).
Proof.
  revert cur. induction b as [|d b IH]; intros cur H; simpl in *.
  - now rewrite append_nil_r.
  - apply orb_false_iff in H. destruct H as (Hd & Hb).
    destruct (ascii_dec c d) as [->|Hne]; [now rewrite Ascii.eqb_refl in Hd|].
    rewrite IH by exact Hb. rewrite append_assoc. reflexivity.
Qed.

(** A text without the first character of the separator is one piece. *)
Lemma split_absent c sep' b :
  has_char c b = false -> split (String c sep') b = [b].
Proof.
  intros H. unfold split.
  rewrite <- (append_nil_r b) at 1.
  now rewrite split_go_run.
Qed.

(** The piece before the first separator. *)
Lemma split_first c sep' b s :
  has_char c b = false ->
  split (String c sep') (b ++ String c sep' ++ s) = b :: split (String c sep') s.
Proof.
  intros H. unfold split. rewrite split_go_run by exact H.
  now rewrite split_go_sep.
Qed.

(** The name [make_task] reads off a call key with a dot. *)
Lemma make_task_key_name w n rest :
  has_char "." w = false -> has_char "." n = false ->
  rest = EmptyString \/ (exists r, rest = ("." ++ r)%string) ->
  py_index (split "." (w ++ "." ++ n ++ rest)) 1 = Ok n.
Proof.
  intros Hw Hn Hrest.
  rewrite (split_first "." EmptyString w) by exact Hw.
  destruct Hrest as [->|(r & ->)].
  - rewrite append_nil_r, (split_absent "." EmptyString n) by exact Hn. reflexivity.
  - rewrite (split_first "." EmptyString n) by exact Hn. reflexivity.
Qed.

(** X2. [make_task] names a task by the second dot-separated component of
    its call key: the part after the workflow name, cut at a further dot;
    a call key without a dot raises [IndexError], whatever the call entry
    holds.  Under a key with a dot, a call entry without [inputs], or
    with [inputs] and without [outputs], raises [KeyError] on that key. *)
Theorem make_task_name w n i o d :
  has_char "." w = false -> has_char "." n = false ->
  (forall rest,
     rest = EmptyString \/ (exists r, rest = ("." ++ r)%string) ->
     make_task (w ++ "." ++ n ++ rest) (mkCall (Some i) (Some o) d) =
     Ok (mkTask n [] [] i o d) /\
     make_task (w ++ "." ++ n ++ rest) (mkCall None (Some o) d) =
     Raise (mkExn KeyError "'inputs'") /\
     make_task (w ++ "." ++ n ++ rest) (mkCall None None d) =
     Raise (mkExn KeyError "'inputs'") /\
     make_task (w ++ "." ++ n ++ rest) (mkCall (Some i) None d) =
     Raise (mkExn KeyError "'outputs'")) /\
  (forall c, make_task w c = Raise index_out_of_range).
Proof.
  intros Hw Hn. split.
  - intros rest Hrest. unfold make_task.
    rewrite (make_task_key_name w n rest Hw Hn Hrest). repeat split.
  - intros c. unfold make_task.
    rewrite (split_absent "." EmptyString w) by exact Hw. reflexivity.
Qed.


Lemma str_contains_cons sep c s :
  sep <> EmptyString ->
  str_contains sep (String c s) = false ->
  String.prefix sep (String c s) = false /\ str_contains sep s = false.
Proof.
  unfold str_contains. intros Hsep H. cbn [String.index] in H.
  destruct (String.prefix sep (String c s)); [discriminate H|].
  split; [reflexivity|]. now destruct (String.index 0 sep s).
Qed.

(** A text the separator does not occur in is one piece. *)
Lemma split_go_none sep s cur :
  sep <> EmptyString -> str_contains sep s = false ->
  split_go sep s 0 cur = [(cur ++ s)%string].
Proof.
  intros Hsep. revert cur. induction s as [|c s IH]; intros cur H.
  - simpl. now rewrite append_nil_r.
  - destruct (str_contains_cons sep c s Hsep H) as (Hp & Hs).
    cbn [split_go]. rewrite Hp, IH by exact Hs. now rewrite append_assoc.
Qed.

Lemma split_none sep s :
  sep <> EmptyString -> str_contains sep s = false -> split sep s = [s].
Proof. intros Hsep H. unfold split. now rewrite split_go_none. Qed.

(** A text that starts with the separator: an empty piece, then the pieces
    of the rest. *)
Lemma split_sep_head c sep' s :
  split (String c sep') (String c sep' ++ s) = EmptyString :: split (String c sep') s.
Proof. unfold split. apply split_go_sep. Qed.

Lemma prefix_append_l (a b s : string) :
  String.prefix (a ++ b) s = true -> String.prefix a s = true.
Proof.
  revert s. induction a as [|c a IH]; intros [|d s] H; simpl in *;
    try reflexivity; try discriminate H.
  destruct (ascii_dec c d); [now apply IH|discriminate H].
Qed.

Lemma str_contains_append_l (a b s : string) :
  a <> EmptyString ->
  str_contains a s = false -> str_contains (a ++ b) s = false.
Proof.
  intros Ha. induction s as [|c s IH]; intros H.
  - destruct a; [congruence|reflexivity].
  - destruct (str_contains_cons a c s Ha H) as (Hp & Hs).
    specialize (IH Hs). unfold str_contains in *. cbn [String.index].
    destruct (String.prefix (a ++ b) (String c s)) eqn:E.
    + apply prefix_append_l in E. congruence.
    + now destruct (String.index 0 (a ++ b) s).
Qed.

Lemma str_contains_suffix (a x s : string) :
  a <> EmptyString ->
  str_contains a (x ++ s) = false -> str_contains a s = false.
Proof.
  intros Ha. induction x as [|c x IH]; simpl; intros H; auto.
  apply IH. now apply (str_contains_cons a c (x ++ s) Ha).
Qed.

(** X11. A location [gs://<bucket>/<path>] is taken apart into [<bucket>]
    and [<path>]: the blob of a file is looked up in the bucket the
    location names, at the path after it. *)
Theorem blob_location_round_trip bucket path :
  has_char "/" bucket = false ->
  str_contains "gs://" (bucket ++ "/" ++ path) = false ->
  blob_location ("gs://" ++ bucket ++ "/" ++ path) = Ok (bucket, path).
Proof.
  intros Hb Hs. unfold blob_location, bucket_name.
  change ("gs://" ++ bucket ++ "/" ++ path)%string
    with (String "g" "s://" ++ (bucket ++ "/" ++ path))%string.
  rewrite split_sep_head.
  rewrite split_none by (discriminate || exact Hs).
  cbn [py_index nth_error rbind].
  rewrite (split_first "/" EmptyString bucket path) by exact Hb.
  cbn [py_index nth_error rbind]. unfold file_path.
  replace (String "g" "s://" ++ (bucket ++ "/" ++ path))%string
    with (("gs://" ++ bucket ++ "/") ++ path)%string
    by (simpl; now rewrite append_assoc).
  change ("gs://" ++ bucket ++ "/")%string with (String "g" ("s://" ++ bucket ++ "/")).
  rewrite split_sep_head.
  rewrite split_none; [reflexivity|discriminate|].
  change (String "g" ("s://" ++ bucket ++ "/")) with ("gs://" ++ (bucket ++ "/"))%string.
  apply str_contains_append_l; [discriminate|].
  apply (str_contains_suffix "gs://" (bucket ++ "/")); [discriminate|].
  now rewrite append_assoc.
Qed.

(** ** Trees of locations *)

Lemma extract_files_sound s : forall v,
  In s (extract_files v) -> leaf s v /\ str_contains "gs://" s = true.
Proof.
  apply (pyval_nested_ind
    (fun v => In s (extract_files v) -> leaf s v /\ str_contains "gs://" s = true));
    simpl; try (intros; contradiction).
  - intros s' H. destruct (str_contains "gs://" s') eqn:E; [|destruct H].
    destruct H as [<-|[]]. split; [constructor|exact E].
  - intros l IH H. apply in_flat_map in H. destruct H as (x & Hx & Hs).
    rewrite Forall_forall in IH. destruct (IH x Hx Hs) as (L & C).
    split; [econstructor; eauto|exact C].
  - intros d IH H. apply in_flat_map in H. destruct H as ([k x] & Hx & Hs).
    rewrite Forall_forall in IH. destruct (IH (k, x) Hx Hs) as (L & C).
    split; [econstructor; eauto|exact C].
Qed.

(** X1. [extract_files] yields exactly the string leaves of the tree that
    contain [gs://]: the tree itself, items of lists and values of
    mappings at any depth; keys of mappings, numbers, booleans and [None]
    are never yielded. *)
Theorem extract_files_leaves v s :
  In s (extract_files v) <-> leaf s v /\ str_contains "gs://" s = true.
Proof.
  split; [apply extract_files_sound|].
  intros (L & C). induction L as [|l x Hx L IH|d k x Hx L IH]; simpl.
  - rewrite C. now left.
  - apply in_flat_map. eauto.
  - apply in_flat_map. exists (k, x). auto.
Qed.

(** X23. [flatten] of the list of the reference lists [get_derived_from]
    returned is their concatenation: every reference, in order, none
    dropped and none added. *)
Theorem flatten_reference_lists (ls : list (list string)) :
  flatten (PList (map (fun l => PList (map PStr l)) ls)) = List.concat ls.
Proof.
  simpl. induction ls as [|l ls IH]; simpl; [reflexivity|].
  rewrite IH. f_equal.
  induction l as [|s l IHl]; simpl; congruence.
Qed.

Lemma dict_get_set d k v k' :
  dict_get (dict_set d k v) k' = if String.eqb k' k then v else dict_get d k'.
Proof.
  induction d as [|[k0 v0] d IH]; simpl.
  - reflexivity.
  - destruct (String.eqb k k0) eqn:E; simpl.
    + apply String.eqb_eq in E. subst k0. now destruct (String.eqb k' k).
    + rewrite IH. destruct (String.eqb k' k0) eqn:E0; [|reflexivity].
      destruct (String.eqb k' k) eqn:E1; [|reflexivity].
      apply String.eqb_eq in E0, E1. subst. now rewrite String.eqb_refl in E.
Qed.

Lemma has_char_append c s t :
  has_char c (s ++ t) = has_char c s || has_char c t.
Proof.
  induction s as [|d s IH]; simpl; [reflexivity|]. now rewrite IH, orb_assoc.
Qed.

(** The pieces of a text split at a character do not hold the character. *)
Lemma split_go_pieces c s : forall skip cur,
  has_char c cur = false ->
  Forall (fun p => has_char c p = false) (split_go (String c EmptyString) s skip cur).
Proof.
  induction s as [|d s IH]; intros skip cur H; simpl.
  - repeat constructor. exact H.
  - destruct skip as [|k]; [|now apply IH].
    destruct (ascii_dec c d) as [->|Hne].
    + destruct s; (constructor; [exact H|now apply IH]).
    + apply IH. rewrite has_char_append, H. simpl.
      destruct (Ascii.eqb c d) eqn:E; [apply Ascii.eqb_eq in E; contradiction|reflexivity].
Qed.

Lemma has_char_concat c sep l :
  has_char c sep = false -> Forall (fun p => has_char c p = false) l ->
  has_char c (String.concat sep l) = false.
Proof.
  intros Hs H. induction H as [|p l Hp H IH]; simpl; [reflexivity|].
  destruct l as [|q l]; [exact Hp|].
  rewrite !has_char_append, Hp, Hs. exact IH.
Qed.

Lemma replace_char_absent c new s :
  has_char c new = false -> has_char c (replace (String c EmptyString) new s) = false.
Proof.
  intros H. unfold replace, split. apply has_char_concat; [exact H|].
  now apply split_go_pieces.
Qed.

(** The first piece starts with the piece being read. *)
Lemma split_go_head sep s : forall skip cur,
  exists x l, split_go sep s skip cur = (cur ++ x)%string :: l.
Proof.
  induction s as [|d s IH]; intros skip cur; cbn [split_go].
  - exists EmptyString, []. now rewrite append_nil_r.
  - destruct skip as [|k]; [|apply IH].
    destruct (String.prefix sep (String d s)).
    + exists EmptyString. eexists. rewrite append_nil_r. reflexivity.
    + destruct (IH 0 (cur ++ String d EmptyString)%string) as (x & l & ->).
      exists (String d x), l. now rewrite append_assoc.
Qed.

(** A text the separator occurs in has two pieces at least. *)
Lemma split_go_hit c sep' s :
  str_contains (String c sep') s = true ->
  forall cur, exists x y l, split_go (String c sep') s 0 cur = x :: y :: l.
Proof.
  induction s as [|d s IH]; intros H cur; [discriminate H|].
  unfold str_contains in H. cbn [String.index] in H. cbn [split_go].
  destruct (String.prefix (String c sep') (String d s)).
  - destruct (split_go_head (String c sep') s (String.length (String c sep') - 1)
                            EmptyString) as (x & l & ->).
    eauto.
  - apply IH. unfold str_contains.
    now destruct (String.index 0 (String c sep') s).
Qed.

(** X12. A location has a bucket exactly when it contains [gs://]; so the
    blob lookup of every location [extract_files] yields finds a bucket
    name, and a location without [gs://] raises [IndexError]. *)
Theorem bucket_name_defined name :
  ((exists b, bucket_name name = Ok b) <-> str_contains "gs://" name = true) /\
  (str_contains "gs://" name = false -> blob_location name = Raise index_out_of_range) /\
  (forall v, In name (extract_files v) -> exists b, bucket_name name = Ok b).
Proof.
  assert (Hyes : str_contains "gs://" name = true -> exists b, bucket_name name = Ok b).
  { intros H. unfold bucket_name, split.
    destruct (split_go_hit "g" "s://" name H EmptyString) as (x & y & l & ->).
    cbn [py_index nth_error rbind].
    destruct (split_go_head "/" y 0 EmptyString) as (b & l' & ->).
    cbn [py_index nth_error]. eauto. }
  assert (Hno : str_contains "gs://" name = false ->
                bucket_name name = Raise index_out_of_range).
  { intros H. unfold bucket_name. rewrite split_none by (discriminate || exact H).
    reflexivity. }
  split; [split; [|exact Hyes]|split].
  - intros (b & Hb). destruct (str_contains "gs://" name); [reflexivity|].
    rewrite Hno in Hb by reflexivity. discriminate Hb.
  - intros H. unfold blob_location. now rewrite Hno.
  - intros v Hin. apply Hyes. now apply (extract_files_sound name v).
Qed.

(** ** The built graph, call by call *)

Lemma in_update_at {A} (g : A -> A) i l y :
  In y (update_at i g l) ->
  (exists x, nth_error l i = Some x /\ y = g x) \/
  (exists k, k <> i /\ nth_error l k = Some y).
Proof.
  intros H. apply In_nth_error in H. destruct H as (k & Hk).
  rewrite nth_error_update_at in Hk.
  destruct (Nat.eqb i k) eqn:E.
  - apply Nat.eqb_eq in E. subst k.
    destruct (nth_error l i) as [x|]; simpl in Hk; [|discriminate].
    left. exists x. split; congruence.
  - apply Nat.eqb_neq in E. right. exists k. split; auto.
Qed.

Section GraphHistoryFacts.

Variable backend_md5sum : string -> result string.
Variable backend_size : string -> result Z.

Local Abbreviation gomf := (get_or_make_file backend_md5sum backend_size).
Local Abbreviation gomp := (gom_pairs backend_md5sum backend_size).
Local Abbreviation holds := (files_of_calls backend_md5sum backend_size).
Local Abbreviation holds1 := (file_of_calls backend_md5sum backend_size).

(** A call for another location leaves what a file holds. *)
Lemma file_of_calls_other h o f :
  holds1 h f -> gom_name o <> filename f -> holds1 (h ++ [o]) f.
Proof.
  intros (M & Z & NK & NU & K & U & (h1 & o1 & h2 & E & N1 & T1 & F1)) Hne.
  split; [exact M|]. split; [exact Z|]. split; [exact NK|]. split; [exact NU|].
  split; [|split].
  - intros key. rewrite K. split.
    + intros (o' & Ho' & P). exists o'. split; [apply in_or_app; auto|exact P].
    + intros (o' & Ho' & P1 & P2). apply in_app_or in Ho'.
      destruct Ho' as [Ho'|[<-|[]]]; [eauto|contradiction].
  - intros u. rewrite U. split.
    + intros (o' & Ho' & P). exists o'. split; [apply in_or_app; auto|exact P].
    + intros (o' & Ho' & P1 & P2). apply in_app_or in Ho'.
      destruct Ho' as [Ho'|[<-|[]]]; [eauto|contradiction].
  - exists h1, o1, (h2 ++ [o]). split; [|auto].
    rewrite E, <- app_assoc. reflexivity.
Qed.

(** The hit branch: the file at the location takes the role-key and the
    consumer of the call. *)
Lemma file_of_calls_touch h key name t u f :
  holds1 h f -> filename f = name ->
  holds1 (h ++ [mkGomCall key name t u]) (touch_file key u f).
Proof.
  intros (M & Z & NK & NU & K & U & (h1 & o1 & h2 & E & N1 & T1 & F1)) Hn.
  unfold file_of_calls, touch_file. cbn [filename filekeys task used_by_tasks md5sum size].
  split; [exact M|]. split; [exact Z|]. split; [|split; [|split; [|split]]].
  - destruct (mem_str key (filekeys f)) eqn:Em; [exact NK|].
    apply NoDup_app; [exact NK|repeat constructor; intros []|].
    intros x Hx [<-|[]]. apply mem_str_In in Hx. congruence.
  - destruct u as [x|]; [|exact NU].
    destruct (mem_nat x (used_by_tasks f)) eqn:Em; [exact NU|].
    apply NoDup_app; [exact NU|repeat constructor; intros []|].
    intros y Hy [<-|[]]. apply mem_nat_In in Hy. congruence.
  - intros key'. split.
    + intros Hin.
      assert (Hor : In key' (filekeys f) \/ key' = key).
      { destruct (mem_str key (filekeys f)); [auto|].
        apply in_app_or in Hin. destruct Hin as [?|[<-|[]]]; auto. }
      destruct Hor as [Hk| ->].
      * apply K in Hk. destruct Hk as (o' & Ho' & P).
        exists o'. split; [apply in_or_app; auto|exact P].
      * exists (mkGomCall key name t u). split; [apply in_or_app; right; now left|].
        simpl. auto.
    + intros (o' & Ho' & P1 & P2). apply in_app_or in Ho'.
      destruct Ho' as [Ho'|[<-|[]]].
      * assert (Hk : In key' (filekeys f)) by (apply K; eauto).
        destruct (mem_str key (filekeys f)); [exact Hk|apply in_or_app; auto].
      * simpl in P2. subst key'.
        destruct (mem_str key (filekeys f)) eqn:Em;
          [now apply mem_str_In|apply in_or_app; right; now left].
  - intros x. split.
    + intros Hin.
      assert (Hor : In x (used_by_tasks f) \/ u = Some x).
      { destruct u as [y|]; [|auto].
        destruct (mem_nat y (used_by_tasks f)); [auto|].
        apply in_app_or in Hin. destruct Hin as [?|[<-|[]]]; auto. }
      destruct Hor as [Hk|Hk].
      * apply U in Hk. destruct Hk as (o' & Ho' & P).
        exists o'. split; [apply in_or_app; auto|exact P].
      * exists (mkGomCall key name t u). split; [apply in_or_app; right; now left|].
        simpl. auto.
    + intros (o' & Ho' & P1 & P2). apply in_app_or in Ho'.
      destruct Ho' as [Ho'|[<-|[]]].
      * assert (Hk : In x (used_by_tasks f)) by (apply U; eauto).
        destruct u as [y|]; [|exact Hk].
        destruct (mem_nat y (used_by_tasks f)); [exact Hk|apply in_or_app; auto].
      * simpl in P2. subst u.
        destruct (mem_nat x (used_by_tasks f)) eqn:Em;
          [now apply mem_nat_In|apply in_or_app; right; now left].
  - exists h1, o1, (h2 ++ [mkGomCall key name t u]). split; [|auto].
    rewrite E, <- app_assoc. reflexivity.
Qed.

(** One call of [get_or_make_file] extends the history by itself. *)
Lemma get_or_make_file_history h fs key name t u i fs' :
  gomf fs key name t u = Ok (i, fs') ->
  holds h fs -> holds (h ++ [mkGomCall key name t u]) fs'.
Proof.
  unfold get_or_make_file. intros H (ND & HF & HN).
  destruct (find_file name fs) as [j|] eqn:F.
  - inversion H; subst i fs'; clear H.
    destruct (find_file_Some _ _ _ F) as (f0 & Hf0 & Nf0).
    assert (En : names (update_at j (touch_file key u) fs) = names fs)
      by (apply names_update_at; intros f; apply touch_file_ext).
    split; [now rewrite En|]. split.
    + intros f' Hf'. apply in_update_at in Hf'.
      destruct Hf' as [(x & Hx & ->)|(k & Hk & Hx)].
      * assert (x = f0) by congruence. subst x.
        apply file_of_calls_touch; [|exact Nf0].
        apply HF. eapply nth_error_In; eauto.
      * apply file_of_calls_other; [apply HF; eapply nth_error_In; eauto|].
        simpl. intros E. apply Hk.
        apply (NoDup_names_index fs k j f' f0); auto. congruence.
    + intros o Ho. rewrite En. apply in_app_or in Ho.
      destruct Ho as [Ho|[<-|[]]]; [auto|].
      simpl. rewrite <- Nf0. apply in_map. eapply nth_error_In; eauto.
  - destruct (backend_md5sum name) as [md5|] eqn:Em; simpl in H; [|discriminate].
    destruct (backend_size name) as [sz|] eqn:Ez; simpl in H; [|discriminate].
    inversion H; subst i fs'; clear H.
    apply find_file_None in F.
    assert (En : names (fs ++ [new_GSFile key name md5 sz t u]) = names fs ++ [name])
      by (unfold names; now rewrite map_app).
    split; [|split].
    + rewrite En. apply NoDup_app; [exact ND|repeat constructor; intros []|].
      intros x Hx [<-|[]]. contradiction.
    + intros f' Hf'. apply in_app_or in Hf'. destruct Hf' as [Hf'|[<-|[]]].
      * apply file_of_calls_other; [now apply HF|].
        simpl. intros E. apply F. rewrite E. now apply in_map.
      * unfold file_of_calls, new_GSFile.
        cbn [filename filekeys task used_by_tasks md5sum size].
        split; [exact Em|]. split; [exact Ez|].
        split; [repeat constructor; intros []|].
        split; [destruct u; repeat constructor; intros []|].
        split; [|split].
        -- intros key'. split.
           ++ intros [<-|[]]. exists (mkGomCall key name t u).
              split; [apply in_or_app; right; now left|simpl; auto].
           ++ intros (o & Ho & P1 & P2). apply in_app_or in Ho.
              destruct Ho as [Ho|[<-|[]]]; [|simpl in P2; now left].
              exfalso. apply F. rewrite <- P1. now apply HN.
        -- intros x. split.
           ++ intros Hx. exists (mkGomCall key name t u).
              split; [apply in_or_app; right; now left|]. simpl. split; [auto|].
              destruct u as [y|]; [|destruct Hx]. destruct Hx as [<-|[]]. reflexivity.
           ++ intros (o & Ho & P1 & P2). apply in_app_or in Ho.
              destruct Ho as [Ho|[<-|[]]]; [|simpl in P2; subst u; now left].
              exfalso. apply F. rewrite <- P1. now apply HN.
        -- exists h, (mkGomCall key name t u), []. split; [reflexivity|].
           split; [reflexivity|]. split; [reflexivity|].
           intros o' Ho' E. apply F. rewrite <- E. now apply HN.
    + intros o Ho. rewrite En. apply in_or_app. apply in_app_or in Ho.
      destruct Ho as [Ho|[<-|[]]]; [left; now apply HN|right; now left].
Qed.

Lemma gom_pairs_history pairs : forall h fs t u ixs fs',
  gomp fs pairs t u = Ok (ixs, fs') ->
  holds h fs ->
  holds (h ++ map (fun p : string * string => mkGomCall (fst p) (snd p) t u) pairs) fs'.
Proof.
  induction pairs as [|[key name] pairs IH]; intros h fs t u ixs fs' H Hh; simpl in H.
  - inversion H; subst. simpl. now rewrite app_nil_r.
  - rbind_case H as [i fs1] eqn:E1. rbind_case H as [ixs2 fs2] eqn:E2.
    inversion H; subst ixs fs'; clear H. simpl in E2.
    apply (get_or_make_file_history h) in E1; [|exact Hh].
    apply (IH _ _ _ _ _ _ E2) in E1.
    simpl. rewrite <- app_assoc in E1. exact E1.
Qed.

Lemma make_output_files_history ts : forall i h fs ts' fs',
  make_output_files backend_md5sum backend_size i ts fs = Ok (ts', fs') ->
  holds h fs ->
  holds (h ++ output_calls i (map outputs ts)) fs' /\
  map outputs ts' = map outputs ts /\ map inputs ts' = map inputs ts /\
  map task_name ts' = map task_name ts /\
  map docker_image ts' = map docker_image ts.
Proof.
  induction ts as [|t rest IH]; intros i h fs ts' fs' H Hh; simpl in H.
  - inversion H; subst. simpl. rewrite app_nil_r. auto.
  - rewrite get_or_make_files_pairs in H.
    rbind_case H as [out fs1] eqn:E1. rbind_case H as [rest' fs2] eqn:E2.
    inversion H; subst ts' fs'; clear H.
    apply (gom_pairs_history _ h) in E1; [|exact Hh].
    destruct (IH _ _ _ _ _ E2 E1) as (I1 & I2 & I3 & I4 & I5).
    simpl. rewrite <- app_assoc in I1.
    split; [exact I1|]. repeat split; congruence.
Qed.

Lemma make_input_files_history ts : forall i h fs ts' fs',
  make_input_files backend_md5sum backend_size i ts fs = Ok (ts', fs') ->
  holds h fs ->
  holds (h ++ input_calls i (map inputs ts)) fs' /\
  map outputs ts' = map outputs ts /\ map inputs ts' = map inputs ts /\
  map task_name ts' = map task_name ts /\
  map docker_image ts' = map docker_image ts.
Proof.
  induction ts as [|t rest IH]; intros i h fs ts' fs' H Hh; simpl in H.
  - inversion H; subst. simpl. rewrite app_nil_r. auto.
  - rewrite get_or_make_files_pairs in H.
    rbind_case H as [out fs1] eqn:E1. rbind_case H as [rest' fs2] eqn:E2.
    inversion H; subst ts' fs'; clear H.
    apply (gom_pairs_history _ h) in E1; [|exact Hh].
    destruct (IH _ _ _ _ _ E2 E1) as (I1 & I2 & I3 & I4 & I5).
    simpl. rewrite <- app_assoc in I1.
    split; [exact I1|]. repeat split; congruence.
Qed.

(** The built graph holds what the calls of the two passes left. *)
Lemma make_tasks_history md a :
  make_tasks backend_md5sum backend_size md = Ok a ->
  holds (build_calls (tasks a)) (files a).
Proof.
  intros H. apply make_tasks_passes in H.
  destruct H as (ts0 & ts1 & fs1 & E0 & E1 & E2).
  assert (H0 : holds [] []).
  { split; [constructor|]. split; intros ? []. }
  destruct (make_output_files_history _ _ _ _ _ _ E1 H0) as (H1 & O1 & I1 & _).
  destruct (make_input_files_history _ _ _ _ _ _ E2 H1) as (H2 & O2 & I2 & _).
  unfold build_calls. rewrite O2, I2, O1. exact H2.
Qed.

End GraphHistoryFacts.

Lemma in_output_calls o secs : forall i,
  In o (output_calls i secs) <->
  exists k s, nth_error secs k = Some s /\
              In (gom_key o, gom_name o) (section_pairs s) /\
              gom_task o = Some (i + k) /\ gom_used_by o = None.
Proof.
  induction secs as [|s secs IH]; intros i; simpl.
  - split; [intros []|]. intros ([|k] & s & H & _); discriminate.
  - rewrite in_app_iff, IH. unfold section_calls. rewrite in_map_iff. split.
    + intros [([key name] & <- & Hp)|(k & s' & H1 & H2 & H3 & H4)].
      * exists 0, s. simpl. rewrite Nat.add_0_r. auto.
      * exists (S k), s'. simpl. replace (i + S k) with (S i + k) by lia. auto.
    + intros ([|k] & s' & H1 & H2 & H3 & H4); simpl in H1.
      * inversion H1; subst s'. left. exists (gom_key o, gom_name o).
        split; [|exact H2]. destruct o; simpl in *. rewrite Nat.add_0_r in H3.
        now rewrite H3, H4.
      * right. exists k, s'. replace (S i + k) with (i + S k) by lia. auto.
Qed.

Lemma in_input_calls o secs : forall i,
  In o (input_calls i secs) <->
  exists k s, nth_error secs k = Some s /\
              In (gom_key o, gom_name o) (section_pairs s) /\
              gom_task o = None /\ gom_used_by o = Some (i + k).
Proof.
  induction secs as [|s secs IH]; intros i; simpl.
  - split; [intros []|]. intros ([|k] & s & H & _); discriminate.
  - rewrite in_app_iff, IH. unfold section_calls. rewrite in_map_iff. split.
    + intros [([key name] & <- & Hp)|(k & s' & H1 & H2 & H3 & H4)].
      * exists 0, s. simpl. rewrite Nat.add_0_r. auto.
      * exists (S k), s'. simpl. replace (i + S k) with (S i + k) by lia. auto.
    + intros ([|k] & s' & H1 & H2 & H3 & H4); simpl in H1.
      * inversion H1; subst s'. left. exists (gom_key o, gom_name o).
        split; [|exact H2]. destruct o; simpl in *. rewrite Nat.add_0_r in H4.
        now rewrite H3, H4.
      * right. exists k, s'. replace (S i + k) with (i + S k) by lia. auto.
Qed.

Lemma nth_error_map_Some {A B} (g : A -> B) l k y :
  nth_error (map g l) k = Some y <-> exists x, nth_error l k = Some x /\ g x = y.
Proof.
  rewrite nth_error_map. destruct (nth_error l k) as [x|]; simpl; split.
  - intros H. inversion H. eauto.
  - intros (x' & E & <-). congruence.
  - discriminate.
  - intros (x' & E & _). discriminate.
Qed.

(** The calls of a build, read off the tasks. *)
Lemma in_build_calls ts o :
  In o (build_calls ts) <->
  exists k t, nth_error ts k = Some t /\
    ((In (gom_key o, gom_name o) (section_pairs (outputs t)) /\
      gom_task o = Some k /\ gom_used_by o = None) \/
     (In (gom_key o, gom_name o) (section_pairs (inputs t)) /\
      gom_task o = None /\ gom_used_by o = Some k)).
Proof.
  unfold build_calls. rewrite in_app_iff, in_output_calls, in_input_calls. split.
  - intros [(k & s & H1 & H2 & H3 & H4)|(k & s & H1 & H2 & H3 & H4)];
      apply nth_error_map_Some in H1; destruct H1 as (t & Ht & <-);
      exists k, t; simpl in *; auto.
  - intros (k & t & Ht & [(H2 & H3 & H4)|(H2 & H3 & H4)]).
    + left. exists k, (outputs t). split; [apply nth_error_map_Some; eauto|auto].
    + right. exists k, (inputs t). split; [apply nth_error_map_Some; eauto|auto].
Qed.

Lemma file_at_ext fs fs' i p : files_ext fs fs' -> file_at fs i p -> file_at fs' i p.
Proof.
  intros X (f & Hf & Hn & Hk). destruct (X i f Hf) as (f' & Hf' & N & _ & _ & K).
  exists f'. split; [exact Hf'|]. split; [congruence|]. apply K, Hk.
Qed.

Lemma Forall2_file_at_ext fs fs' ixs pairs :
  files_ext fs fs' -> Forall2 (file_at fs) ixs pairs -> Forall2 (file_at fs') ixs pairs.
Proof.
  intros X H. induction H; constructor; eauto using file_at_ext.
Qed.

Lemma Forall2_in_l {A B} (P : A -> B -> Prop) l1 l2 x :
  Forall2 P l1 l2 -> In x l1 -> exists y, In y l2 /\ P x y.
Proof.
  induction 1 as [|a b l1 l2 Hab H IH]; intros Hin; [destruct Hin|].
  destruct Hin as [<-|Hin].
  - exists b. split; [now left|exact Hab].
  - destruct (IH Hin) as (y & Hy & Py). exists y. split; [now right|exact Py].
Qed.

Lemma Forall2_in_r {A B} (P : A -> B -> Prop) l1 l2 y :
  Forall2 P l1 l2 -> In y l2 -> exists x, In x l1 /\ P x y.
Proof.
  induction 1 as [|a b l1 l2 Hab H IH]; intros Hin; [destruct Hin|].
  destruct Hin as [<-|Hin].
  - exists a. split; [now left|exact Hab].
  - destruct (IH Hin) as (x & Hx & Px). exists x. split; [now right|exact Px].
Qed.

(** A list of calls that comes before the first call of some kind holds
    none of that kind. *)
Lemma app_before_first {A} (l1 l2 h1 h2 : list A) o :
  l1 ++ l2 = h1 ++ o :: h2 -> ~ In o l1 -> incl l1 h1.
Proof.
  revert h1. induction l1 as [|x l1 IH]; intros h1 E Hn; [intros y []|].
  destruct h1 as [|y h1]; simpl in E; inversion E; subst.
  - exfalso. apply Hn. now left.
  - intros z [<-|Hz]; [now left|]. right. apply (IH h1); auto.
    intros Ho. apply Hn. now right.
Qed.

Section GraphLinks.

Variable backend_md5sum : string -> result string.
Variable backend_size : string -> result Z.

Local Abbreviation gomf := (get_or_make_file backend_md5sum backend_size).
Local Abbreviation gomp := (gom_pairs backend_md5sum backend_size).

Lemma gom_pairs_indices pairs : forall fs t u ixs fs',
  gomp fs pairs t u = Ok (ixs, fs') -> Forall2 (file_at fs') ixs pairs.
Proof.
  induction pairs as [|[key name] pairs IH]; intros fs t u ixs fs' H; simpl in H.
  - inversion H. constructor.
  - rbind_case H as [i fs1] eqn:E1. rbind_case H as [ixs2 fs2] eqn:E2.
    inversion H; subst ixs fs'; clear H. simpl in *.
    apply get_or_make_file_spec in E1. destruct E1 as (_ & (g & G1 & G2 & G3 & _) & _).
    pose proof (gom_pairs_spec _ _ _ _ _ _ _ _ E2) as (X & _).
    constructor; [|eapply IH; eauto].
    apply (file_at_ext fs1); [exact X|]. exists g. auto.
Qed.

Lemma make_output_files_lists ts : forall i fs ts' fs',
  make_output_files backend_md5sum backend_size i ts fs = Ok (ts', fs') ->
  files_ext fs fs' /\
  Forall (fun t' => Forall2 (file_at fs') (output_files t') (section_pairs (outputs t'))) ts' /\
  map input_files ts' = map input_files ts /\
  map inputs ts' = map inputs ts.
Proof.
  induction ts as [|t rest IH]; intros i fs ts' fs' H; simpl in H.
  - inversion H; subst. split; [apply files_ext_refl|]. split; [constructor|auto].
  - rewrite get_or_make_files_pairs in H.
    rbind_case H as [out fs1] eqn:E1. rbind_case H as [rest' fs2] eqn:E2.
    inversion H; subst ts' fs'; clear H.
    pose proof (gom_pairs_spec _ _ _ _ _ _ _ _ E1) as (X1 & _).
    apply gom_pairs_indices in E1.
    destruct (IH _ _ _ _ E2) as (X2 & F2 & I2 & J2).
    split; [eapply files_ext_trans; eauto|]. split; [|simpl; split; congruence].
    constructor; [|exact F2]. simpl. eapply Forall2_file_at_ext; eauto.
Qed.

Lemma make_input_files_lists ts : forall i fs ts' fs',
  make_input_files backend_md5sum backend_size i ts fs = Ok (ts', fs') ->
  files_ext fs fs' /\
  Forall (fun t' => Forall2 (file_at fs') (input_files t') (section_pairs (inputs t'))) ts' /\
  map output_files ts' = map output_files ts /\
  map outputs ts' = map outputs ts.
Proof.
  induction ts as [|t rest IH]; intros i fs ts' fs' H; simpl in H.
  - inversion H; subst. split; [apply files_ext_refl|]. split; [constructor|auto].
  - rewrite get_or_make_files_pairs in H.
    rbind_case H as [out fs1] eqn:E1. rbind_case H as [rest' fs2] eqn:E2.
    inversion H; subst ts' fs'; clear H.
    pose proof (gom_pairs_spec _ _ _ _ _ _ _ _ E1) as (X1 & _).
    apply gom_pairs_indices in E1.
    destruct (IH _ _ _ _ E2) as (X2 & F2 & I2 & J2).
    split; [eapply files_ext_trans; eauto|]. split; [|simpl; split; congruence].
    constructor; [|exact F2]. simpl. eapply Forall2_file_at_ext; eauto.
Qed.

(** The file lists of the tasks of a built graph, against their
    sections. *)
Lemma make_tasks_lists md a t :
  make_tasks backend_md5sum backend_size md = Ok a -> In t (tasks a) ->
  Forall2 (file_at (files a)) (output_files t) (section_pairs (outputs t)) /\
  Forall2 (file_at (files a)) (input_files t) (section_pairs (inputs t)).
Proof.
  intros H Ht. apply make_tasks_passes in H.
  destruct H as (ts0 & ts1 & fs1 & E0 & E1 & E2).
  destruct (make_output_files_lists _ _ _ _ _ E1) as (_ & F1 & _).
  destruct (make_input_files_lists _ _ _ _ _ E2) as (X2 & F2 & O2 & S2).
  split; [|revert t Ht; now apply Forall_forall].
  assert (F1' : Forall (fun x : list fid * dict =>
                          Forall2 (file_at (files a)) (fst x) (section_pairs (snd x)))
                       (map (fun t => (output_files t, outputs t)) ts1)).
  { apply Forall_map. revert F1. apply Forall_impl. intros t1.
    simpl. now apply Forall2_file_at_ext. }
  assert (Em : map (fun t => (output_files t, outputs t)) (tasks a) =
               map (fun t => (output_files t, outputs t)) ts1).
  { clear - O2 S2. revert ts1 O2 S2.
    induction (tasks a) as [|x l IH]; intros [|y l'] O S; simpl in *;
      try discriminate; auto.
    inversion O. inversion S. f_equal; try congruence; auto. }
  rewrite <- Em in F1'. apply Forall_map in F1'.
  revert t Ht. now apply Forall_forall.
Qed.

Lemma file_at_get_file a i p :
  file_at (files a) i p ->
  nth_error (files a) i = Some (get_file a i) /\
  filename (get_file a i) = snd p /\ In (fst p) (filekeys (get_file a i)).
Proof.
  intros (f & Hf & Hn & Hk). unfold get_file.
  rewrite (nth_error_nth _ _ _ Hf). auto.
Qed.

(** X9. The file lists of a task of the built graph follow its descriptor
    trees: [output_files] (and [input_files]) holds one entry per
    occurrence of a location in the output (input) tree, in the order of
    the tree; the entry is the file at that location, and the file carries
    the role-key of the occurrence. *)
Theorem make_tasks_file_lists md a t :
  make_tasks backend_md5sum backend_size md = Ok a -> In t (tasks a) ->
  map (fun i => filename (get_file a i)) (output_files t) = section_locations (outputs t) /\
  map (fun i => filename (get_file a i)) (input_files t) = section_locations (inputs t) /\
  Forall2 (fun i p => In (fst p) (filekeys (get_file a i)))
          (output_files t) (section_pairs (outputs t)) /\
  Forall2 (fun i p => In (fst p) (filekeys (get_file a i)))
          (input_files t) (section_pairs (inputs t)).
Proof.
  intros H Ht. destruct (make_tasks_lists md a t H Ht) as (Fo & Fi).
  unfold section_locations.
  split; [|split; [|split]].
  - induction Fo as [|i p ixs ps Hp _ IH]; simpl; [reflexivity|].
    destruct (file_at_get_file a i p Hp) as (_ & E & _). now rewrite E, IH.
  - induction Fi as [|i p ixs ps Hp _ IH]; simpl; [reflexivity|].
    destruct (file_at_get_file a i p Hp) as (_ & E & _). now rewrite E, IH.
  - induction Fo as [|i p ixs ps Hp _ IH]; constructor; auto.
    now apply file_at_get_file.
  - induction Fi as [|i p ixs ps Hp _ IH]; constructor; auto.
    now apply file_at_get_file.
Qed.

(** X5. Every file of the built graph records the md5sum and the size the
    storage backend returned for its location. *)
Theorem make_tasks_content_identity md a f :
  make_tasks backend_md5sum backend_size md = Ok a -> In f (files a) ->
  backend_md5sum (filename f) = Ok (md5sum f) /\
  backend_size (filename f) = Ok (size f).
Proof.
  intros H Hf. apply make_tasks_history in H. destruct H as (_ & HF & _).
  destruct (HF f Hf) as (M & Z & _). auto.
Qed.

Lemma in_filekeys_built md a f key :
  make_tasks backend_md5sum backend_size md = Ok a -> In f (files a) ->
  (In key (filekeys f) <->
   exists t, In t (tasks a) /\
             (In (key, filename f) (section_pairs (outputs t)) \/
              In (key, filename f) (section_pairs (inputs t)))).
Proof.
  intros H Hf. apply make_tasks_history in H. destruct H as (_ & HF & _).
  destruct (HF f Hf) as (_ & _ & _ & _ & K & _).
  rewrite K. split.
  - intros (o & Ho & <- & <-). apply in_build_calls in Ho.
    destruct Ho as (k & t & Ht & [(P & _)|(P & _)]);
      exists t; (split; [eapply nth_error_In; eauto|auto]).
  - intros (t & Ht & Hp). apply In_nth_error in Ht. destruct Ht as (k & Hk).
    destruct Hp as [Hp|Hp].
    + exists (mkGomCall key (filename f) (Some k) None).
      split; [|auto]. apply in_build_calls. exists k, t. simpl. auto.
    + exists (mkGomCall key (filename f) None (Some k)).
      split; [|auto]. apply in_build_calls. exists k, t. simpl. auto 6.
Qed.

Lemma in_consumers_built md a f k :
  make_tasks backend_md5sum backend_size md = Ok a -> In f (files a) ->
  (In k (used_by_tasks f) <->
   exists t, nth_error (tasks a) k = Some t /\
             In (filename f) (section_locations (inputs t))).
Proof.
  intros H Hf. apply make_tasks_history in H. destruct H as (_ & HF & _).
  destruct (HF f Hf) as (_ & _ & _ & _ & _ & U & _).
  rewrite U. split.
  - intros (o & Ho & <- & Hu). apply in_build_calls in Ho.
    destruct Ho as (k' & t & Ht & [(_ & _ & P)|(P & _ & Q)]);
      [rewrite P in Hu; discriminate Hu|].
    assert (k' = k) by (rewrite Q in Hu; now inversion Hu). subst k'.
    exists t. split; [exact Ht|]. apply in_section_locations. eauto.
  - intros (t & Ht & Hl). apply in_section_locations in Hl. destruct Hl as (key & Hp).
    exists (mkGomCall key (filename f) None (Some k)).
    split; [|auto]. apply in_build_calls. exists k, t. simpl. auto 6.
Qed.

(** X6. The role-keys of a file of the built graph are the keys under which
    its location occurs in the input or output tree of some task, each
    once. *)
Theorem make_tasks_filekeys md a f :
  make_tasks backend_md5sum backend_size md = Ok a -> In f (files a) ->
  NoDup (filekeys f) /\
  forall key, In key (filekeys f) <->
    exists t, In t (tasks a) /\
              (In (key, filename f) (section_pairs (outputs t)) \/
               In (key, filename f) (section_pairs (inputs t))).
Proof.
  intros H Hf. split; [|intros key; now apply (in_filekeys_built md)].
  apply make_tasks_history in H. destruct H as (_ & HF & _).
  now destruct (HF f Hf) as (_ & _ & NK & _).
Qed.

(** X7. The consumers of a file of the built graph are the tasks whose
    input tree holds its location, each once: a task that only writes the
    location is not among them. *)
Theorem make_tasks_consumers md a f :
  make_tasks backend_md5sum backend_size md = Ok a -> In f (files a) ->
  NoDup (used_by_tasks f) /\
  forall k, In k (used_by_tasks f) <->
    exists t, nth_error (tasks a) k = Some t /\
              In (filename f) (section_locations (inputs t)).
Proof.
  intros H Hf. split; [|intros k; now apply (in_consumers_built md)].
  apply make_tasks_history in H. destruct H as (_ & HF & _).
  now destruct (HF f Hf) as (_ & _ & _ & NU & _).
Qed.

(** The producer of a file, from the first call that named its
    location. *)
Lemma make_tasks_producer md a f :
  make_tasks backend_md5sum backend_size md = Ok a -> In f (files a) ->
  (task f = None /\
   forall t, In t (tasks a) -> ~ In (filename f) (section_locations (outputs t))) \/
  (exists k t, task f = Some k /\ nth_error (tasks a) k = Some t /\
               In (filename f) (section_locations (outputs t))).
Proof.
  intros H Hf. apply make_tasks_history in H. destruct H as (_ & HF & _).
  destruct (HF f Hf) as (_ & _ & _ & _ & _ & _ & (h1 & o & h2 & E & N & T & F)).
  assert (Ho : In o (build_calls (tasks a)))
    by (rewrite E; apply in_or_app; right; now left).
  apply in_build_calls in Ho.
  destruct Ho as (k & t & Ht & [(P & Q & _)|(P & Q & _)]).
  - right. exists k, t. split; [now rewrite <- T|]. split; [exact Ht|].
    apply in_section_locations. exists (gom_key o). now rewrite <- N.
  - left. split; [now rewrite <- T|]. intros t' Ht' Hl.
    apply in_section_locations in Hl. destruct Hl as (key & Hp).
    apply In_nth_error in Ht'. destruct Ht' as (k' & Hk').
    set (o' := mkGomCall key (filename f) (Some k') None).
    assert (Ho' : In o' (output_calls 0 (map outputs (tasks a)))).
    { apply in_output_calls. exists k', (outputs t'). simpl.
      split; [apply nth_error_map_Some; eauto|auto]. }
    assert (Hn : ~ In o (output_calls 0 (map outputs (tasks a)))).
    { intros Hin. apply in_output_calls in Hin.
      destruct Hin as (? & ? & _ & _ & Hin & _). rewrite Q in Hin. discriminate Hin. }
    apply (F o'); [|reflexivity].
    exact (app_before_first _ _ _ _ _ E Hn o' Ho').
Qed.

(** X8. A file of the built graph has no producer exactly when no task's
    output tree holds its location; so [raw_fastqs] lists the files that
    some task reads under the key [fastqs] and that no task writes. *)
Theorem make_tasks_raw_inputs md a :
  make_tasks backend_md5sum backend_size md = Ok a ->
  (forall f, In f (files a) ->
     (task f = None <->
      forall t, In t (tasks a) -> ~ In (filename f) (section_locations (outputs t)))) /\
  (forall i, In i (raw_fastqs a) <->
     exists f, nth_error (files a) i = Some f /\
       (exists t, In t (tasks a) /\ In ("fastqs", filename f) (section_pairs (inputs t))) /\
       (forall t, In t (tasks a) -> ~ In (filename f) (section_locations (outputs t)))).
Proof.
  intros H.
  assert (P1 : forall f, In f (files a) ->
     (task f = None <->
      forall t, In t (tasks a) -> ~ In (filename f) (section_locations (outputs t)))).
  { intros f Hf. destruct (make_tasks_producer md a f H Hf) as [(T & N)|(k & t & T & Ht & L)].
    - tauto.
    - split; [congruence|]. intros N. exfalso.
      apply (N t); [eapply nth_error_In; eauto|exact L]. }
  split; [exact P1|].
  intros i. unfold raw_fastqs. rewrite filter_In, in_seq, andb_true_iff, mem_str_In.
  split.
  - intros ((_ & Hi) & Hk & Hn). simpl in Hi.
    destruct (nth_error (files a) i) as [f|] eqn:Ef;
      [|apply nth_error_None in Ef; lia].
    unfold get_file in *. rewrite (nth_error_nth _ _ _ Ef) in *.
    assert (Hf : In f (files a)) by (eapply nth_error_In; eauto).
    assert (HN : forall t, In t (tasks a) ->
                           ~ In (filename f) (section_locations (outputs t))).
    { apply P1; auto. now destruct (task f). }
    exists f. split; [reflexivity|]. split; [|exact HN].
    apply (in_filekeys_built md a f _ H Hf) in Hk.
    destruct Hk as (t & Ht & [Hp|Hp]); [|eauto].
    exfalso. apply (HN t Ht). apply in_section_locations. eauto.
  - intros (f & Ef & (t & Ht & Hp) & HN).
    assert (Hf : In f (files a)) by (eapply nth_error_In; eauto).
    unfold get_file. rewrite (nth_error_nth _ _ _ Ef).
    split; [split; [lia|simpl; apply nth_error_Some; congruence]|]. split.
    + apply (in_filekeys_built md a f _ H Hf). eauto.
    + apply P1 in HN; auto. now rewrite HN.
Qed.

(** X10. The links of the built graph agree in both directions and none
    dangles: a task holds a file among its inputs exactly when the file
    holds the task among its consumers; the producer of a file holds the
    file among its outputs, and a file among the outputs of a task has a
    producer; every index held is that of an object of the graph. *)
Theorem make_tasks_links md a :
  make_tasks backend_md5sum backend_size md = Ok a ->
  well_formed a /\
  forall k t i f,
    nth_error (tasks a) k = Some t -> nth_error (files a) i = Some f ->
    (In i (input_files t) <-> In k (used_by_tasks f)) /\
    (task f = Some k -> In i (output_files t)) /\
    (In i (output_files t) -> exists j, task f = Some j).
Proof.
  intros H.
  pose proof (make_tasks_history _ _ md a H) as (ND & _ & _).
  assert (Hsame : forall i i' f p, nth_error (files a) i = Some f ->
                    file_at (files a) i' p -> filename f = snd p -> i' = i).
  { intros i i' f p Hf (f' & Hf' & N' & _) E.
    apply (NoDup_names_index (files a) i' i f' f); auto. congruence. }
  assert (Hin : forall ixs sec i f, nth_error (files a) i = Some f ->
                  Forall2 (file_at (files a)) ixs (section_pairs sec) ->
                  (In i ixs <-> In (filename f) (section_locations sec))).
  { intros ixs sec i f Hf F. split.
    - intros Hi. destruct (Forall2_in_l _ _ _ _ F Hi) as (p & Hp & (f' & Hf' & N' & _)).
      replace (filename f) with (snd p) by congruence.
      now apply in_map.
    - intros Hl. apply in_map_iff in Hl. destruct Hl as (p & E & Hp).
      destruct (Forall2_in_r _ _ _ _ F Hp) as (i' & Hi' & Hat).
      now rewrite <- (Hsame i i' f p Hf Hat (eq_sym E)). }
  split.
  - split.
    + intros t i Ht Hi. destruct (make_tasks_lists md a t H Ht) as (Fo & Fi).
      destruct Hi as [Hi|Hi];
        [destruct (Forall2_in_l _ _ _ _ Fi Hi) as (p & _ & (f & Hf & _))
        |destruct (Forall2_in_l _ _ _ _ Fo Hi) as (p & _ & (f & Hf & _))];
        apply nth_error_Some; congruence.
    + intros f k Hf [Hk|Hk].
      * destruct (make_tasks_producer md a f H Hf) as [(T & _)|(k' & t & T & Ht & _)];
          [congruence|].
        assert (k' = k) by congruence. subst k'. apply nth_error_Some. congruence.
      * apply (in_consumers_built md a f _ H Hf) in Hk. destruct Hk as (t & Ht & _).
        apply nth_error_Some. congruence.
  - intros k t i f Ht Hf.
    assert (Ht' : In t (tasks a)) by (eapply nth_error_In; eauto).
    assert (Hf' : In f (files a)) by (eapply nth_error_In; eauto).
    destruct (make_tasks_lists md a t H Ht') as (Fo & Fi).
    split; [|split].
    + rewrite (Hin _ _ i f Hf Fi).
      rewrite (in_consumers_built md a f k H Hf'). split.
      * intros Hl. eauto.
      * intros (t' & Ht2 & Hl). congruence.
    + intros T. apply (Hin _ _ i f Hf Fo).
      destruct (make_tasks_producer md a f H Hf') as [(T' & _)|(k' & t' & T' & Ht2 & L)];
        congruence.
    + intros Hi. apply (Hin _ _ i f Hf Fo) in Hi.
      destruct (make_tasks_producer md a f H Hf') as [(_ & N)|(k' & t' & T' & _)];
        [|eauto].
      exfalso. exact (N t Ht' Hi).
Qed.

End GraphLinks.

Lemma make_task_list_entries key cs ts :
  make_task_list key cs = Ok ts -> Forall2 task_of_entry ts (map (pair key) cs).
Proof.
  revert ts. induction cs as [|c cs IH]; intros ts H; simpl in H.
  - inversion H. constructor.
  - rbind_case H as t eqn:E1. rbind_case H as ts1 eqn:E2.
    inversion H; subst ts. simpl. constructor; [|now apply IH].
    unfold make_task, py_index in E1.
    destruct (nth_error (split "." key) 1) as [n|] eqn:En; simpl in E1; [|discriminate E1].
    destruct (call_inputs c) as [i|] eqn:Ei; simpl in E1; [|discriminate E1].
    destruct (call_outputs c) as [o|] eqn:Eo; simpl in E1; [|discriminate E1].
    inversion E1; subst t. unfold task_of_entry. simpl. auto.
Qed.

Lemma make_all_tasks_entries cl ts :
  make_all_tasks cl = Ok ts ->
  Forall2 task_of_entry ts
          (flat_map (fun kc : string * list Call => map (pair (fst kc)) (snd kc)) cl).
Proof.
  revert ts. induction cl as [|[key cs] cl IH]; intros ts H; simpl in H.
  - inversion H. constructor.
  - rbind_case H as ts1 eqn:E1. rbind_case H as ts2 eqn:E2.
    inversion H; subst ts. simpl. apply Forall2_app; [|now apply IH].
    now apply make_task_list_entries.
Qed.

Lemma make_task_list_total key cs :
  (cs <> [] -> exists n, nth_error (split "." key) 1 = Some n) ->
  (forall c, In c cs -> has_sections c = true) ->
  exists ts, make_task_list key cs = Ok ts.
Proof.
  intros H. destruct cs as [|c0 cs0]; [exists []; reflexivity|].
  destruct H as (n & En); [discriminate|].
  induction (c0 :: cs0) as [|c cs IH]; intros Hs; simpl; [eauto|].
  destruct IH as (ts & ->); [intros c' Hc'; apply Hs; now right|].
  specialize (Hs c (or_introl eq_refl)). unfold has_sections in Hs.
  unfold make_task, py_index. rewrite En. simpl.
  destruct (call_inputs c) as [i|]; [|discriminate Hs].
  destruct (call_outputs c) as [o|]; [|discriminate Hs].
  simpl. eauto.
Qed.

Lemma make_all_tasks_total cl :
  (forall key cs, In (key, cs) cl -> cs <> [] ->
                  exists n, nth_error (split "." key) 1 = Some n) ->
  (forall key cs c, In (key, cs) cl -> In c cs -> has_sections c = true) ->
  exists ts, make_all_tasks cl = Ok ts.
Proof.
  induction cl as [|[key cs] cl IH]; intros H Hs; simpl; [eauto|].
  destruct (make_task_list_total key cs) as (ts1 & ->).
  { apply H. now left. }
  { intros c. apply (Hs key cs c). now left. }
  destruct IH as (ts2 & ->); [| |simpl; eauto].
  - intros k c Hin. apply H. now right.
  - intros k cs' c Hin. apply (Hs k cs' c). now right.
Qed.

Lemma make_task_list_sections key cs ts c :
  make_task_list key cs = Ok ts -> In c cs -> has_sections c = true.
Proof.
  revert ts. induction cs as [|c' cs IH]; intros ts H Hin; [destruct Hin|].
  simpl in H. rbind_case H as t eqn:E1. rbind_case H as ts1 eqn:E2.
  destruct Hin as [->|Hin]; [|eauto].
  unfold make_task in E1. rbind_case E1 as n eqn:En.
  unfold has_sections.
  destruct (call_inputs c) as [i|]; [|discriminate E1].
  destruct (call_outputs c) as [o|]; [reflexivity|discriminate E1].
Qed.

Lemma make_all_tasks_sections cl ts key cs c :
  make_all_tasks cl = Ok ts -> In (key, cs) cl -> In c cs -> has_sections c = true.
Proof.
  revert ts. induction cl as [|[key' cs'] cl IH]; intros ts H Hin Hc; [destruct Hin|].
  simpl in H. rbind_case H as ts1 eqn:E1. rbind_case H as ts2 eqn:E2.
  destruct Hin as [E|Hin]; [|eauto].
  inversion E; subst key' cs'. exact (make_task_list_sections key cs ts1 c E1 Hc).
Qed.

Lemma make_all_tasks_keys cl ts key cs :
  make_all_tasks cl = Ok ts -> In (key, cs) cl -> cs <> [] ->
  exists n, nth_error (split "." key) 1 = Some n.
Proof.
  revert ts. induction cl as [|[key' cs'] cl IH]; intros ts H Hin Hne; [destruct Hin|].
  simpl in H. rbind_case H as ts1 eqn:E1. rbind_case H as ts2 eqn:E2.
  destruct Hin as [E|Hin]; [|eauto].
  inversion E; subst key' cs'. destruct cs as [|c cs]; [congruence|].
  simpl in E1. unfold make_task, py_index in E1.
  destruct (nth_error (split "." key) 1) as [n|]; [eauto|discriminate E1].
Qed.

Section GraphReturns.

Variable backend_md5sum : string -> result string.
Variable backend_size : string -> result Z.

Local Abbreviation gomf := (get_or_make_file backend_md5sum backend_size).
Local Abbreviation gomp := (gom_pairs backend_md5sum backend_size).
Local Abbreviation answers := (backend_answers backend_md5sum backend_size).

Lemma gom_pairs_total pairs : forall fs t u,
  (forall p, In p pairs -> answers (snd p)) ->
  exists r, gomp fs pairs t u = Ok r.
Proof.
  induction pairs as [|[key name] pairs IH]; intros fs t u H; simpl; [eauto|].
  assert (E1 : exists r1, gomf fs key name t u = Ok r1).
  { unfold get_or_make_file. destruct (find_file name fs); [eauto|].
    destruct (H (key, name) (or_introl eq_refl)) as ((md5 & Em) & (sz & Ez)).
    simpl in Em, Ez. rewrite Em. simpl. rewrite Ez. simpl. eauto. }
  destruct E1 as (r1 & ->). simpl.
  destruct (IH (snd r1) t u) as (r2 & ->); [|simpl; eauto].
  intros p Hp. apply H. now right.
Qed.

Lemma make_output_files_total ts : forall i fs,
  (forall t loc, In t ts -> In loc (section_locations (outputs t)) -> answers loc) ->
  exists r, make_output_files backend_md5sum backend_size i ts fs = Ok r.
Proof.
  induction ts as [|t rest IH]; intros i fs H; simpl; [eauto|].
  rewrite get_or_make_files_pairs.
  destruct (gom_pairs_total (section_pairs (outputs t)) fs (Some i) None) as ([out fs1] & ->).
  { intros p Hp. apply (H t); [now left|]. now apply in_map. }
  simpl. destruct (IH (S i) fs1) as ([rest' fs2] & ->); [|simpl; eauto].
  intros t' loc Ht'. apply H. now right.
Qed.

Lemma make_input_files_total ts : forall i fs,
  (forall t loc, In t ts -> In loc (section_locations (inputs t)) -> answers loc) ->
  exists r, make_input_files backend_md5sum backend_size i ts fs = Ok r.
Proof.
  induction ts as [|t rest IH]; intros i fs H; simpl; [eauto|].
  rewrite get_or_make_files_pairs.
  destruct (gom_pairs_total (section_pairs (inputs t)) fs None (Some i)) as ([out fs1] & ->).
  { intros p Hp. apply (H t); [now left|]. now apply in_map. }
  simpl. destruct (IH (S i) fs1) as ([rest' fs2] & ->); [|simpl; eauto].
  intros t' loc Ht'. apply H. now right.
Qed.

Lemma in_map_eq {A B} (g : A -> B) l l' x :
  map g l = map g l' -> In x l -> exists x', In x' l' /\ g x' = g x.
Proof.
  intros E Hx. apply (in_map g) in Hx. rewrite E in Hx.
  apply in_map_iff in Hx. destruct Hx as (x' & E' & Hx'). eauto.
Qed.

(** The tasks of a built graph keep what [make_task] read off the calls. *)
Lemma make_tasks_sections md a :
  make_tasks backend_md5sum backend_size md = Ok a ->
  exists ts0, make_all_tasks (calls md) = Ok ts0 /\
    map outputs (tasks a) = map outputs ts0 /\ map inputs (tasks a) = map inputs ts0 /\
    map task_name (tasks a) = map task_name ts0 /\
    map docker_image (tasks a) = map docker_image ts0.
Proof.
  intros H. apply make_tasks_passes in H.
  destruct H as (ts0 & ts1 & fs1 & E0 & E1 & E2).
  assert (H0 : files_of_calls backend_md5sum backend_size [] []).
  { split; [constructor|]. split; intros ? []. }
  destruct (make_output_files_history _ _ _ _ _ _ _ _ E1 H0) as (H1 & O1 & I1 & N1 & D1).
  destruct (make_input_files_history _ _ _ _ _ _ _ _ E2 H1) as (H2 & O2 & I2 & N2 & D2).
  exists ts0. split; [exact E0|]. repeat split; congruence.
Qed.


(** X3. The tasks of the built graph are the calls of the run metadata,
    one task per call in the order of the document; a task takes its name
    from the second dot-separated component of its call key, and its
    sections and docker image from the call. *)
Theorem make_tasks_task_list md a :
  make_tasks backend_md5sum backend_size md = Ok a ->
  Forall2 task_of_entry (tasks a) (call_entries md).
Proof.
  intros H. destruct (make_tasks_sections md a H) as (ts0 & E0 & O & I & N & D).
  apply make_all_tasks_entries in E0. fold (call_entries md) in E0.
  revert O I N D. generalize (tasks a). revert E0. generalize (call_entries md).
  intros es. revert es. induction ts0 as [|t0 ts0 IH]; intros es F [|t ts] O I N D;
    simpl in *; try discriminate.
  - inversion F. constructor.
  - inversion F as [|? e ? es' He Hr]; subst.
    inversion O. inversion I. inversion N. inversion D.
    constructor; [|now apply IH].
    destruct He as (A1 & A2 & A3 & A4). unfold task_of_entry.
    repeat split; congruence.
Qed.

End GraphReturns.

(** ** Lineage search: what a finished search has yielded *)

Lemma raised_gen_seq_None {A} (g1 g2 : gen A) :
  raised (gen_seq g1 g2) = None <-> raised g1 = None /\ raised g2 = None.
Proof.
  unfold gen_seq. destruct (raised g1) eqn:E; simpl.
  - rewrite E. split; [discriminate|intros (H & _); discriminate H].
  - tauto.
Qed.

Lemma yielded_gen_seq_None {A} (g1 g2 : gen A) :
  raised g1 = None -> yielded (gen_seq g1 g2) = yielded g1 ++ yielded g2.
Proof. unfold gen_seq. now intros ->. Qed.

Lemma raised_gen_for_None {A B} (l : list A) (body : A -> gen B) :
  raised (gen_for l body) = None <-> forall x, In x l -> raised (body x) = None.
Proof.
  induction l as [|x l IH]; simpl.
  - split; [intros _ x []|reflexivity].
  - rewrite raised_gen_seq_None, IH. split.
    + intros (H1 & H2) y [<-|Hy]; auto.
    + intros H. split; [apply H; now left|]. intros y Hy. apply H. now right.
Qed.

Lemma yielded_gen_for_None {A B} (l : list A) (body : A -> gen B) x y :
  raised (gen_for l body) = None -> In x l -> In y (yielded (body x)) ->
  In y (yielded (gen_for l body)).
Proof.
  induction l as [|x' l IH]; simpl; intros R Hx Hy; [destruct Hx|].
  apply raised_gen_seq_None in R. destruct R as (R1 & R2).
  rewrite yielded_gen_seq_None by exact R1. apply in_or_app.
  destruct Hx as [->|Hx]; [now left|right; auto].
Qed.

Lemma gen_for_ext {A B} (l : list A) (body body' : A -> gen B) :
  (forall x, In x l -> body' x = body x) -> gen_for l body' = gen_for l body.
Proof.
  induction l as [|x l IH]; intros H; simpl; [reflexivity|].
  rewrite H by now left. rewrite IH; [reflexivity|]. intros y Hy. apply H. now right.
Qed.

Lemma in_consumers_of a t c :
  (exists f, In f (output_files (get_task a t)) /\ In c (used_by_tasks (get_file a f))) ->
  exists users,
    reduce_concat (map (fun x => used_by_tasks (get_file a x))
                       (output_files (get_task a t))) = Ok users /\
    In c (nodup Nat.eq_dec users).
Proof.
  intros (f & Hf & Hc).
  destruct (output_files (get_task a t)) as [|g gs] eqn:Eo; [destruct Hf|].
  simpl. eexists. split; [reflexivity|].
  apply nodup_In, in_fold_left_app. destruct Hf as [->|Hf]; auto.
  right. exists (used_by_tasks (get_file a f)). split; auto.
  apply in_map_iff. eauto.
Qed.

Lemma search_up_S a d t name key via :
  search_up a (S d) t name key via =
  gen_seq
    (gen_yield
       (if String.eqb name (task_name (get_task a t))
        then filter (has_filekey a key)
                    (if via then input_files (get_task a t)
                     else output_files (get_task a t))
        else []))
    (gen_for (nodup opt_tid_dec
                    (map (fun x => task (get_file a x)) (input_files (get_task a t))))
             (fun task_item =>
                match task_item with
                | Some t' => search_up a d t' name key via
                | None => gen_yield []
                end)).
Proof. reflexivity. Qed.

Lemma search_down_S a d t name key :
  search_down a (S d) t name key =
  gen_seq
    (gen_yield
       (if String.eqb name (task_name (get_task a t))
        then filter (has_filekey a key) (output_files (get_task a t))
        else []))
    (match reduce_concat (map (fun x => used_by_tasks (get_file a x))
                              (output_files (get_task a t))) with
     | Raise e => gen_raise e
     | Ok users =>
         gen_for (nodup Nat.eq_dec users)
                 (fun task_item => search_down a d task_item name key)
     end).
Proof. reflexivity. Qed.

Lemma in_producers_of a t f p :
  In f (input_files (get_task a t)) -> task (get_file a f) = Some p ->
  In (Some p) (nodup opt_tid_dec
                     (map (fun x => task (get_file a x)) (input_files (get_task a t)))).
Proof. intros Hf Hp. apply nodup_In, in_map_iff. eauto. Qed.

(** X13. A lineage search that ends normally has yielded every file it was
    asked for: each output (input, with [via_inputs]) that carries the
    role-key, of each task of the target name that is the start task or
    reached from it along producer edges (consumer edges, for
    [search_down]); with what the search never yields otherwise, its yield
    is exactly that set. *)
Theorem search_complete a depth t name key :
  (forall via,
     raised (search_up a depth t name key via) = None ->
     forall f, In f (yielded (search_up a depth t name key via)) <->
       In key (filekeys (get_file a f)) /\
       exists t', up_reach a t t' /\ task_name (get_task a t') = name /\
                  In f (if via then input_files (get_task a t')
                        else output_files (get_task a t'))) /\
  (raised (search_down a depth t name key) = None ->
   forall f, In f (yielded (search_down a depth t name key)) <->
     In key (filekeys (get_file a f)) /\
     exists t', down_reach a t t' /\ task_name (get_task a t') = name /\
                In f (output_files (get_task a t'))).
Proof.
  split.
  - intros via R f. split; [apply search_up_sound|].
    intros (K & t' & Hr & N & I). revert depth R.
    induction Hr as [t|t g p t' Hg Hp Hr IH]; intros [|d] R;
      try discriminate R; rewrite search_up_S in *;
      apply raised_gen_seq_None in R; destruct R as (_ & R);
      rewrite yielded_gen_seq_None by reflexivity; apply in_or_app.
    + left. simpl. rewrite <- N, String.eqb_refl.
      apply filter_In. split; [exact I|]. now apply mem_str_In.
    + right. pose proof (in_producers_of a t g p Hg Hp) as Hin.
      apply (yielded_gen_for_None _ _ (Some p)); [exact R|exact Hin|].
      apply IH; auto.
      exact (proj1 (raised_gen_for_None _ _) R (Some p) Hin).
  - intros R f. split; [apply search_down_sound|].
    intros (K & t' & Hr & N & I). revert depth R.
    induction Hr as [t|t g c t' Hg Hc Hr IH]; intros [|d] R;
      try discriminate R; rewrite search_down_S in *;
      apply raised_gen_seq_None in R; destruct R as (_ & R);
      rewrite yielded_gen_seq_None by reflexivity; apply in_or_app.
    + left. simpl. rewrite <- N, String.eqb_refl.
      apply filter_In. split; [exact I|]. now apply mem_str_In.
    + right. destruct (in_consumers_of a t c) as (users & E & Hin); [eauto|].
      rewrite E in *.
      apply (yielded_gen_for_None _ _ c); [exact R|exact Hin|].
      apply IH; auto.
      exact (proj1 (raised_gen_for_None _ _) R c Hin).
Qed.

(** X14. Once a lineage search has ended normally within some recursion
    depth, a larger depth gives the same generator: the result does not
    depend on the recursion limit beyond the depth the search needs. *)
Theorem search_depth_independent a name key d :
  forall t d', d <= d' ->
  (forall via,
     raised (search_up a d t name key via) = None ->
     search_up a d' t name key via = search_up a d t name key via) /\
  (raised (search_down a d t name key) = None ->
   search_down a d' t name key = search_down a d t name key).
Proof.
  induction d as [|d IH]; intros t d' Hle; [split; [intros via|]; discriminate|].
  destruct d' as [|d']; [lia|]. assert (Hle' : d <= d') by lia. split.
  - intros via R. rewrite !search_up_S in *.
    apply raised_gen_seq_None in R. destruct R as (_ & R). f_equal.
    apply gen_for_ext. intros [p|] Hp; [|reflexivity].
    apply (IH p d' Hle').
    exact (proj1 (raised_gen_for_None _ _) R (Some p) Hp).
  - intros R. rewrite !search_down_S in *.
    apply raised_gen_seq_None in R. destruct R as (_ & R). f_equal.
    destruct (reduce_concat _) as [users|e]; [|reflexivity].
    apply gen_for_ext. intros c Hc.
    apply (IH c d' Hle').
    exact (proj1 (raised_gen_for_None _ _) R c Hc).
Qed.

Lemma up_ranked_sound a rank :
  up_ranked a rank = true ->
  forall t f p, In f (input_files (get_task a t)) -> task (get_file a f) = Some p ->
                rank p < rank t.
Proof.
  unfold up_ranked. rewrite forallb_forall. intros H t f p Hf Hp.
  destruct (Nat.lt_ge_cases t (List.length (tasks a))) as [Hlt|Hge].
  - assert (Ht : In t (seq 0 (List.length (tasks a)))) by (apply in_seq; lia).
    specialize (H t Ht). rewrite forallb_forall in H. specialize (H f Hf).
    rewrite Hp in H. now apply Nat.ltb_lt.
  - unfold get_task in Hf. rewrite nth_overflow in Hf by exact Hge. destruct Hf.
Qed.

Lemma down_ranked_sound a rank :
  down_ranked a rank = true ->
  (forall t, t < List.length (tasks a) -> output_files (get_task a t) <> []) /\
  (forall t f c, In f (output_files (get_task a t)) ->
                 In c (used_by_tasks (get_file a f)) ->
                 rank c < rank t /\ c < List.length (tasks a)).
Proof.
  unfold down_ranked. rewrite forallb_forall. intros H. split.
  - intros t Hlt E.
    assert (Ht : In t (seq 0 (List.length (tasks a)))) by (apply in_seq; lia).
    specialize (H t Ht). rewrite E in H. discriminate H.
  - intros t f c Hf Hc.
    destruct (Nat.lt_ge_cases t (List.length (tasks a))) as [Hlt|Hge].
    + assert (Ht : In t (seq 0 (List.length (tasks a)))) by (apply in_seq; lia).
      specialize (H t Ht).
      destruct (output_files (get_task a t)) as [|g gs]; [destruct Hf|].
      rewrite forallb_forall in H. specialize (H f Hf).
      rewrite forallb_forall in H. specialize (H c Hc).
      apply andb_prop in H. destruct H as (H1 & H2).
      split; now apply Nat.ltb_lt.
    + unfold get_task in Hf. rewrite nth_overflow in Hf by exact Hge. destruct Hf.
Qed.

(** X15. On a graph whose producer edges all lower a rank, [search_up]
    from a task ends without an exception as soon as the recursion depth
    exceeds the rank of the task; so does [search_down] on a graph whose
    consumer edges all lower a rank and lead to tasks of the graph, and
    whose tasks all have an output file. *)
Theorem search_ends_on_ranked_graph a rank name key depth t :
  rank t < depth ->
  (up_ranked a rank = true ->
   forall via, raised (search_up a depth t name key via) = None) /\
  (down_ranked a rank = true -> t < List.length (tasks a) ->
   raised (search_down a depth t name key) = None).
Proof.
  intros Hlt. split.
  - intros Hr via. pose proof (up_ranked_sound a rank Hr) as Hrank.
    revert t Hlt. induction depth as [|d IH]; intros t Hlt; [lia|].
    rewrite search_up_S. apply raised_gen_seq_None. split; [reflexivity|].
    apply raised_gen_for_None. intros [p|] Hp; [|reflexivity].
    apply IH. apply nodup_In, in_map_iff in Hp. destruct Hp as (f & Hp & Hf).
    specialize (Hrank t f p Hf Hp). lia.
  - intros Hr Ht. destruct (down_ranked_sound a rank Hr) as (Hne & Hrank).
    revert t Hlt Ht. induction depth as [|d IH]; intros t Hlt Ht; [lia|].
    rewrite search_down_S. apply raised_gen_seq_None. split; [reflexivity|].
    specialize (Hne t Ht).
    destruct (output_files (get_task a t)) as [|g gs] eqn:Eo; [congruence|].
    cbn [map reduce_concat]. apply raised_gen_for_None. intros c Hc.
    apply nodup_In, in_fold_left_app in Hc.
    assert (Hf : exists f, In f (output_files (get_task a t)) /\
                           In c (used_by_tasks (get_file a f))).
    { rewrite Eo. destruct Hc as [Hc|(l' & Hl' & Hc)]; [exists g; split; [now left|auto]|].
      apply in_map_iff in Hl'. destruct Hl' as (g' & <- & Hg').
      exists g'. split; [now right|auto]. }
    destruct Hf as (f & Hf & Hc').
    destruct (Hrank t f c Hf Hc') as (R1 & R2).
    apply IH; [lia|exact R2].
Qed.

Lemma down_reach_snoc a x y f z :
  down_reach a x y -> In f (output_files (get_task a y)) ->
  In z (used_by_tasks (get_file a f)) -> down_reach a x z.
Proof.
  induction 1 as [t|t g c t' Hg Hc R IH]; intros Hf Hz.
  - eapply down_step; eauto. constructor.
  - eapply down_step; eauto.
Qed.

Lemma up_reach_snoc a x y f z :
  up_reach a x y -> In f (input_files (get_task a y)) ->
  task (get_file a f) = Some z -> up_reach a x z.
Proof.
  induction 1 as [t|t g c t' Hg Hc R IH]; intros Hf Hz.
  - eapply up_step; eauto. constructor.
  - eapply up_step; eauto.
Qed.

(** [search_down] from a task that one of its own consumers leads back
    to. *)
Lemma search_down_on_cycle a name key depth : forall t f c,
  In f (output_files (get_task a t)) -> In c (used_by_tasks (get_file a f)) ->
  down_reach a c t ->
  raised (search_down a depth t name key) <> None.
Proof.
  induction depth as [|d IH]; intros t f c Hf Hc Hr; [discriminate|].
  rewrite search_down_S. intros R. apply raised_gen_seq_None in R. destruct R as (_ & R).
  destruct (in_consumers_of a t c) as (users & E & Hin); [eauto|].
  rewrite E in R.
  assert (Rc := proj1 (raised_gen_for_None _ _) R c Hin). revert Rc.
  inversion Hr as [|? g c' ? Hg Hc' Hr']; subst.
  - now apply (IH t f t).
  - apply (IH c g c'); auto. eapply down_reach_snoc; eauto.
Qed.

(** X16. On a cycle the lineage search never ends normally: [search_up] from
    a task that the producer of one of its inputs leads back to, and
    [search_down] from a task that a consumer of one of its outputs leads
    back to, end in an exception at every recursion depth. *)
Theorem search_on_cycle_raises a name key t f :
  (forall p via,
     In f (input_files (get_task a t)) -> task (get_file a f) = Some p ->
     up_reach a p t ->
     forall depth, raised (search_up a depth t name key via) <> None) /\
  (forall c,
     In f (output_files (get_task a t)) -> In c (used_by_tasks (get_file a f)) ->
     down_reach a c t ->
     forall depth, raised (search_down a depth t name key) <> None).
Proof.
  split.
  - intros p via Hf Hp Hr depth. revert t f p Hf Hp Hr.
    induction depth as [|d IH]; intros t f p Hf Hp Hr; [discriminate|].
    rewrite search_up_S. intros R. apply raised_gen_seq_None in R. destruct R as (_ & R).
    assert (Rp := proj1 (raised_gen_for_None _ _) R (Some p) (in_producers_of a t f p Hf Hp)).
    revert Rp. inversion Hr as [|? g p' ? Hg Hp' Hr']; subst.
    + now apply (IH t f t).
    + apply (IH p g p'); auto. eapply up_reach_snoc; eauto.
  - intros c Hf Hc Hr depth. now apply (search_down_on_cycle a name key depth t f c).
Qed.

Section SearchOnBuiltGraph.

Variable backend_md5sum : string -> result string.
Variable backend_size : string -> result Z.

(** X17. When a task of the run lists one location both in its input tree
    and in its output tree, [search_down] from that task in the built graph
    ends in an exception at every recursion depth: the task is a consumer
    of its own output. *)
Theorem search_down_pass_through_raises md a k t loc name key depth :
  make_tasks backend_md5sum backend_size md = Ok a ->
  nth_error (tasks a) k = Some t ->
  In loc (section_locations (inputs t)) -> In loc (section_locations (outputs t)) ->
  raised (search_down a depth k name key) <> None.
Proof.
  intros H Ht Hi Ho.
  assert (Ht' : In t (tasks a)) by (eapply nth_error_In; eauto).
  destruct (make_tasks_lists _ _ md a t H Ht') as (Fo & _).
  apply in_map_iff in Ho. destruct Ho as (p & Ep & Hp).
  destruct (Forall2_in_r _ _ _ _ Fo Hp) as (i & Hio & (f & Hf & Nf & _)).
  assert (Eg : get_task a k = t) by (unfold get_task; now apply nth_error_nth).
  assert (Ef : get_file a i = f) by (unfold get_file; now apply nth_error_nth).
  apply (search_down_on_cycle a name key depth k i k).
  - now rewrite Eg.
  - rewrite Ef. apply (in_consumers_built _ _ md a f k H); [eapply nth_error_In; eauto|].
    exists t. split; [exact Ht|]. congruence.
  - constructor.
Qed.

End SearchOnBuiltGraph.

Lemma raw_fastq_inputs_S a d file :
  raw_fastq_inputs a (S d) file =
  gen_seq
    (gen_yield (if is_raw_fastq a file then [file] else []))
    (match task (get_file a file) with
     | Some t => gen_for (input_files (get_task a t))
                         (fun input_file => raw_fastq_inputs a d input_file)
     | None => gen_yield []
     end).
Proof. reflexivity. Qed.

Lemma raw_fastq_inputs_sound a depth : forall file g,
  In g (yielded (raw_fastq_inputs a depth file)) ->
  is_raw_fastq a g = true /\ input_reach a file g.
Proof.
  induction depth as [|d IH]; intros file g H; [destruct H|].
  rewrite raw_fastq_inputs_S in H. apply yielded_gen_seq in H. destruct H as [H|H].
  - simpl in H. destruct (is_raw_fastq a file) eqn:E; [|destruct H].
    destruct H as [<-|[]]. split; [exact E|constructor].
  - destruct (task (get_file a file)) as [t|] eqn:Et; [|destruct H].
    apply yielded_gen_for in H. destruct H as (x & Hx & Hy).
    destruct (IH x g Hy) as (R & P). split; [exact R|].
    eapply input_step; eauto.
Qed.

(** X29. [raw_fastq_inputs] yields only raw fastqs (files with no producer
    that carry the role-key [fastqs]) reached from the file through the
    inputs of producers; when it ends normally it has yielded every one of
    them, and for a file without producer it yields the file itself when
    it is a raw fastq and nothing otherwise. *)
Theorem raw_fastq_inputs_yield a depth file :
  (forall g, In g (yielded (raw_fastq_inputs a depth file)) ->
             is_raw_fastq a g = true /\ input_reach a file g) /\
  (raised (raw_fastq_inputs a depth file) = None ->
   forall g, is_raw_fastq a g = true -> input_reach a file g ->
             In g (yielded (raw_fastq_inputs a depth file))) /\
  (task (get_file a file) = None ->
   forall d, raw_fastq_inputs a (S d) file =
             gen_yield (if mem_str "fastqs" (filekeys (get_file a file))
                        then [file] else [])).
Proof.
  split; [apply raw_fastq_inputs_sound|]. split.
  - intros R g Hg Hr. revert depth R.
    induction Hr as [f|f t x h Ht Hx Hr IH]; intros [|d] R; try discriminate R;
      rewrite raw_fastq_inputs_S in *;
      apply raised_gen_seq_None in R; destruct R as (_ & R);
      rewrite yielded_gen_seq_None by reflexivity; apply in_or_app.
    + left. simpl. rewrite Hg. now left.
    + right. rewrite Ht in *.
      apply (yielded_gen_for_None _ _ x); [exact R|exact Hx|].
      apply IH; [exact Hg|].
      exact (proj1 (raised_gen_for_None _ _) R x Hx).
  - intros Ht d. rewrite raw_fastq_inputs_S. unfold is_raw_fastq. rewrite Ht.
    unfold gen_seq, gen_yield. simpl. now rewrite app_nil_r.
Qed.

(** ** The accessioning engine: edge cases and reads *)

Section EngineEdges.

Context {World : Type}.

Variable self : Accession World.

Implicit Types st : State (World:=World).

Lemma bind_inv {A B} (m : M A) (k : A -> M B) (st st' : State (World:=World)) r :
  bind m k st = (r, st') ->
  (exists e, m st = (Raise e, st') /\ r = Raise e) \/
  (exists a st1, m st = (Ok a, st1) /\ k a st1 = (r, st')).
Proof.
  unfold bind. destruct (m st) as [[a|e] st1].
  - intros H. right. eauto.
  - intros H. inversion H; subst. left. eauto.
Qed.

(** X18. [lab_pi] is the part of the lab path between [/labs/] and the next
    slash; a lab path without [/labs/] raises [IndexError], and then
    [accession_step] raises it before any call is made. *)
Theorem lab_pi_of_lab_path :
  (forall name rest,
     has_char "/" name = false ->
     rest = EmptyString \/ (exists r, rest = ("/" ++ r)%string) ->
     lab self = ("/labs/" ++ name ++ rest)%string ->
     lab_pi self = Ok name) /\
  (str_contains "/labs/" (lab self) = false ->
   lab_pi self = Raise index_out_of_range /\
   forall step st, accession_step self step st = (Raise index_out_of_range, st)).
Proof.
  split.
  - intros name rest Hn Hrest E. unfold lab_pi. rewrite E.
    change ("/labs/" ++ name ++ rest)%string with (String "/" "labs/" ++ (name ++ rest))%string.
    rewrite split_sep_head.
    destruct Hrest as [->|(r & ->)].
    + rewrite append_nil_r, (split_absent "/" "labs/" name) by exact Hn.
      cbn [py_index nth_error rbind].
      now rewrite (split_absent "/" EmptyString name) by exact Hn.
    + unfold split at 1. rewrite split_go_run by exact Hn.
      cbn [append split_go].
      destruct (String.prefix "/labs/" (String "/" r)).
      * cbn [py_index nth_error rbind].
        now rewrite (split_absent "/" EmptyString name) by exact Hn.
      * destruct (split_go_head "/labs/" r 0 (name ++ "/")) as (x & l & ->).
        cbn [py_index nth_error rbind]. rewrite append_assoc.
        now rewrite (split_first "/" EmptyString name x) by exact Hn.
  - intros H.
    assert (E : lab_pi self = Raise index_out_of_range).
    { unfold lab_pi. rewrite split_none by (discriminate || exact H). reflexivity. }
    split; [exact E|]. intros step st. unfold accession_step, bind, lift.
    now rewrite E.
Qed.

(** X19. [get_or_make_step_run] reads the docker tag off the first task of
    the name: with no such task, with a task that has no docker image, or
    with an image that has no colon, it raises before any call is made;
    otherwise it makes one call, the post of a step run whose alias ends
    in the part of the image between the first colon and the next. *)
Theorem get_or_make_step_run_cases lab_prefix run_name step_version name st :
  let a := analysis self in
  (get_tasks a name = [] ->
   get_or_make_step_run self lab_prefix run_name step_version name st =
   (Raise index_out_of_range, st)) /\
  (forall t rest, get_tasks a name = t :: rest ->
     (docker_image (get_task a t) = None ->
      get_or_make_step_run self lab_prefix run_name step_version name st =
      (Raise (mkExn AttributeError "'NoneType' object has no attribute 'split'"), st)) /\
     (forall image, docker_image (get_task a t) = Some image ->
        has_char ":" image = false ->
        get_or_make_step_run self lab_prefix run_name step_version name st =
        (Raise index_out_of_range, st)) /\
     (forall repo tag more, 
        docker_image (get_task a t) = Some (repo ++ ":" ++ tag ++ more)%string ->
        has_char ":" repo = false -> has_char ":" tag = false ->
        more = EmptyString \/ (exists r, more = (":" ++ r)%string) ->
        let payload :=
          dict_set [("aliases", PList [PStr (lab_prefix ++ ":" ++ run_name ++ "-" ++ tag)%string]);
                    ("status", PStr "released");
                    ("analysis_step_version", PStr step_version)]
                   (PROFILE_KEY self) (PStr "analysis_step_runs") in
        get_or_make_step_run self lab_prefix run_name step_version name st =
        (fst (conn_post self (world st) payload),
         mkState (snd (conn_post self (world st) payload)) (new_files st)
                 (log st ++ [CPost payload])))).
Proof.
  intros a. subst a. unfold get_or_make_step_run, bind, lift. split.
  - intros ->. reflexivity.
  - intros t rest ->. cbn [py_index nth_error].
    split; [|split].
    + intros ->. reflexivity.
    + intros image -> Hi.
      rewrite (split_absent ":" EmptyString image) by exact Hi. reflexivity.
    + intros repo tag more -> Hr Ht Hm.
      rewrite (split_first ":" EmptyString repo) by exact Hr.
      assert (E : nth_error (repo :: split ":" (tag ++ more)) 1 = Some tag).
      { destruct Hm as [->|(r & ->)].
        - now rewrite append_nil_r, (split_absent ":" EmptyString tag) by exact Ht.
        - now rewrite (split_first ":" EmptyString tag) by exact Ht. }
      unfold py_index. rewrite E. unfold do_write.
      now destruct (conn_post self (world st) _).
Qed.

(** X20. A step for a task name the run has no task of fails with
    [IndexError] before any call is made, whatever its files are. *)
Theorem accession_step_unknown_task step st pi :
  lab_pi self = Ok pi ->
  get_tasks (analysis self) (wdl_task_name step) = [] ->
  accession_step self step st = (Raise index_out_of_range, st).
Proof.
  intros Hpi Ht. unfold accession_step, get_or_make_step_run, bind, lift.
  now rewrite Hpi, Ht.
Qed.

(** X21. [assembly] is the first of [GRCh38] and [mm10] that the reference
    genome of the first [read_genome_tsv] task names, and the empty string
    when it names neither; without a [read_genome_tsv] task it raises
    [IndexError], and so does [file_from_template] for every file. *)
Theorem assembly_cases :
  (get_tasks (analysis self) "read_genome_tsv" = [] ->
   assembly self = Raise index_out_of_range /\
   forall file fmt otype step_run derived_from ds fmt_type pi,
     lab_pi self = Ok pi ->
     file_from_template self file fmt otype step_run derived_from ds fmt_type =
     Raise index_out_of_range) /\
  (forall s, assembly self = Ok s -> s = EmptyString \/ In s ASSEMBLIES) /\
  (forall r, ref_fa self = Ok (PStr r) ->
     assembly self =
     Ok (if str_contains "GRCh38" r then "GRCh38"
         else if str_contains "mm10" r then "mm10" else EmptyString)).
Proof.
  split; [|split].
  - intros H.
    assert (E : assembly self = Raise index_out_of_range).
    { unfold assembly, ASSEMBLIES, assembly_go, ref_fa. now rewrite H. }
    split; [exact E|]. intros. unfold file_from_template.
    rewrite H0. cbn [rbind]. now rewrite E.
  - intros s. unfold assembly, ASSEMBLIES, assembly_go.
    destruct (ref_fa self) as [v|]; cbn [rbind]; [|discriminate].
    destruct (py_in_str "GRCh38" v) as [b1|]; cbn [rbind]; [|discriminate].
    destruct (py_in_str "mm10" v) as [b2|]; cbn [rbind]; [|discriminate].
    intros H. inversion H. destruct b1, b2; simpl; auto.
  - intros r E. unfold assembly, ASSEMBLIES, assembly_go. rewrite E. cbn [rbind py_in_str].
    now destruct (str_contains "GRCh38" r), (str_contains "mm10" r).
Qed.

(** X22. The candidate object [file_from_template] returns: its lab and
    award are those of [COMMON_METADATA], whatever the template held; when
    the profile key is none of the template's keys, its md5sum and size are
    those of the file, its status is [uploading], it refers to the given
    ancestors in order, its profile is [file], and it has a format type
    only when a non-empty one was given; the file part of its alias holds
    no slash. *)
Theorem file_from_template_fields file fmt otype step_run derived_from ds fmt_type obj :
  file_from_template self file fmt otype step_run derived_from ds fmt_type = Ok obj ->
  dict_get obj "lab" = PStr (lab self) /\
  dict_get obj "award" = PStr (award self) /\
  (~ In (PROFILE_KEY self)
        ["status"; "aliases"; "file_format"; "output_type"; "assembly"; "dataset";
         "step_run"; "derived_from"; "file_size"; "md5sum"; "file_format_type";
         "lab"; "award"] ->
   dict_get obj (PROFILE_KEY self) = PStr "file" /\
   dict_get obj "md5sum" = PStr (md5sum file) /\
   dict_get obj "file_size" = PInt (size file) /\
   dict_get obj "status" = PStr "uploading" /\
   dict_get obj "file_format" = PStr fmt /\
   dict_get obj "output_type" = PStr otype /\
   dict_get obj "dataset" = ds /\
   dict_get obj "step_run" = dict_get step_run "@id" /\
   dict_get obj "derived_from" = PList (map PStr derived_from) /\
   dict_get obj "file_format_type" =
     match fmt_type with
     | Some s => if String.eqb s EmptyString then PNone else PStr s
     | None => PNone
     end /\
   exists pi file_name,
     lab_pi self = Ok pi /\
     dict_get obj "aliases" = PList [PStr (pi ++ ":" ++ file_name)%string] /\
     has_char "/" file_name = false).
Proof.
  unfold file_from_template. intros H.
  destruct (lab_pi self) as [pi|]; cbn [rbind] in H; [|discriminate H].
  destruct (assembly self) as [asm|]; cbn [rbind] in H; [|discriminate H].
  inversion H; subst obj; clear H.
  unfold dict_update. cbn [fold_left fst snd].
  split; [now rewrite !dict_get_set|]. split; [now rewrite !dict_get_set|].
  intros Hk.
  assert (Hne : forall k, In k ["status"; "aliases"; "file_format"; "output_type";
                                "assembly"; "dataset"; "step_run"; "derived_from";
                                "file_size"; "md5sum"; "file_format_type"; "lab"; "award"] ->
                          String.eqb k (PROFILE_KEY self) = false).
  { intros k Hin. apply String.eqb_neq. intros ->. contradiction. }
  assert (Hne' : forall k, In k ["lab"; "award"] ->
                           String.eqb (PROFILE_KEY self) k = false).
  { intros k Hin. apply String.eqb_neq. intros E. apply Hk. rewrite E.
    simpl in Hin. simpl. intuition. }
  assert (Hobj : forall k v0 base,
            String.eqb k "file_format_type" = false ->
            dict_get base k = v0 ->
            dict_get match fmt_type with
                     | Some s => if String.eqb s EmptyString then base
                                 else dict_set base "file_format_type" (PStr s)
                     | None => base
                     end k = v0).
  { intros k v0 base E. destruct fmt_type as [s|]; [|tauto].
    destruct (String.eqb s EmptyString); [tauto|]. now rewrite dict_get_set, E. }
  split.
  { rewrite !dict_get_set, !Hne' by (simpl; auto). now rewrite String.eqb_refl. }
  repeat (split;
          [rewrite !dict_get_set, Hne by (simpl; auto 20);
           cbn [String.eqb Ascii.eqb Bool.eqb]; now apply Hobj|]).
  split.
  - rewrite !dict_get_set, Hne by (simpl; auto 20).
    cbn [String.eqb Ascii.eqb Bool.eqb].
    destruct fmt_type as [s|]; [|reflexivity].
    destruct (String.eqb s EmptyString); reflexivity.
  - exists pi, (replace "/" "-" (after_scheme (filename file))).
    split; [reflexivity|]. split; [|now apply (replace_char_absent "/" "-")].
    rewrite !dict_get_set, Hne by (simpl; auto 20).
    cbn [String.eqb Ascii.eqb Bool.eqb]. now apply Hobj.
Qed.

End EngineEdges.

Section EngineReadFacts.

Context {World : Type}.

Variable self : Accession World.

Implicit Types st : State (World:=World).

Lemma get_derived_from_reads_only file name key otype via :
  respects reads_only (get_derived_from self file name key otype via).
Proof.
  unfold get_derived_from.
  apply respects_bind; [exact reads_only_trans|apply respects_lift, reads_only_refl|].
  intros t.
  apply respects_bind; [exact reads_only_trans|apply respects_lift, reads_only_refl|].
  intros found.
  apply respects_bind; [exact reads_only_trans| |].
  { apply respects_mapM; [exact reads_only_refl|exact reads_only_trans|].
    intros g. apply file_at_portal_reads_only. }
  intros encode_files.
  apply respects_bind; [exact reads_only_trans|intros st; apply reads_only_refl|].
  intros cache. cbv zeta.
  apply respects_bind; [exact reads_only_trans|apply respects_lift, reads_only_refl|].
  intros [|v ids]; [apply respects_raise, reads_only_refl|].
  destruct (negb _); [apply respects_raise|apply respects_ret]; apply reads_only_refl.
Qed.

Lemma dataset_reads_only : respects reads_only (dataset self).
Proof.
  unfold dataset.
  apply respects_bind; [exact reads_only_trans|apply respects_lift, reads_only_refl|].
  intros f.
  apply respects_bind; [exact reads_only_trans|apply file_at_portal_reads_only|].
  intros [d|]; [apply respects_ret|apply respects_raise]; apply reads_only_refl.
Qed.

(** X24. Building the candidate object of a file only reads: whether
    [make_file_obj] returns or raises, the catalog, the bucket and the cache
    are as before, and every call it made is an md5sum lookup, a search or
    a get. *)
Theorem make_file_obj_reads_only file fmt otype step_run specs fmt_type st :
  let st' := snd (make_file_obj self file fmt otype step_run specs fmt_type st) in
  world st' = world st /\ new_files st' = new_files st /\
  (exists evs, log st' = log st ++ evs) /\
  forallb is_read (new_calls st st') = true /\
  mutations (new_calls st st') = 0.
Proof.
  assert (R : respects reads_only
                (make_file_obj self file fmt otype step_run specs fmt_type)).
  { unfold make_file_obj, get_derived_from_all.
    apply respects_bind; [exact reads_only_trans| |].
    { apply respects_bind; [exact reads_only_trans| |].
      - apply respects_mapM; [exact reads_only_refl|exact reads_only_trans|].
        intros s. apply get_derived_from_reads_only.
      - intros l. apply respects_ret, reads_only_refl. }
    intros derived_from.
    apply respects_bind; [exact reads_only_trans|apply dataset_reads_only|].
    intros ds. apply respects_lift, reads_only_refl. }
  intros st'. destruct (R st) as (W & N & evs & L & Hr). fold st' in W, N, L.
  split; [exact W|]. split; [exact N|]. split; [eauto|].
  rewrite (new_calls_app st st' evs L). split; [exact Hr|now apply mutations_reads].
Qed.

Lemma do_write_cache_kept {A} c (f : World -> result A * World) :
  respects cache_kept (do_write c f).
Proof. intros st. unfold do_write. now destruct (f (world st)). Qed.

Lemma file_at_portal_cache_kept name : respects cache_kept (file_at_portal self name).
Proof. intros st. apply (file_at_portal_reads_only self name st). Qed.

(** X26. [accession_file] changes the cache only by appending the record it
    returns: when it raises, also after the record was posted, the cache
    is as before, and when it returns a record the cache is as before or
    longer by that record. *)
Theorem accession_file_cache_outcomes encode_file gs_file st :
  match accession_file self encode_file gs_file st with
  | (Raise _, st') => new_files st' = new_files st
  | (Ok r, st') =>
      new_files st' = new_files st \/ new_files st' = new_files st ++ [r]
  end.
Proof.
  unfold accession_file, bind.
  pose proof (file_at_portal_cache_kept (filename gs_file) st) as K0.
  destruct (file_at_portal self (filename gs_file) st) as [[fe|e0] st0];
    unfold cache_kept in K0; simpl in K0; [|exact K0].
  cbv zeta. destruct (negb (record_truthy fe)).
  - pose proof (do_write_cache_kept (CDownload (filename gs_file))
                  (fun w => backend_download self w (filename gs_file)) st0) as K1.
    destruct (do_write _ _ st0) as [[local_file|e1] st1];
      unfold cache_kept in K1; simpl in K1; [|congruence].
    match goal with
    | |- context [do_write ?c ?f st1] =>
        pose proof (do_write_cache_kept c f st1) as K2;
        destruct (do_write c f st1) as [[posted|e2] st2]
    end; unfold cache_kept in K2; simpl in K2; [|congruence].
    match goal with
    | |- context [do_write ?c ?f st2] =>
        pose proof (do_write_cache_kept c f st2) as K3;
        destruct (do_write c f st2) as [[u|e3] st3]
    end; unfold cache_kept in K3; simpl in K3; [|congruence].
    unfold patch_file.
    match goal with
    | |- context [do_write ?c ?f st3] =>
        pose proof (do_write_cache_kept c f st3) as K4;
        destruct (do_write c f st3) as [[patched|e4] st4]
    end; unfold cache_kept in K4; simpl in K4; [|congruence].
    simpl. right. congruence.
  - destruct (soft_deleted (record_of fe)).
    + unfold patch_file.
      match goal with
      | |- context [do_write ?c ?f st0] =>
          pose proof (do_write_cache_kept c f st0) as K4;
          destruct (do_write c f st0) as [[patched|e4] st4]
      end; unfold cache_kept in K4; simpl in K4; [|congruence].
      simpl. right. congruence.
    + simpl. left. exact K0.
Qed.

(** X27. A quality metric name that is not a key of [QC_MAP] ends
    [accession_one] with [KeyError] once the file is accessioned: no call
    is made for the metric, the record is not added to the records of the
    step, and whatever the submission created or cached stays. *)
Theorem accession_one_unknown_metric step_run fp acc wdl_file st r st1 qc rest :
  try_accession self wdl_file fp step_run st = (Ok (Some r), st1) ->
  quality_metrics fp = qc :: rest ->
  assoc_str QC_MAP qc = None ->
  accession_one self step_run fp acc wdl_file st =
  (Raise (mkExn KeyError ("'" ++ qc ++ "'")), st1).
Proof.
  intros Ht Hq Hm. unfold accession_one.
  rewrite (bind_ok _ _ _ _ _ Ht).
  unfold attach_quality_metrics. rewrite Hq. cbn [forM].
  unfold bind, lift. now rewrite Hm.
Qed.

(** X25. [dataset] asks the catalog for the first raw fastq of the run
    only: with no raw fastq it raises [IndexError] before any call; with no
    record of that fastq on the catalog it raises [AttributeError]; with a
    record it returns the record's dataset, after reads only. *)
Theorem dataset_cases st :
  (raw_fastqs (analysis self) = [] ->
   dataset self st = (Raise index_out_of_range, st)) /\
  (forall f rest md5,
     raw_fastqs (analysis self) = f :: rest ->
     let name := filename (get_file (analysis self) f) in
     let q := [("md5sum", md5); ("type", "File")] in
     backend_md5sum self name = Ok md5 ->
     (conn_search self (world st) q = Ok [] ->
      dataset self st =
      (Raise (mkExn AttributeError "'NoneType' object has no attribute 'get'"),
       mkState (world st) (new_files st) (log st ++ [CMd5sum name; CSearch q]))) /\
     (forall hit hits r,
        conn_search self (world st) q = Ok (hit :: hits) ->
        conn_get self (world st) (dict_get hit "accession") = Ok r ->
        dataset self st =
        (Ok (dict_get r "dataset"),
         mkState (world st) (new_files st)
                 (log st ++ [CMd5sum name; CSearch q; CGet (dict_get hit "accession")])))).
Proof.
  unfold dataset, bind, lift. split.
  - intros ->. reflexivity.
  - intros f rest md5 E. cbv zeta. intros Hmd5. rewrite E.
    cbn [py_index nth_error]. split.
    + intros Hs. now rewrite (file_at_portal_none self _ st md5 Hmd5 Hs).
    + intros hit hits r Hs Hg.
      now rewrite (file_at_portal_some self _ st md5 hit hits r Hmd5 Hs Hg).
Qed.

Lemma file_at_portal_record name st :
  fst (file_at_portal self name st) = portal_record self (world st) name.
Proof.
  unfold file_at_portal, portal_record, bind, do_read, record_call, ret.
  cbn [world new_files log].
  destruct (backend_md5sum self name) as [md5|]; cbn [rbind]; [|reflexivity].
  destruct (conn_search self (world st) _) as [[|hit hits]|]; cbn [rbind]; try reflexivity.
  cbn [world]. now destruct (conn_get self (world st) _).
Qed.

(** X28. [raw_files_accessioned] only reads, and when it returns, it returns
    [True] exactly when the catalog has a non-empty record for the md5sum
    of every raw fastq of the run. *)
Theorem raw_files_accessioned_all st b st' :
  raw_files_accessioned self st = (Ok b, st') ->
  reads_only st st' /\
  (b = true <->
   forall f, In f (raw_fastqs (analysis self)) ->
     exists r, portal_record self (world st)
                 (filename (get_file (analysis self) f)) = Ok r /\
               record_truthy r = true).
Proof.
  unfold raw_files_accessioned. generalize (raw_fastqs (analysis self)) as fs.
  intros fs. revert st. induction fs as [|f fs IH]; intros st H; cbn [raw_files_accessioned_go] in H.
  - inversion H; subst. split; [apply reads_only_refl|]. split; [intros _ f []|reflexivity].
  - apply bind_inv in H. destruct H as [(e & _ & H)|(r & st1 & Hl & H)]; [discriminate H|].
    pose proof (file_at_portal_reads_only self (filename (get_file (analysis self) f)) st)
      as R.
    rewrite Hl in R. simpl in R.
    pose proof (file_at_portal_record (filename (get_file (analysis self) f)) st) as P.
    rewrite Hl in P. simpl in P.
    destruct (record_truthy r) eqn:Er; simpl in H.
    + destruct (IH st1 H) as (R1 & I1).
      split; [eapply reads_only_trans; eauto|].
      destruct R as (W & _). rewrite W in I1. rewrite I1. split.
      * intros Hall g [<-|Hg]; [exists r; auto|auto].
      * intros Hall g Hg. apply Hall. now right.
    + inversion H; subst b st'. split; [exact R|]. split; [discriminate|].
      intros Hall. destruct (Hall f (or_introl eq_refl)) as (r' & E' & T').
      rewrite <- P in E'. inversion E'; subst r'. congruence.
Qed.

End EngineReadFacts.

(** * The properties on the small pipeline *)

Lemma fx_make_tasks : make_tasks fx_md5sum fx_size fx_metadata = Ok fx_analysis.
Proof. vm_compute. reflexivity. Qed.

(** C1 on [fx_metadata]: seven distinct locations, seven files. *)
Lemma make_tasks_one_file_per_location_example :
  NoDup (map filename (files fx_analysis)) /\
  List.length (files fx_analysis) = 7.
Proof.
  destruct (make_tasks_one_file_per_location fx_md5sum fx_size fx_metadata fx_analysis
              fx_make_tasks) as (H1 & _ & H3).
  split; [exact H1|]. rewrite H3. vm_compute. reflexivity.
Defined.

(** C2 on [fx_metadata]: x.bam is an output of [align] (task 0) and an
    input of [dedup] (task 2); it is file 0, made by task 0 and used by
    task 2. *)
Lemma make_tasks_shared_file_example :
  exists i f j,
    nth_error (files fx_analysis) i = Some f /\ filename f = fx_xbam_location /\
    In i (output_files (get_task fx_analysis 0)) /\
    In i (input_files (get_task fx_analysis 2)) /\
    In 2 (used_by_tasks f) /\ task f = Some j /\ j = 0.
Proof.
  destruct (make_tasks_shared_file fx_md5sum fx_size fx_metadata fx_analysis
              0 (get_task fx_analysis 0) 2 (get_task fx_analysis 2) fx_xbam_location
              fx_make_tasks eq_refl (or_introl eq_refl) eq_refl (or_introl eq_refl))
    as (i & f & j & H1 & H2 & _ & H4 & H5 & H6 & H7 & _ & _ & H10).
  exists i, f, j. repeat split; auto.
  apply H10. intros k tk Hk. inversion Hk.
Defined.

(** The location x.bam is also in the output tree of [merge] (task 1) and
    in the input tree of [dedup] (task 2), yet the one file at that
    location has task 0 as its producer, not task 1. *)
Lemma make_tasks_producer_is_first_task :
  make_tasks fx_md5sum fx_size fx_metadata = Ok fx_analysis /\
  In fx_xbam_location (section_locations (outputs (get_task fx_analysis 1))) /\
  In fx_xbam_location (section_locations (inputs (get_task fx_analysis 2))) /\
  map (fun f => (task f, used_by_tasks f))
      (filter (fun f => String.eqb (filename f) fx_xbam_location) (files fx_analysis))
  = [(Some 0, [1; 2])].
Proof.
  split; [exact fx_make_tasks|].
  split; [now left|]. split; [now left|]. reflexivity.
Qed.

(** C9 on [fx_analysis]: [report] (task 3) has no output file, and a search
    down from [dedup] (task 2) reaches it. *)
Lemma search_down_empty_outputs_raises_example :
  search_down fx_analysis 5 3 "report" "bam" = gen_raise reduce_empty /\
  raised (search_down fx_analysis 5 2 "report" "bam") <> None.
Proof.
  destruct (search_down_empty_outputs_raises fx_analysis 2 3 "report" "bam" eq_refl)
    as (H1 & H2).
  split; [apply H1|]. apply H2.
  apply (down_step fx_analysis 2 4 3 3); [now left|now left|constructor].
Defined.



(** C10 on the example: dup1.bam and dup2.bam share an md5sum and match
    the one record ENCFF003, and "Missing some" is raised; so it is when
    x.bam matches ENCFF001 and ENCFF002. *)
Lemma get_derived_from_count_mismatch_example :
  fst (get_derived_from fx_self fx_ybam "align" "dups" None false
                        (fx_state fx_catalog_dups []))
  = Raise missing_some /\
  fst (get_derived_from fx_self fx_ybam "align" "bam" None false
                        (fx_state fx_catalog_bam [fx_record "ENCFF002" "aaa" "released"]))
  = Raise missing_some.
Proof.
  split.
  - edestruct (get_derived_from_count_mismatch fx_self fx_ybam 2 "align" "dups" None false
                 (fx_state fx_catalog_dups []) [1; 2])
      as (_ & H & _);
      [vm_compute; reflexivity|vm_compute; reflexivity|vm_compute; reflexivity
      |vm_compute; reflexivity|].
    rewrite (H 1 2 (fx_record "ENCFF003" "ddd" "released")); try reflexivity.
    + discriminate.
    + right. now left.
    + split; [now left|]. split; [now left|reflexivity].
    + intros g r1 r2 (_ & H1 & _) (_ & H2 & _).
      destruct H1 as [<-|[<-|[]]]; destruct H2 as [<-|[<-|[]]]; reflexivity.
  - edestruct (get_derived_from_count_mismatch fx_self fx_ybam 2 "align" "bam" None false
                 (fx_state fx_catalog_bam [fx_record "ENCFF002" "aaa" "released"]) [0])
      as (_ & _ & H);
      [vm_compute; reflexivity|vm_compute; reflexivity|vm_compute; reflexivity
      |vm_compute; reflexivity|].
    rewrite (H 0 (fx_record "ENCFF001" "aaa" "released")
               (fx_record "ENCFF002" "aaa" "released")); try reflexivity.
    + split; [now left|]. split; [now left|reflexivity].
    + split; [now left|]. split; [right; now left|reflexivity].
    + discriminate.
    + intros g [<-|[]]. exists (fx_record "ENCFF001" "aaa" "released").
      split; [now left|]. split; [now left|reflexivity].
    + intros g g' r r' (Hg & _) (Hg' & _) _.
      destruct Hg as [<-|[]]. destruct Hg' as [<-|[]]. reflexivity.
Defined.

(** dup1.bam and dup2.bam are two ancestors with one md5sum; each matches
    ENCFF003 of the catalog and ENCFF004 of the cache, so each matches more
    than one record. Two ids for two ancestors: nothing is raised. *)
Lemma get_derived_from_offsetting_matches_return :
  let st := fx_state fx_catalog_dups [fx_record "ENCFF004" "ddd" "released"] in
  gen_list (search_up fx_analysis 50 2 "align" "dups" false) = Ok [1; 2] /\
  md5sum (get_file fx_analysis 1) = md5sum (get_file fx_analysis 2) /\
  matched_ids fx_self None [1] (fx_catalog_dups ++ new_files st)
  = [PStr "ENCFF003"; PStr "ENCFF004"] /\
  matched_ids fx_self None [2] (fx_catalog_dups ++ new_files st)
  = [PStr "ENCFF003"; PStr "ENCFF004"] /\
  fst (get_derived_from fx_self fx_ybam "align" "dups" None false st)
  = Ok ["/files/ENCFF003/"; "/files/ENCFF004/"].
Proof. vm_compute. repeat split. Qed.

(** C4 on the example, with no record of y.bam on the catalog, with a
    revoked one and with a released one. *)
Lemma accession_file_three_way_example :
  (let out := accession_file fx_self fx_candidate fx_ybam (fx_state [] []) in
   exists patched, fst out = Ok patched /\ new_files (snd out) = [patched] /\
     map is_mutation (log (snd out)) = [false; false; false; true; false; true]) /\
  (let out := accession_file fx_self fx_candidate fx_ybam
                             (fx_state (fx_catalog_ybam "revoked") []) in
   exists patched, fst out = Ok patched /\ new_files (snd out) = [patched] /\
     map is_mutation (log (snd out)) = [false; false; false; true]) /\
  (let out := accession_file fx_self fx_candidate fx_ybam
                             (fx_state (fx_catalog_ybam "released") []) in
   fst out = Ok (fx_record "ENCFF009" "ccc" "released") /\ new_files (snd out) = [] /\
   map is_mutation (log (snd out)) = [false; false; false]).
Proof.
  split; [|split].
  - destruct (accession_file_three_way fx_self fx_candidate fx_ybam (fx_state [] [])
                "ccc" eq_refl) as (H & _).
    cbv zeta. erewrite H; cycle 1.
    + reflexivity.
    + vm_compute. reflexivity.
    + vm_compute. reflexivity.
    + vm_compute. reflexivity.
    + vm_compute. reflexivity.
    + eexists. repeat split.
  - destruct (accession_file_three_way fx_self fx_candidate fx_ybam
                (fx_state (fx_catalog_ybam "revoked") []) "ccc" eq_refl) as (_ & H).
    destruct (H (fx_record "ENCFF009" "ccc" "revoked") []
                (fx_record "ENCFF009" "ccc" "revoked") eq_refl eq_refl) as (H' & _).
    cbv zeta. erewrite H'; cycle 1.
    + reflexivity.
    + vm_compute. reflexivity.
    + eexists. repeat split.
  - destruct (accession_file_three_way fx_self fx_candidate fx_ybam
                (fx_state (fx_catalog_ybam "released") []) "ccc" eq_refl) as (_ & H).
    destruct (H (fx_record "ENCFF009" "ccc" "released") []
                (fx_record "ENCFF009" "ccc" "released") eq_refl eq_refl) as (_ & H').
    cbv zeta. rewrite H'; [repeat split|reflexivity|discriminate].
Defined.

(** C5 on the example: two invocations against a catalog that holds y.bam
    as a released record. *)
Lemma accession_file_twice_live_example :
  let out := accession_file_twice fx_self fx_candidate fx_ybam
                                  (fx_state (fx_catalog_ybam "released") []) in
  fst out = Ok (fx_record "ENCFF009" "ccc" "released",
                fx_record "ENCFF009" "ccc" "released") /\
  world (snd out) = fx_catalog_ybam "released" /\
  new_files (snd out) = [].
Proof.
  destruct (accession_file_twice_live fx_self fx_candidate fx_ybam
              (fx_state (fx_catalog_ybam "released") []) "ccc"
              (fx_record "ENCFF009" "ccc" "released") []
              (fx_record "ENCFF009" "ccc" "released")
              eq_refl eq_refl eq_refl eq_refl) as (H & _).
  - discriminate.
  - cbv zeta. rewrite H. repeat split.
Defined.

(** The catalog holds a released record with the md5sum of y.bam, and the
    two invocations of [accession_file] make no create or update call. *)
Lemma accession_file_twice_live_makes_no_mutation :
  let st := fx_state (fx_catalog_ybam "released") [] in
  backend_md5sum fx_self (filename fx_ybam) = Ok "ccc" /\
  conn_search fx_self (world st) [("md5sum", "ccc"); ("type", "File")]
  = Ok [fx_record "ENCFF009" "ccc" "released"] /\
  soft_deleted (fx_record "ENCFF009" "ccc" "released") = false /\
  mutations (log (snd (accession_file_twice fx_self fx_candidate fx_ybam st))) = 0.
Proof. vm_compute. repeat split. Qed.

(** C8 on the example: the search up from [dedup] for the bam of [align]
    yields x.bam, which carries the role-key. *)
Lemma search_yields_role_key_example :
  In "bam" (filekeys (get_file fx_analysis 0)) /\
  exists t', up_reach fx_analysis 2 t' /\ task_name (get_task fx_analysis t') = "align".
Proof.
  destruct (search_yields_role_key fx_analysis 50 2 "align" "bam") as (H & _).
  destruct (H false 0) as (K & t' & R & N & _); [vm_compute; now left|].
  split; [exact K|]. exists t'. split; [exact R|exact N].
Defined.

(** C6 on the example. With the fastq alone on the catalog the attempt on
    y.bam raises "Missing all" and the step returns without it; with one
    record for the two duplicate reports it raises "Missing some" and the
    step ends with that exception. *)
Lemma accession_step_failure_handling_example :
  fst (accession_step fx_self fx_step_dedup (fx_state [fx_fastq_record] [])) = Ok [] /\
  fst (accession_step fx_self fx_step_dups
                      (fx_state [fx_fastq_record; fx_record "ENCFF003" "ddd" "released"] []))
  = Raise missing_some.
Proof.
  destruct (accession_step_failure_handling fx_self) as (_ & _ & Hall & Hsome & Hloop).
  split.
  - edestruct Hloop with (step := fx_step_dedup) (done := @nil (FileParams * fid))
                         (f := 4) (rest := @nil (FileParams * fid))
                         (st0 := fx_state [fx_fastq_record] []) (e := missing_all)
      as (Hskip & _);
      [vm_compute; reflexivity|vm_compute; reflexivity|vm_compute; reflexivity
      |reflexivity|vm_compute; reflexivity|].
    rewrite Hskip; [reflexivity|apply Hall].
  - edestruct Hloop with (step := fx_step_dups) (done := @nil (FileParams * fid))
                         (f := 4) (rest := @nil (FileParams * fid))
                         (st0 := fx_state [fx_fastq_record;
                                           fx_record "ENCFF003" "ddd" "released"] [])
                         (e := missing_some)
      as (_ & Hprop);
      [vm_compute; reflexivity|vm_compute; reflexivity|vm_compute; reflexivity
      |reflexivity|vm_compute; reflexivity|].
    destruct (Hprop (Hsome _)) as (Hr & _). rewrite Hr. reflexivity.
Defined.

(** C7 on the example: [accession_file] creates the record of y.bam and
    returns with it as the one entry of the cache; and on an empty
    catalog, with the record of x.bam in the cache only,
    [get_derived_from] returns the reference of that record for y.bam. *)
Lemma submission_cache_visible_example :
  let out := accession_file fx_self fx_candidate fx_ybam (fx_state [] []) in
  let run := get_derived_from fx_self fx_ybam "align" "bam" None false
               (fx_state [] [fx_record "ENCFF001" "aaa" "released"]) in
  (exists r, fst out = Ok r /\ new_files (snd out) = [r]) /\
  (exists refs, fst run = Ok refs /\ In "/files/ENCFF001/" refs).
Proof.
  destruct (submission_cache_visible fx_self) as (H & _ & H2 & _).
  cbv zeta. split.
  - edestruct (H fx_candidate fx_ybam (fx_state [] [])) as [(Hm & _)|(_ & Hn & _)];
      [vm_compute; reflexivity| |].
    + vm_compute in Hm. discriminate Hm.
    + eexists. split; [vm_compute; reflexivity|vm_compute; reflexivity].
  - exists ["/files/ENCFF001/"]. split; [vm_compute; reflexivity|].
    edestruct (H2 fx_ybam 2 "align" "bam" None false
                  (fx_state [] [fx_record "ENCFF001" "aaa" "released"]) [0] [None]
                  (snd (mapM (fun g => file_at_portal fx_self
                                         (filename (get_file fx_analysis g))) [0]
                             (fx_state [] [fx_record "ENCFF001" "aaa" "released"])))
                  0 (fx_record "ENCFF001" "aaa" "released"))
      as (_ & _ & H3);
      [vm_compute; reflexivity|vm_compute; reflexivity|vm_compute; reflexivity
      |vm_compute; tauto|right; vm_compute; tauto|vm_compute; reflexivity|].
    refine (proj2 (H3 ["/files/ENCFF001/"] _) "ENCFF001" eq_refl).
    vm_compute. reflexivity.
Defined.

(** The same call on the same catalog with an empty cache: the cache
    record is what the reference above came from. *)
Lemma get_derived_from_without_cache :
  fst (get_derived_from fx_self fx_ybam "align" "bam" None false (fx_state [] []))
  = Raise missing_all.
Proof. vm_compute. reflexivity. Qed.

(** A record [accession_file] has created is matched by a later
    [get_derived_from]: x.bam is accessioned on an empty catalog, and the
    lookup of the ancestors of y.bam on the state that leaves returns the
    reference of the record made. *)
Lemma get_derived_from_after_accession_file :
  let x_bam := get_file fx_analysis 0 in
  let out := accession_file fx_self [("status", PStr "uploading"); ("md5sum", PStr "aaa")]
                            x_bam (fx_state [] []) in
  map (fun r => dict_get r "accession") (new_files (snd out)) = [PStr "ENCFF0"] /\
  fst (get_derived_from fx_self fx_ybam "align" "bam" None false (snd out))
  = Ok ["/files/ENCFF0/"].
Proof. vm_compute. split; reflexivity. Qed.

(** The two steps in order, on a catalog that holds only the fastq: the
    record made for x.bam by the first step is the derived-from of the
    record made for y.bam by the second. *)
Lemma accession_steps_example :
  let out := accession_steps fx_self [fx_step_align; fx_step_dedup]
                             (fx_state [fx_fastq_record] []) in
  fst out = Ok tt /\
  map (fun r => (dict_get r "md5sum", dict_get r "accession", dict_get r "derived_from"))
      (new_files (snd out))
  = [(PStr "aaa", PStr "ENCFF2", PList [PStr "/files/ENCFF000/"]);
     (PStr "ccc", PStr "ENCFF4", PList [PStr "/files/ENCFF2/"])].
Proof. vm_compute. split; reflexivity. Qed.

(** X1 on the genome section of [read_genome_tsv]. *)
Lemma extract_files_leaves_example :
  extract_files (PDict [("genome", PDict [("ref_fa", PStr "gs://ref/GRCh38.fa");
                                          ("gs://key", PStr "chr.sizes")])])
  = ["gs://ref/GRCh38.fa"] /\
  leaf "gs://ref/GRCh38.fa"
       (PDict [("genome", PDict [("ref_fa", PStr "gs://ref/GRCh38.fa");
                                 ("gs://key", PStr "chr.sizes")])]).
Proof.
  split; [reflexivity|].
  apply (proj1 (extract_files_leaves _ "gs://ref/GRCh38.fa")).
  vm_compute. now left.
Defined.

(** X2 on the call keys of the example. *)
Lemma make_task_name_example :
  make_task "atac.align" (mkCall (Some []) (Some []) None)
  = Ok (mkTask "align" [] [] [] [] None) /\
  make_task "atac.align.shard-0" (mkCall (Some []) (Some []) None)
  = Ok (mkTask "align" [] [] [] [] None) /\
  make_task "atac.align" (mkCall None (Some []) None)
  = Raise (mkExn KeyError "'inputs'") /\
  make_task "atac.align" (mkCall (Some []) None None)
  = Raise (mkExn KeyError "'outputs'") /\
  make_task "atac" (mkCall None None None) = Raise index_out_of_range.
Proof.
  destruct (make_task_name "atac" "align" [] [] None eq_refl eq_refl) as (H1 & H2).
  split; [exact (proj1 (H1 EmptyString (or_introl eq_refl)))|].
  split; [exact (proj1 (H1 ".shard-0"%string
                           (or_intror (ex_intro _ "shard-0"%string eq_refl))))|].
  split; [exact (proj1 (proj2 (H1 EmptyString (or_introl eq_refl))))|].
  split; [exact (proj2 (proj2 (proj2 (H1 EmptyString (or_introl eq_refl)))))|].
  exact (H2 (mkCall None None None)).
Defined.

(** X3 on [fx_metadata]: five calls, five tasks. *)
Lemma make_tasks_task_list_example :
  Forall2 task_of_entry (tasks fx_analysis) (call_entries fx_metadata) /\
  map task_name (tasks fx_analysis) = ["align"; "merge"; "dedup"; "report"; "read_genome_tsv"].
Proof.
  split; [|reflexivity].
  exact (make_tasks_task_list fx_md5sum fx_size fx_metadata fx_analysis fx_make_tasks).
Defined.


(** A call entry without [outputs] under a well-formed key: [make_tasks]
    raises the [KeyError] of [Task.__init__]. *)
Lemma make_tasks_missing_outputs_raises :
  make_tasks fx_md5sum fx_size (mkMetadata [("atac.align", [mkCall (Some []) None None])])
  = Raise (mkExn KeyError "'outputs'").
Proof. vm_compute. reflexivity. Qed.

(** X5 on y.bam. *)
Lemma make_tasks_content_identity_example :
  fx_md5sum (filename fx_ybam) = Ok (md5sum fx_ybam) /\ md5sum fx_ybam = "ccc".
Proof.
  destruct (make_tasks_content_identity fx_md5sum fx_size fx_metadata fx_analysis fx_ybam
              fx_make_tasks) as (H & _).
  - vm_compute. tauto.
  - split; [exact H|reflexivity].
Defined.

(** X6 on x.bam: [merge] reads it under the key [bams]. *)
Lemma make_tasks_filekeys_example :
  NoDup (filekeys (get_file fx_analysis 0)) /\ In "bams" (filekeys (get_file fx_analysis 0)).
Proof.
  destruct (make_tasks_filekeys fx_md5sum fx_size fx_metadata fx_analysis
              (get_file fx_analysis 0) fx_make_tasks) as (H1 & H2).
  - vm_compute. tauto.
  - split; [exact H1|]. apply H2. exists (get_task fx_analysis 1).
    split; [vm_compute; tauto|]. right. vm_compute. tauto.
Defined.

(** X7 on x.bam: [merge] and [dedup] read it; [align], which writes it,
    is not a consumer. *)
Lemma make_tasks_consumers_example :
  NoDup (used_by_tasks (get_file fx_analysis 0)) /\
  In 2 (used_by_tasks (get_file fx_analysis 0)) /\
  ~ In 0 (used_by_tasks (get_file fx_analysis 0)).
Proof.
  destruct (make_tasks_consumers fx_md5sum fx_size fx_metadata fx_analysis
              (get_file fx_analysis 0) fx_make_tasks) as (H1 & H2).
  - vm_compute. tauto.
  - split; [exact H1|]. split.
    + apply H2. exists (get_task fx_analysis 2). split; [reflexivity|]. vm_compute. tauto.
    + intros H. apply H2 in H. destruct H as (t & Ht & Hl).
      inversion Ht; subst t. vm_compute in Hl. intuition discriminate.
Defined.

(** X8 on [fx_analysis]: r1.fq is the raw fastq of the run. *)
Lemma make_tasks_raw_inputs_example :
  raw_fastqs fx_analysis = [6] /\
  exists f, nth_error (files fx_analysis) 6 = Some f /\
            exists t, In t (tasks fx_analysis) /\
                      In ("fastqs", filename f) (section_pairs (inputs t)).
Proof.
  split; [reflexivity|].
  destruct (make_tasks_raw_inputs fx_md5sum fx_size fx_metadata fx_analysis fx_make_tasks)
    as (_ & H).
  destruct (proj1 (H 6)) as (f & Hf & Ht & _); [vm_compute; tauto|].
  exists f. split; [exact Hf|exact Ht].
Defined.

(** X9 on [dedup]: its three input locations, in the order of its input
    tree. *)
Lemma make_tasks_file_lists_example :
  map (fun i => filename (get_file fx_analysis i)) (input_files (get_task fx_analysis 2))
  = ["gs://b/align/x.bam"; "gs://b/align/dup1.bam"; "gs://b/align/dup2.bam"].
Proof.
  destruct (make_tasks_file_lists fx_md5sum fx_size fx_metadata fx_analysis
              (get_task fx_analysis 2) fx_make_tasks) as (_ & H & _).
  - vm_compute. tauto.
  - rewrite H. reflexivity.
Defined.

(** X10 on [fx_analysis]. *)
Lemma make_tasks_links_example :
  well_formed fx_analysis /\
  (In 0 (input_files (get_task fx_analysis 2)) <->
   In 2 (used_by_tasks (get_file fx_analysis 0))).
Proof.
  destruct (make_tasks_links fx_md5sum fx_size fx_metadata fx_analysis fx_make_tasks)
    as (H1 & H2).
  split; [exact H1|].
  exact (proj1 (H2 2 (get_task fx_analysis 2) 0 (get_file fx_analysis 0) eq_refl eq_refl)).
Defined.

(** X11 on the location of x.bam. *)
Lemma blob_location_round_trip_example :
  blob_location fx_xbam_location = Ok ("b", "align/x.bam").
Proof.
  exact (blob_location_round_trip "b" "align/x.bam" eq_refl eq_refl).
Defined.

(** X12 on the reference genome and on a string that is no location. *)
Lemma bucket_name_defined_example :
  (exists b, bucket_name "gs://ref/GRCh38.fa" = Ok b) /\
  blob_location "done" = Raise index_out_of_range.
Proof.
  split.
  - destruct (bucket_name_defined "gs://ref/GRCh38.fa") as (_ & _ & H).
    apply (H (PDict [("ref_fa", PStr "gs://ref/GRCh38.fa")])). vm_compute. tauto.
  - destruct (bucket_name_defined "done") as (_ & H & _). now apply H.
Defined.

(** X13 on [fx_analysis]: the search up from [dedup] for the bam of
    [align] ends normally and has yielded x.bam. *)
Lemma search_complete_example :
  raised (search_up fx_analysis 50 2 "align" "bam" false) = None /\
  In 0 (yielded (search_up fx_analysis 50 2 "align" "bam" false)).
Proof.
  split; [reflexivity|].
  destruct (search_complete fx_analysis 50 2 "align" "bam") as (H & _).
  apply (H false eq_refl 0). split; [vm_compute; tauto|].
  exists 0. split; [|split; [reflexivity|vm_compute; tauto]].
  apply (up_step fx_analysis 2 0 0 0); [vm_compute; tauto|reflexivity|constructor].
Defined.

(** X14 on [fx_analysis]: depth 3 is enough for the search up from
    [dedup]. *)
Lemma search_depth_independent_example :
  search_up fx_analysis 50 2 "align" "bam" false =
  search_up fx_analysis 3 2 "align" "bam" false.
Proof.
  destruct (search_depth_independent fx_analysis "align" "bam" 3 2 50) as (H & _).
  - repeat constructor.
  - apply H. reflexivity.
Defined.

(** X15: in [fx_analysis] every producer has a smaller index than its
    consumers; in [fx_chain] every consumer has a larger one. *)
Lemma search_ends_on_ranked_graph_example :
  raised (search_up fx_analysis 4 3 "align" "bam" false) = None /\
  raised (search_down fx_chain 2 0 "second" "out") = None.
Proof.
  split.
  - destruct (search_ends_on_ranked_graph fx_analysis (fun t => t) "align" "bam" 4 3)
      as (H & _); [repeat constructor|].
    apply H. reflexivity.
  - destruct (search_ends_on_ranked_graph fx_chain (fun t => 1 - t) "second" "out" 2 0)
      as (_ & H); [repeat constructor|].
    apply H; [reflexivity|repeat constructor].
Defined.

(** X16 on [fx_analysis]: [merge] reads x.bam, one of its own outputs. *)
Lemma search_on_cycle_raises_example :
  In 1 (used_by_tasks (get_file fx_analysis 0)) /\
  raised (search_down fx_analysis 50 1 "dedup" "nodup_bam") <> None.
Proof.
  split; [vm_compute; tauto|].
  destruct (search_on_cycle_raises fx_analysis "dedup" "nodup_bam" 1 0) as (_ & H).
  apply (H 1); [vm_compute; tauto|vm_compute; tauto|constructor].
Defined.

(** X17 on [fx_metadata]: x.bam is in the input tree and in the output
    tree of [merge]. *)
Lemma search_down_pass_through_raises_example :
  In fx_xbam_location (section_locations (inputs (get_task fx_analysis 1))) /\
  In fx_xbam_location (section_locations (outputs (get_task fx_analysis 1))) /\
  raised (search_down fx_analysis 50 1 "dedup" "nodup_bam") <> None.
Proof.
  assert (Hi : In fx_xbam_location (section_locations (inputs (get_task fx_analysis 1))))
    by (vm_compute; tauto).
  assert (Ho : In fx_xbam_location (section_locations (outputs (get_task fx_analysis 1))))
    by (vm_compute; tauto).
  split; [exact Hi|]. split; [exact Ho|].
  exact (search_down_pass_through_raises fx_md5sum fx_size fx_metadata fx_analysis 1
           (get_task fx_analysis 1) fx_xbam_location "dedup" "nodup_bam" 50
           fx_make_tasks eq_refl Hi Ho).
Defined.

(** X18 on the lab of the example. *)
Lemma lab_pi_of_lab_path_example :
  lab_pi fx_self = Ok "encode-processing-pipeline".
Proof.
  destruct (lab_pi_of_lab_path fx_self) as (H & _).
  apply (H "encode-processing-pipeline" "/"); [reflexivity| |reflexivity].
  right. now exists EmptyString.
Defined.

(** X19 on the example: the step run of [align] is posted with the tag of
    its docker image. *)
Lemma get_or_make_step_run_cases_example :
  log (snd (get_or_make_step_run fx_self "encode-processing-pipeline" "align-step"
              "/analysis-step-versions/align-v1/" "align" (fx_state [] [])))
  = [CPost [("aliases", PList [PStr "encode-processing-pipeline:align-step-v1"]);
            ("status", PStr "released");
            ("analysis_step_version", PStr "/analysis-step-versions/align-v1/");
            ("_profile", PStr "analysis_step_runs")]].
Proof.
  destruct (get_or_make_step_run_cases fx_self "encode-processing-pipeline" "align-step"
              "/analysis-step-versions/align-v1/" "align" (fx_state [] [])) as (_ & H).
  destruct (H 0 [] eq_refl) as (_ & _ & H3).
  rewrite (H3 "encodedcc/atac" "v1" EmptyString eq_refl eq_refl eq_refl (or_introl eq_refl)).
  reflexivity.
Defined.

(** X20 on the example: the run has no task [xcor]. *)
Lemma accession_step_unknown_task_example :
  accession_step fx_self fx_step_unknown (fx_state [fx_fastq_record] []) =
  (Raise index_out_of_range, fx_state [fx_fastq_record] []).
Proof.
  exact (accession_step_unknown_task fx_self fx_step_unknown (fx_state [fx_fastq_record] [])
           "encode-processing-pipeline" eq_refl eq_refl).
Defined.

(** X21 on the example: the reference genome is GRCh38.fa. *)
Lemma assembly_cases_example :
  assembly fx_self = Ok "GRCh38".
Proof.
  destruct (assembly_cases fx_self) as (_ & _ & H).
  rewrite (H "gs://ref/GRCh38.fa" eq_refl). reflexivity.
Defined.

(** X22 on y.bam. *)
Lemma file_from_template_fields_example :
  exists obj,
    file_from_template fx_self fx_ybam "bam" "alignments" fx_step_run
                       ["/files/ENCFF001/"] (PStr "/experiments/ENCSR000AAA/") None = Ok obj /\
    dict_get obj "md5sum" = PStr "ccc" /\
    dict_get obj "lab" = PStr "/labs/encode-processing-pipeline/" /\
    dict_get obj "aliases" = PList [PStr "encode-processing-pipeline:b-dedup-y.bam"].
Proof.
  destruct (file_from_template fx_self fx_ybam "bam" "alignments" fx_step_run
              ["/files/ENCFF001/"] (PStr "/experiments/ENCSR000AAA/") None)
    as [obj|e] eqn:E; [|vm_compute in E; discriminate E].
  exists obj. split; [reflexivity|].
  destruct (file_from_template_fields fx_self _ _ _ _ _ _ _ obj E) as (H1 & _ & H3).
  destruct H3 as (_ & H4 & _).
  { vm_compute. intuition discriminate. }
  split; [exact H4|]. split; [exact H1|].
  vm_compute in E. inversion E. reflexivity.
Defined.

(** X23 on two reference lists. *)
Lemma flatten_reference_lists_example :
  flatten (PList [PList [PStr "/files/ENCFF001/"];
                  PList [PStr "/files/ENCFF002/"; PStr "/files/ENCFF003/"]])
  = ["/files/ENCFF001/"; "/files/ENCFF002/"; "/files/ENCFF003/"].
Proof.
  exact (flatten_reference_lists [["/files/ENCFF001/"];
                                  ["/files/ENCFF002/"; "/files/ENCFF003/"]]).
Defined.

(** X24 on y.bam, with x.bam and the fastq on the catalog. *)
Lemma make_file_obj_reads_only_example :
  let st := fx_state [fx_fastq_record; fx_record "ENCFF001" "aaa" "released"] [] in
  let out := make_file_obj fx_self fx_ybam "bam" "alignments" fx_step_run
                           [mkAncestorSpec "align" "bam" None false] None st in
  world (snd out) = world st /\ mutations (new_calls st (snd out)) = 0 /\
  List.length (log (snd out)) = 6.
Proof.
  cbv zeta.
  destruct (make_file_obj_reads_only fx_self fx_ybam "bam" "alignments" fx_step_run
              [mkAncestorSpec "align" "bam" None false] None
              (fx_state [fx_fastq_record; fx_record "ENCFF001" "aaa" "released"] []))
    as (H1 & _ & _ & _ & H5).
  split; [exact H1|]. split; [exact H5|]. reflexivity.
Defined.

(** X25 on the example: the dataset of the fastq r1.fq. *)
Lemma dataset_cases_example :
  fst (dataset fx_self (fx_state [fx_fastq_record] [])) =
  Ok (PStr "/experiments/ENCSR000AAA/").
Proof.
  destruct (dataset_cases fx_self (fx_state [fx_fastq_record] [])) as (_ & H).
  destruct (H 6 [] "f00" eq_refl eq_refl) as (_ & H2).
  rewrite (H2 fx_fastq_record [] fx_fastq_record eq_refl eq_refl). reflexivity.
Defined.

(** X26 on y.bam, on an empty catalog: the record is created and is the
    one entry of the cache. *)
Lemma accession_file_cache_outcomes_example :
  let out := accession_file fx_self fx_candidate fx_ybam (fx_state [] []) in
  exists r, fst out = Ok r /\ new_files (snd out) = [r].
Proof.
  cbv zeta.
  pose proof (accession_file_cache_outcomes fx_self fx_candidate fx_ybam (fx_state [] []))
    as H.
  destruct (accession_file fx_self fx_candidate fx_ybam (fx_state [] []))
    as [[r|e] st'] eqn:E; [|vm_compute in E; discriminate E].
  exists r. split; [reflexivity|]. destruct H as [H|H]; [|exact H].
  vm_compute in E. inversion E; subst. vm_compute in H. discriminate H.
Defined.

(** X27 on y.bam: the record is made, then the metric [ataqc] is not in
    [QC_MAP]. *)
Lemma accession_one_unknown_metric_example :
  fst (accession_one fx_self fx_step_run fx_params_unknown_metric [] 4
         (fx_state [fx_fastq_record; fx_record "ENCFF001" "aaa" "released"] []))
  = Raise (mkExn KeyError "'ataqc'").
Proof.
  destruct (try_accession fx_self 4 fx_params_unknown_metric fx_step_run
              (fx_state [fx_fastq_record; fx_record "ENCFF001" "aaa" "released"] []))
    as [[[r|]|e] st1] eqn:E;
    [|vm_compute in E; discriminate E|vm_compute in E; discriminate E].
  rewrite (accession_one_unknown_metric fx_self fx_step_run fx_params_unknown_metric []
             4 _ r st1 "ataqc" [] E eq_refl eq_refl).
  reflexivity.
Defined.

(** X28 on the example: the fastq is on the catalog. *)
Lemma raw_files_accessioned_all_example :
  fst (raw_files_accessioned fx_self (fx_state [fx_fastq_record] [])) = Ok true /\
  exists r, portal_record fx_self [fx_fastq_record] "gs://b/in/r1.fq" = Ok r /\
            record_truthy r = true.
Proof.
  split; [reflexivity|].
  destruct (raw_files_accessioned fx_self (fx_state [fx_fastq_record] []))
    as [[b|e] st'] eqn:E; [|vm_compute in E; discriminate E].
  destruct (raw_files_accessioned_all fx_self _ b st' E) as (_ & H).
  apply (proj1 H) with (f := 6); [|vm_compute; tauto].
  vm_compute in E. now inversion E.
Defined.

(** X29 on [fx_analysis]: the raw fastq behind y.bam is r1.fq, yielded
    once for each of the three inputs of [dedup] that lead to it. *)
Lemma raw_fastq_inputs_yield_example :
  yielded (raw_fastq_inputs fx_analysis 50 4) = [6; 6; 6] /\
  is_raw_fastq fx_analysis 6 = true /\ input_reach fx_analysis 4 6.
Proof.
  split; [reflexivity|].
  destruct (raw_fastq_inputs_yield fx_analysis 50 4) as (H & _).
  apply H. vm_compute. tauto.
Defined.
